(** * Static traffic assignment: Node, Link, OD and Network of Mayur_Network.py

    A shallow embedding of the module [Mayur_Network.py] and the
    properties of its file readers, shortest-path search, all-or-nothing
    loading and equilibrium loop.

    Numbers.  Python floats are modelled by exact rationals [Q]; the value
    [float('inf')] of a node potential is the constructor [PInf].  The BPR
    exponent [beta] is an integer, so that the power stays rational.
    Rounding, underflow and overflow (the OverflowError of [**] included)
    are outside this model.  The properties claimed of the program are
    those that do not depend on them: the outcome of a method, what it
    leaves unchanged, the structure of what it builds, and the order and
    the sign of the values.

    Objects.  [Link] objects are shared between the dictionary
    [Network.links] and the forward and reverse stars of the nodes.  They
    live in the object store [Network.heap] and are referred to by their
    position in it.

    Effects.  A method is a state transformer with three outcomes: normal
    return, a raised Python exception (with the state reached when it was
    raised), and divergence (a [while] loop that used up its fuel). *)

From Stdlib Require Import ZArith QArith Qabs Qpower List Bool Lia Lqa String.
Import ListNotations.

Local Open Scope Z_scope.

(* ------------------------------------------------------------------ *)
(** ** Exceptions and the state-and-exception monad                     *)
(* ------------------------------------------------------------------ *)

Inductive exn : Type :=
| TypeError
| IndexError
| KeyError
| AttributeError
| ZeroDivisionError
| UnboundLocalError
| ValueError
| BadFileFormatException.

Inductive outcome (S A : Type) : Type :=
| Ok (a : A) (s : S)
| Raise (e : exn) (s : S)
| Diverge.

Arguments Ok {S A} a s.
Arguments Raise {S A} e s.
Arguments Diverge {S A}.

Definition M (S A : Type) : Type := S -> outcome S A.

Definition ret {S A} (a : A) : M S A := fun s => Ok a s.

Definition bind {S A B} (m : M S A) (k : A -> M S B) : M S B :=
  fun s => match m s with
           | Ok a s' => k a s'
           | Raise e s' => Raise e s'
           | Diverge => Diverge
           end.

Definition raise {S A} (e : exn) : M S A := fun s => Raise e s.
Definition diverge {S A} : M S A := fun _ => Diverge.
Definition gets {S A} (f : S -> A) : M S A := fun s => Ok (f s) s.
Definition modify {S} (f : S -> S) : M S unit := fun s => Ok tt (f s).

Declare Scope py_scope.
Delimit Scope py_scope with py.
Notation "x <- m ;; k" := (bind m (fun x => k))
  (at level 61, m at next level, right associativity) : py_scope.
Notation "m ;; k" := (bind m (fun _ => k))
  (at level 61, right associativity) : py_scope.
Local Open Scope py_scope.

(** Run a method of an object stored inside a larger state. *)
Definition zoom {S T A} (get : S -> T) (set : T -> S -> S) (m : M T A) : M S A :=
  fun s => match m (get s) with
           | Ok a t => Ok a (set t s)
           | Raise e t => Raise e (set t s)
           | Diverge => Diverge
           end.

(** [for x in l: body x] *)
Fixpoint for_each {S A} (l : list A) (body : A -> M S unit) : M S unit :=
  match l with
  | [] => ret tt
  | x :: l' => body x ;; for_each l' body
  end.

(** A loop that carries a local variable through its iterations. *)
Fixpoint for_fold {S A B} (l : list A) (body : B -> A -> M S B) (b : B) : M S B :=
  match l with
  | [] => ret b
  | x :: l' => b' <- body b x ;; for_fold l' body b'
  end.

(* ------------------------------------------------------------------ *)
(** ** Python lists, ranges and dictionaries                            *)
(* ------------------------------------------------------------------ *)

(** [l[i]] accepts [-len(l) <= i < len(l)]; a negative index counts from
    the end.  [py_norm n i] is the position that [i] denotes in a list of
    length [n]. *)
Definition py_norm (n : nat) (i : Z) : option nat :=
  if 0 <=? i then
    if i <? Z.of_nat n then Some (Z.to_nat i) else None
  else
    if - Z.of_nat n <=? i then Some (Z.to_nat (Z.of_nat n + i)) else None.

Definition py_getitem {S A} (l : list A) (i : Z) : M S A :=
  match py_norm (List.length l) i with
  | Some k => match nth_error l k with
              | Some a => ret a
              | None => raise IndexError
              end
  | None => raise IndexError
  end.

(** [range(lo, hi)] *)
Definition py_range (lo hi : Z) : list Z :=
  map (fun k => lo + Z.of_nat k) (seq 0 (Z.to_nat (hi - lo))).

(** [l.pop(pos)] (the list that remains) *)
Fixpoint pop {A} (pos : nat) (l : list A) : list A :=
  match pos, l with
  | _, [] => []
  | O, _ :: l' => l'
  | S p, x :: l' => x :: pop p l'
  end.

(** Replace position [k] of a list. *)
Fixpoint list_set {A} (k : nat) (a : A) (l : list A) : list A :=
  match k, l with
  | _, [] => []
  | O, _ :: l' => a :: l'
  | S k', x :: l' => x :: list_set k' a l'
  end.

(** Dictionaries keep insertion order: association lists with unique keys. *)
Definition key : Type := (Z * Z)%type.

Definition key_eqb (a b : key) : bool :=
  (fst a =? fst b) && (snd a =? snd b).

Fixpoint dict_get {V} (d : list (key * V)) (k : key) : option V :=
  match d with
  | [] => None
  | (k', v) :: d' => if key_eqb k k' then Some v else dict_get d' k
  end.

(** [d[k] = v]: an existing key keeps its place. *)
Fixpoint dict_set {V} (d : list (key * V)) (k : key) (v : V) : list (key * V) :=
  match d with
  | [] => [(k, v)]
  | (k', v') :: d' =>
      if key_eqb k k' then (k', v) :: d' else (k', v') :: dict_set d' k v
  end.

(** Dictionaries with node IDs as keys: [ODpairs] and its rows. *)
Fixpoint zdict_get {V} (d : list (Z * V)) (k : Z) : option V :=
  match d with
  | [] => None
  | (k', v) :: d' => if k =? k' then Some v else zdict_get d' k
  end.

Fixpoint zdict_set {V} (d : list (Z * V)) (k : Z) (v : V) : list (Z * V) :=
  match d with
  | [] => [(k, v)]
  | (k', v') :: d' =>
      if k =? k' then (k', v) :: d' else (k', v') :: zdict_set d' k v
  end.

(* ------------------------------------------------------------------ *)
(** ** Numbers                                                          *)
(* ------------------------------------------------------------------ *)

(** A node potential: a float that may be [float('inf')]. *)
Inductive pot : Type :=
| PInf
| PFin (q : Q).

Definition Qltb (a b : Q) : bool := negb (Qle_bool b a).

(** [a > b] *)
Definition pot_gt (a b : pot) : bool :=
  match a, b with
  | PInf, PInf => false
  | PInf, PFin _ => true
  | PFin _, PInf => false
  | PFin x, PFin y => Qltb y x
  end.

(** [a == b] *)
Definition pot_eqb (a b : pot) : bool :=
  match a, b with
  | PInf, PInf => true
  | PFin x, PFin y => Qeq_bool x y
  | _, _ => false
  end.

(** [p + c] for a finite [c] *)
Definition pot_add (p : pot) (c : Q) : pot :=
  match p with
  | PInf => PInf
  | PFin x => PFin (x + c)
  end.

(** [min(l)] for a non-empty list [b :: l]: the first of the smallest. *)
Fixpoint py_min (b : pot) (l : list pot) : pot :=
  match l with
  | [] => b
  | x :: l' => py_min (if pot_gt b x then x else b) l'
  end.

(** [l.index(v)]: the first position that holds a value equal to [v]. *)
Fixpoint py_index (l : list pot) (v : pot) : nat :=
  match l with
  | [] => O
  | x :: l' => if pot_eqb x v then O else S (py_index l' v)
  end.

(** [a / b] *)
Definition py_div {S} (a b : Q) : M S Q :=
  if Qeq_bool b 0 then raise ZeroDivisionError else ret (a / b)%Q.

(** [x ** n] for an integer exponent, in exact arithmetic; [0.0 ** n]
    raises for [n < 0].  The OverflowError of a power too large for a
    float is not modelled. *)
Definition py_pow {S} (x : Q) (n : Z) : M S Q :=
  if Qeq_bool x 0 && (n <? 0) then raise ZeroDivisionError else ret (x ^ n)%Q.

(* ------------------------------------------------------------------ *)
(** ** class Node                                                       *)
(* ------------------------------------------------------------------ *)

Module Node.

Record t : Type := mk {
  ID : Z;
  isZone : bool;
  forwardStar : list nat;   (* references into the object store *)
  reverseStar : list nat;
  potential : pot;
  pre : option Z
}.

Definition init (id : Z) (isZone : bool) : t :=
  mk id isZone [] [] PInf None.

Definition ResetPotential (self : t) : t :=
  mk (ID self) (isZone self) (forwardStar self) (reverseStar self) PInf None.

Definition set_potential (p : pot) (self : t) : t :=
  mk (ID self) (isZone self) (forwardStar self) (reverseStar self) p (pre self).

Definition set_pre (w : option Z) (self : t) : t :=
  mk (ID self) (isZone self) (forwardStar self) (reverseStar self)
     (potential self) w.

Definition append_forwardStar (r : nat) (self : t) : t :=
  mk (ID self) (isZone self) (forwardStar self ++ [r]) (reverseStar self)
     (potential self) (pre self).

Definition append_reverseStar (r : nat) (self : t) : t :=
  mk (ID self) (isZone self) (forwardStar self) (reverseStar self ++ [r])
     (potential self) (pre self).

End Node.

(* ------------------------------------------------------------------ *)
(** ** class OD                                                         *)
(* ------------------------------------------------------------------ *)

Module OD.

Record t : Type := mk {
  origin : Z;
  destination : Z;
  demand : Q
}.

End OD.

(* ------------------------------------------------------------------ *)
(** ** class Link                                                       *)
(* ------------------------------------------------------------------ *)

Module Link.

Record t : Type := mk {
  tail : Z;
  head : Z;
  ID : Z;
  capacity : Q;
  length : Q;
  freeFlowTime : Q;
  alpha : Q;
  beta : Z;
  speedLimit : Q;
  toll : Q;
  linkType : string;
  flow : Q;
  cost : option Q          (* [None] until CalcCost has run *)
}.

(** [Link(tail, head, ID, capacity, ...)]: flow 0 and no cost yet. *)
Definition init (tail head ID : Z) (capacity length freeFlowTime alpha : Q)
    (beta : Z) (speedLimit toll : Q) (linkType : string) : t :=
  mk tail head ID capacity length freeFlowTime alpha beta speedLimit toll
     linkType 0%Q None.

Definition set_cost (c : option Q) (self : t) : t :=
  mk (tail self) (head self) (ID self) (capacity self) (length self)
     (freeFlowTime self) (alpha self) (beta self) (speedLimit self)
     (toll self) (linkType self) (flow self) c.

Definition set_flow (f : Q) (self : t) : t :=
  mk (tail self) (head self) (ID self) (capacity self) (length self)
     (freeFlowTime self) (alpha self) (beta self) (speedLimit self)
     (toll self) (linkType self) f (cost self).

(** The cost that CalcCost computes, as a formula of exact arithmetic. *)
Definition bpr_cost (self : t) (distanceFactor tollFactor : Q) : Q :=
  (freeFlowTime self * (1 + alpha self * (flow self / capacity self) ^ beta self)
   + distanceFactor * length self + tollFactor * toll self)%Q.

(** [def CalcCost(self, distanceFactor = 0, tollFactor = 0)] *)
Definition CalcCost (distanceFactor tollFactor : Q) : M t unit :=
  ratio <- (fun self => py_div (flow self) (capacity self) self) ;;
  power <- (fun self => py_pow ratio (beta self) self) ;;
  travelT <- gets (fun self => freeFlowTime self * (1 + alpha self * power))%Q ;;
  DistanceCost <- gets (fun self => distanceFactor * length self)%Q ;;
  TollCost <- gets (fun self => tollFactor * toll self)%Q ;;
  modify (set_cost (Some (travelT + DistanceCost + TollCost)%Q)).

End Link.

(* ------------------------------------------------------------------ *)
(** ** class Network                                                    *)
(* ------------------------------------------------------------------ *)

(** Mapping from link key to AON flow, in the key order of [links]. *)
Definition flows : Type := list (key * Q).

(** One data line of the network file after [split], [int] and [float]. *)
Record LinkData : Type := mkLinkData {
  d_tail : Z;
  d_head : Z;
  d_capacity : Q;
  d_length : Q;
  d_freeFlowTime : Q;
  d_alpha : Q;
  d_beta : Z;
  d_speedLimit : Q;
  d_toll : Q;
  d_linkType : string
}.

(** The metadata block of the network file. *)
Record Metadata : Type := mkMetadata {
  md_numNodes : Z;
  md_numLinks : Z;
  md_firstThruNode : Z;
  md_numZones : Z;
  md_tollFactor : Q;
  md_distanceFactor : Q
}.

(** The metadata block of the demand file. *)
Record DemandMetadata : Type := mkDemandMetadata {
  dm_totalFlow : Q;
  dm_numZones : Z
}.

(** One entry [destination : demand;] of a demand line: the destination,
    whether its second token is [":"], and the demand. *)
Record DemandEntry : Type := mkDemandEntry {
  e_destination : Z;
  e_colon : bool;
  e_demand : Q
}.

(** A data line of the demand file: [Origin o], a line of entries, or a
    line whose number of tokens is not a multiple of three. *)
Inductive DemandLine : Type :=
| OriginLine (o : Z)
| DestLine (entries : list DemandEntry)
| RaggedLine.

(** [k in d] for a lookup result. *)
Definition is_some_row {A} (a : option A) : bool :=
  match a with Some _ => true | None => false end.

Module Network.

Record t : Type := mk {
  numZones : option Z;
  numNodes : option Z;
  nodes : list (option Node.t);
  firstThroughNode : Z;
  numLinks : option Z;
  links : list (key * nat);
  tollFactor : option Q;
  distanceFactor : option Q;
  totalDemand : Q;
  ODpairs : list (Z * list (Z * OD.t));
  heap : list Link.t       (* the Link objects, by reference *)
}.

(** [Network()] with no file names: the empty placeholder. *)
Definition init : t :=
  mk None None [] 0 None [] None None 0%Q [] [].

Definition set_nodes (f : list (option Node.t) -> list (option Node.t)) (self : t) : t :=
  mk (numZones self) (numNodes self) (f (nodes self)) (firstThroughNode self)
     (numLinks self) (links self) (tollFactor self) (distanceFactor self)
     (totalDemand self) (ODpairs self) (heap self).

Definition set_heap (f : list Link.t -> list Link.t) (self : t) : t :=
  mk (numZones self) (numNodes self) (nodes self) (firstThroughNode self)
     (numLinks self) (links self) (tollFactor self) (distanceFactor self)
     (totalDemand self) (ODpairs self) (f (heap self)).

Definition set_links (f : list (key * nat) -> list (key * nat)) (self : t) : t :=
  mk (numZones self) (numNodes self) (nodes self) (firstThroughNode self)
     (numLinks self) (f (links self)) (tollFactor self) (distanceFactor self)
     (totalDemand self) (ODpairs self) (heap self).

Definition set_numZones (z : option Z) (self : t) : t :=
  mk z (numNodes self) (nodes self) (firstThroughNode self)
     (numLinks self) (links self) (tollFactor self) (distanceFactor self)
     (totalDemand self) (ODpairs self) (heap self).

Definition set_numLinks (z : option Z) (self : t) : t :=
  mk (numZones self) (numNodes self) (nodes self) (firstThroughNode self)
     z (links self) (tollFactor self) (distanceFactor self)
     (totalDemand self) (ODpairs self) (heap self).

(** The assignments of the metadata block of ReadNetworkFile. *)
Definition set_metadata (md : Metadata) (self : t) : t :=
  mk (numZones self) (Some (md_numNodes md))
     (repeat None (Z.to_nat (md_numNodes md))) (md_firstThruNode md)
     (Some (md_numLinks md)) (links self) (tollFactor self)
     (distanceFactor self) (totalDemand self) (ODpairs self) (heap self).

Definition set_factors (tf df : Q) (self : t) : t :=
  mk (numZones self) (numNodes self) (nodes self) (firstThroughNode self)
     (numLinks self) (links self) (Some tf) (Some df)
     (totalDemand self) (ODpairs self) (heap self).

(** *** Access to the nodes and to the Link objects *)

(** The position denoted by [self.nodes[i]]. *)
Definition node_pos (i : Z) : M t nat :=
  fun self => match py_norm (List.length (nodes self)) i with
              | Some k => Ok k self
              | None => Raise IndexError self
              end.

(** Attribute access on the entry at position [k]; [None] has no attributes. *)
Definition node_obj (k : nat) : M t Node.t :=
  fun self => match nth_error (nodes self) k with
              | Some (Some n) => Ok n self
              | Some None => Raise AttributeError self
              | None => Raise IndexError self
              end.

(** In-place update of the Node object at position [k]. *)
Definition node_update (k : nat) (f : Node.t -> Node.t) : M t unit :=
  n <- node_obj k ;;
  modify (set_nodes (list_set k (Some (f n)))).

(** Dereference a Link object.  References are created by ReadNetworkFile
    only, together with the object; a dangling one has no Python
    counterpart. *)
Definition link_obj (r : nat) : M t Link.t :=
  fun self => match nth_error (heap self) r with
              | Some l => Ok l self
              | None => Raise AttributeError self
              end.

(** Run a method of the Link object behind reference [r]. *)
Definition on_link {A} (r : nat) (m : M Link.t A) : M t A :=
  l <- link_obj r ;;
  zoom (fun _ => l) (fun l' => set_heap (list_set r l')) m.

(** [self.links[ij]] *)
Definition links_getitem (ij : key) : M t nat :=
  fun self => match dict_get (links self) ij with
              | Some r => Ok r self
              | None => Raise KeyError self
              end.

(** *** ShortestPath *)

(** [for link in currentNode.forwardStar:] body, for the link behind [r];
    [ci] is the position of [currentNode]. *)
Definition relax (ci : nat) (r : nat) : M t unit :=
  link <- link_obj r ;;
  hi <- node_pos (Link.head link - 1) ;;
  node <- node_obj hi ;;
  currentNode <- node_obj ci ;;
  match Link.cost link with
  | None => raise TypeError
  | Some c =>
      if pot_gt (Node.potential node) (pot_add (Node.potential currentNode) c)
      then node_update hi (fun n =>
             Node.set_pre (Some (Node.ID currentNode))
               (Node.set_potential (pot_add (Node.potential currentNode) c) n))
      else ret tt
  end.

(** [[self.nodes[i].potential for i in scanList]] *)
Fixpoint read_potentials (scanList : list Z) : M t (list pot) :=
  match scanList with
  | [] => ret []
  | i :: rest =>
      k <- node_pos i ;;
      n <- node_obj k ;;
      ps <- read_potentials rest ;;
      ret (Node.potential n :: ps)
  end.

(** [while scanList != []:]; every pass pops one entry, so [fuel] equal to
    the length of [scanList] is enough. *)
Fixpoint scan (fuel : nat) (scanList : list Z) : M t unit :=
  match scanList with
  | [] => ret tt
  | i0 :: _ =>
      match fuel with
      | O => diverge
      | S fuel' =>
          potentials <- read_potentials scanList ;;
          let minPotential := py_min (hd PInf potentials) (tl potentials) in
          let pos := py_index potentials minPotential in
          let nodeIndex := nth pos scanList i0 in
          ci <- node_pos nodeIndex ;;
          currentNode <- node_obj ci ;;
          let scanList' := pop pos scanList in
          for_each (Node.forwardStar currentNode) (relax ci) ;;
          scan fuel' scanList'
      end
  end.

(** [tuple((node.potential, node.pre) for node in self.nodes)] *)
Fixpoint table (ns : list (option Node.t)) : M t (list (pot * option Z)) :=
  match ns with
  | [] => ret []
  | None :: _ => raise AttributeError
  | Some n :: rest =>
      tb <- table rest ;;
      ret ((Node.potential n, Node.pre n) :: tb)
  end.

Definition ShortestPath (origin : Z) : M t (list (pot * option Z)) :=
  (* for node in self.nodes: node.ResetPotential() *)
  n <- gets (fun self => List.length (nodes self)) ;;
  for_each (seq 0 n) (fun k => node_update k Node.ResetPotential) ;;
  (* originNode = self.nodes[origin-1]; originNode.potential = 0 *)
  oi <- node_pos (origin - 1) ;;
  node_update oi (Node.set_potential (PFin 0)) ;;
  (* scanList = [i for i in range(self.firstThroughNode - 1, self.numNodes)] *)
  first <- gets firstThroughNode ;;
  nn <- (fun self => match numNodes self with
                     | Some v => Ok v self
                     | None => Raise TypeError self
                     end) ;;
  let scanList := py_range (first - 1) nn in
  scan (List.length scanList) scanList ;;
  ns <- gets nodes ;;
  table ns.

(** *** AON *)

(** [AON_flow[k] += demands] *)
Definition flow_add (AON_flow : flows) (k : key) (demands : Q) : M t flows :=
  match dict_get AON_flow k with
  | Some v => ret (dict_set AON_flow k (v + demands)%Q)
  | None => raise KeyError
  end.

(** The walk back from [x]:
<<
   while SPath[x-1][1] is not None:
       AON_flow[(SPath[x-1][1], x)] += demands
       x = SPath[x-1][1]
>>
    It returns the mapping together with the node at which it stopped. *)
Fixpoint trace (fuel : nat) (SPath : list (pot * option Z)) (demands : Q)
    (x : Z) (AON_flow : flows) : M t (flows * Z) :=
  match fuel with
  | O => diverge
  | S fuel' =>
      e <- py_getitem SPath (x - 1) ;;
      match snd e with
      | None => ret (AON_flow, x)
      | Some p =>
          AON_flow' <- flow_add AON_flow (p, x) demands ;;
          trace fuel' SPath demands p AON_flow'
      end
  end.

(** [for o in self.ODpairs: ... for d in self.ODpairs[o]: ...]; the
    dictionaries are walked entry by entry. *)
Definition AON (fuel : nat) : M t flows :=
  ij <- gets (fun self => map fst (links self)) ;;
  let AON_flow := map (fun k => (k, 0%Q)) ij in
  ods <- gets ODpairs ;;
  for_fold ods (fun AON_flow row =>
    SPath <- ShortestPath (fst row) ;;
    for_fold (snd row) (fun AON_flow entry =>
      let demands := OD.demand (snd entry) in
      r <- trace fuel SPath demands (fst entry) AON_flow ;;
      ret (fst r)) AON_flow) AON_flow.

(** *** UE *)

(** The local variables of UE that its loops assign.  [counter] is never
    bound before it is read. *)
Record UE_locals : Type := mkLocals {
  epsilon : list Q;
  error : option Q;
  counter : option Z
}.

(** [flow_AON(ij)]: the call of a dictionary. *)
Definition call_dict (flow_AON : flows) (ij : key) : M t Q :=
  raise TypeError.

(** [flow_AON[ij]] *)
Definition flows_getitem (flow_AON : flows) (ij : key) : M t Q :=
  match dict_get flow_AON ij with
  | Some v => ret v
  | None => raise KeyError
  end.

(** [max(l)] for the non-empty list [b :: l] *)
Fixpoint py_max (b : Q) (l : list Q) : Q :=
  match l with
  | [] => b
  | x :: l' => py_max (if Qltb b x then x else b) l'
  end.

(** The body of the inner [for ij in self.links:] of the main loop. *)
Definition UE_inner (IteCou : Z) (flow_AON : flows) (L : UE_locals)
    (ij : key) : M t UE_locals :=
  r <- links_getitem ij ;;
  link <- link_obj r ;;
  let C_flow := Link.flow link in
  a <- flows_getitem flow_AON ij ;;
  step <- py_div (a - C_flow)%Q (inject_Z IteCou) ;;
  let move := (C_flow + step)%Q in
  if Qeq_bool move 0 then
    (* E_ij = 0 *)
    ret L
  else
    q <- py_div (C_flow - move)%Q move ;;
    let E_ij := Qabs q in
    on_link r (modify (Link.set_flow move)) ;;
    let epsilon' := (epsilon L ++ [E_ij])%list in
    (* print('progress of iteration: %' % counter) *)
    c <- match counter L with
         | Some c => ret c
         | None => raise UnboundLocalError
         end ;;
    (raise ValueError : M t unit) ;;      (* the format ends in a lone % *)
    let error' := py_max (hd 0%Q epsilon') (tl epsilon') in
    ret (mkLocals epsilon' (Some error') (Some (c + 1))).

(** The body of [while (converge > tolerance):], one pass. *)
Definition UE_pass (aon_fuel : nat) (IteCou : Z) (L : UE_locals) : M t UE_locals :=
  keys <- gets (fun self => map fst (links self)) ;;
  for_fold keys (fun L ij =>
    r <- links_getitem ij ;;
    on_link r (Link.CalcCost 0 0) ;;
    flow_AON <- AON aon_fuel ;;
    let L0 := mkLocals [] (error L) (counter L) in
    keys' <- gets (fun self => map fst (links self)) ;;
    for_fold keys' (UE_inner IteCou flow_AON) L0) L.

(** [while (converge > tolerance):]; neither [converge] nor [IteCou] is
    assigned inside the loop. *)
Fixpoint UE_while (fuel aon_fuel : nat) (tolerance converge : Q) (IteCou : Z)
    (L : UE_locals) : M t unit :=
  if Qltb tolerance converge then
    match fuel with
    | O => diverge
    | S fuel' =>
        L' <- UE_pass aon_fuel IteCou L ;;
        UE_while fuel' aon_fuel tolerance converge IteCou L'
    end
  else ret tt.

Definition UE (fuel : nat) (tolerance : Q) : M t unit :=
  flow_AON <- AON fuel ;;
  keys <- gets (fun self => map fst (links self)) ;;
  for_each keys (fun ij =>
    v <- call_dict flow_AON ij ;;
    r <- links_getitem ij ;;
    on_link r (modify (Link.set_flow v))) ;;
  let converge := 5%Q in
  let IteCou := 1 in
  UE_while fuel fuel tolerance converge IteCou (mkLocals [] None None).

(** *** ReadNetworkFile *)

(** The validity test of one link: some parameter is negative. *)
Definition has_negative (l : Link.t) : bool :=
  Qltb (Link.capacity l) 0 || Qltb (Link.length l) 0 ||
  Qltb (Link.freeFlowTime l) 0 || Qltb (Link.alpha l) 0 ||
  (Link.beta l <? 0) || Qltb (Link.speedLimit l) 0 ||
  Qltb (Link.toll l) 0.

(** An attribute that must have been assigned: arithmetic on [None] is a
    TypeError. *)
Definition assigned {A} (a : option A) : M t A :=
  match a with
  | Some v => ret v
  | None => raise TypeError
  end.

(** [for i in range(2):] body; [r] refers to tempLink. *)
Definition add_end_node (data : LinkData) (r : nat) (i : Z) : M t unit :=
  let nodeID := (if i =? 0 then d_tail data else d_head data) - 1 in
  k <- node_pos nodeID ;;
  entry <- gets (fun self => nth k (nodes self) None) ;;
  match entry with
  | None =>
      nz <- (fun self => assigned (numZones self) self) ;;
      modify (set_nodes (list_set k (Some (Node.init (nodeID + 1) (nodeID + 1 <=? nz)))))
  | Some _ => ret tt
  end ;;
  if i =? 0 then node_update k (Node.append_forwardStar r)
  else node_update k (Node.append_reverseStar r).

(** The body of the loop over the data lines. *)
Definition read_link (linkID : Z) (data : LinkData) : M t Z :=
  let tempLink :=
    Link.init (d_tail data) (d_head data) (linkID + 1) (d_capacity data)
      (d_length data) (d_freeFlowTime data) (d_alpha data) (d_beta data)
      (d_speedLimit data) (d_toll data) (d_linkType data) in
  (if has_negative tempLink then raise BadFileFormatException else ret tt) ;;
  df <- (fun self => assigned (distanceFactor self) self) ;;
  tf <- (fun self => assigned (tollFactor self) self) ;;
  (* tempLink.CalcCost(self.distanceFactor, self.tollFactor) *)
  tempLink' <- zoom (fun _ => tempLink) (fun _ self => self)
                 (Link.CalcCost df tf ;; gets (fun l => l)) ;;
  (* self.links[(tail,head)] = tempLink *)
  r <- gets (fun self => List.length (heap self)) ;;
  modify (set_heap (fun h => h ++ [tempLink'])%list) ;;
  modify (set_links (fun d => dict_set d (d_tail data, d_head data) r)) ;;
  for_each [0; 1] (add_end_node data r) ;;
  ret (linkID + 1).

(** [len([i for i in self.nodes if i.isZone == True])] *)
Fixpoint count_zones (ns : list (option Node.t)) : M t Z :=
  match ns with
  | [] => ret 0
  | None :: _ => raise AttributeError
  | Some n :: rest =>
      c <- count_zones rest ;;
      ret (if Node.isZone n then c + 1 else c)
  end.

(** ReadNetworkFile on a file whose metadata block is complete ([md]) and
    whose data lines ([lines]) have the eleven fields of the format. *)
Definition ReadNetworkFile (md : Metadata) (lines : list LinkData) : M t unit :=
  modify (set_metadata md) ;;
  nz <- gets numZones ;;
  match nz with
  | Some z => if z =? md_numZones md then ret tt
              else raise BadFileFormatException
  | None => modify (set_numZones (Some (md_numZones md)))
  end ;;
  modify (set_factors (md_tollFactor md) (md_distanceFactor md)) ;;
  linkID <- for_fold lines read_link 0 ;;
  (* verifications *)
  nl <- gets numLinks ;;
  (if match nl with Some v => v =? linkID | None => false end then ret tt
   else modify (set_numLinks (Some linkID))) ;;
  ns <- gets nodes ;;
  numZones' <- count_zones ns ;;
  nz' <- gets numZones ;;
  if match nz' with Some v => v =? numZones' | None => false end then ret tt
  else modify (set_numZones (Some numZones')).

(** *** ReadDemandFile *)

Definition set_ODpairs (f : list (Z * list (Z * OD.t)) -> list (Z * list (Z * OD.t)))
    (self : t) : t :=
  mk (numZones self) (numNodes self) (nodes self) (firstThroughNode self)
     (numLinks self) (links self) (tollFactor self) (distanceFactor self)
     (totalDemand self) (f (ODpairs self)) (heap self).

Definition set_totalDemand (f : Q -> Q) (self : t) : t :=
  mk (numZones self) (numNodes self) (nodes self) (firstThroughNode self)
     (numLinks self) (links self) (tollFactor self) (distanceFactor self)
     (f (totalDemand self)) (ODpairs self) (heap self).

(** The local variables of ReadDemandFile that its loop assigns. *)
Record demand_locals : Type := mkDemandLocals {
  numOrigins : Z;
  numDestinations : Z;
  numODpairs : Z;
  origin : option Z
}.

(** [self.ODpairs[origin]], where [origin] may still be [None]. *)
Definition od_row (origin : option Z) : M t (list (Z * OD.t)) :=
  fun self => match origin with
              | Some o => match zdict_get (ODpairs self) o with
                          | Some row => Ok row self
                          | None => Raise KeyError self
                          end
              | None => Raise KeyError self
              end.

(** The test shared by origins and destinations:
<<
   if node > self.numNodes: raise
   elif not self.nodes[node - 1].isZone: raise
>> *)
Definition check_zone (node : Z) : M t unit :=
  nn <- (fun self => assigned (numNodes self) self) ;;
  if nn <? node then raise BadFileFormatException
  else
    k <- node_pos (node - 1) ;;
    nd <- node_obj k ;;
    if Node.isZone nd then ret tt else raise BadFileFormatException.

(** A line [Origin o]. *)
Definition read_origin (L : demand_locals) (o : Z) : M t demand_locals :=
  (* verify the previous group of destinations *)
  (if 0 <? numOrigins L then
     row <- od_row (origin L) ;;
     if Z.of_nat (List.length row) =? numDestinations L then ret tt
     else raise BadFileFormatException
   else ret tt) ;;
  check_zone o ;;
  known <- gets (fun self => is_some_row (zdict_get (ODpairs self) o)) ;;
  (if known then raise BadFileFormatException else ret tt) ;;
  modify (set_ODpairs (fun d => zdict_set d o [])) ;;
  ret (mkDemandLocals (numOrigins L + 1) 0 (numODpairs L) (Some o)).

(** One entry [destination : demand;] of a line of destinations. *)
Definition read_destination (L : demand_locals) (e : DemandEntry)
    : M t demand_locals :=
  let destination := e_destination e in
  check_zone destination ;;
  (if e_colon e then ret tt else raise BadFileFormatException) ;;
  let demand := e_demand e in
  if Qltb demand 0 then raise BadFileFormatException
  else if Qltb 0 demand then
    (* self.ODpairs[origin][destination] = OD(origin, destination, demand) *)
    row <- od_row (origin L) ;;
    match origin L with
    | Some o =>
        modify (set_ODpairs (fun d =>
                  zdict_set d o (zdict_set row destination
                                   (OD.mk o destination demand)))) ;;
        modify (set_totalDemand (fun total => total + demand)%Q) ;;
        ret (mkDemandLocals (numOrigins L) (numDestinations L + 1)
               (numODpairs L + 1) (origin L))
    | None => raise KeyError
    end
  else ret L.

(** The body of the loop over the data lines. *)
Definition read_demand_line (L : demand_locals) (line : DemandLine)
    : M t demand_locals :=
  match line with
  | OriginLine o => read_origin L o
  | RaggedLine => raise BadFileFormatException
  | DestLine entries => for_fold entries read_destination L
  end.

(** ReadDemandFile on a file whose metadata block is complete ([md]); the
    lines are given after [split], [int] and [float]. *)
Definition ReadDemandFile (md : DemandMetadata) (lines : list DemandLine)
    : M t unit :=
  nz <- gets numZones ;;
  match nz with
  | Some z => if z =? dm_numZones md then ret tt
              else raise BadFileFormatException
  | None => modify (set_numZones (Some (dm_numZones md)))
  end ;;
  for_fold lines read_demand_line (mkDemandLocals 0 0 0 None) ;;
  (* the comparison with TOTAL OD FLOW only chooses the receipt printed *)
  ret tt.

(** [Network(networkFileName, demandFileName)]: the files are read only
    when both names are given. *)
Definition new (networkFile : option (Metadata * list LinkData))
    (demandFile : option (DemandMetadata * list DemandLine)) : outcome t unit :=
  match networkFile, demandFile with
  | Some (md, lines), Some (dmd, dlines) =>
      (ReadNetworkFile md lines ;; ReadDemandFile dmd dlines) init
  | _, _ => Ok tt init
  end.

End Network.

(* ------------------------------------------------------------------ *)
(** ** Consistent networks                                              *)
(* ------------------------------------------------------------------ *)

(** The state in which a method left the network. *)
Definition state_of {A} (dflt : Network.t) (o : outcome Network.t A) : Network.t :=
  match o with
  | Ok _ s => s
  | Raise _ s => s
  | Diverge => dflt
  end.

(** The OD table that ReadDemandFile leaves in the network. *)
Definition with_demand (total : Q) (od : list (Z * list (Z * OD.t)))
    (self : Network.t) : Network.t :=
  Network.mk (Network.numZones self) (Network.numNodes self)
    (Network.nodes self) (Network.firstThroughNode self)
    (Network.numLinks self) (Network.links self) (Network.tollFactor self)
    (Network.distanceFactor self) total od (Network.heap self).

Definition is_some {A} (a : option A) : bool :=
  match a with Some _ => true | None => false end.

Definition node_id_ok (n : nat) (i : Z) : bool := (1 <=? i) && (i <=? Z.of_nat n).

(** A link of the forward star of node [u]: it lies in the store, starts
    at [u], ends at a node of the network, has a cost and is filed in
    [links] under its key. *)
Definition link_ok (self : Network.t) (u : Z) (r : nat) : bool :=
  match nth_error (Network.heap self) r with
  | Some l =>
      (Link.tail l =? u)
      && node_id_ok (List.length (Network.nodes self)) (Link.head l)
      && is_some (Link.cost l)
      && is_some (dict_get (Network.links self) (Link.tail l, Link.head l))
  | None => false
  end.

Definition node_ok (self : Network.t) (ke : nat * option Node.t) : bool :=
  match snd ke with
  | Some nd =>
      (Node.ID nd =? Z.of_nat (fst ke) + 1)
      && forallb (link_ok self (Node.ID nd)) (Node.forwardStar nd)
  | None => false
  end.

Definition od_row_ok (self : Network.t) (row : Z * list (Z * OD.t)) : bool :=
  node_id_ok (List.length (Network.nodes self)) (fst row)
  && forallb (fun e => node_id_ok (List.length (Network.nodes self)) (fst e))
       (snd row).

(** The invariants of the data model that a loaded network satisfies:
    node [k+1] sits at position [k], the node count is the length of the
    node list, the scan list of ShortestPath stays inside the node list,
    and links and OD pairs refer to nodes of the network. *)
Definition consistent (self : Network.t) : bool :=
  match Network.numNodes self with
  | Some nn => nn =? Z.of_nat (List.length (Network.nodes self))
  | None => false
  end
  && (1 - Z.of_nat (List.length (Network.nodes self)) <=? Network.firstThroughNode self)
  && forallb (node_ok self)
       (combine (seq 0 (List.length (Network.nodes self))) (Network.nodes self))
  && forallb (od_row_ok self) (Network.ODpairs self).

(** Every link cost is assigned and non-negative. *)
Definition nonneg_costs (self : Network.t) : bool :=
  forallb (fun l => match Link.cost l with
                    | Some c => Qle_bool 0 c
                    | None => false
                    end) (Network.heap self).

(** What ShortestPath never touches in a node. *)
Definition static (n : Node.t) : Z * bool * list nat * list nat :=
  (Node.ID n, Node.isZone n, Node.forwardStar n, Node.reverseStar n).

Definition shape (ns : list (option Node.t)) :=
  map (option_map static) ns.

(** Two states that differ at most in the potentials and predecessors. *)
Definition same_frame (s s' : Network.t) : Prop :=
  Network.numZones s' = Network.numZones s /\
  Network.numNodes s' = Network.numNodes s /\
  shape (Network.nodes s') = shape (Network.nodes s) /\
  Network.firstThroughNode s' = Network.firstThroughNode s /\
  Network.numLinks s' = Network.numLinks s /\
  Network.links s' = Network.links s /\
  Network.tollFactor s' = Network.tollFactor s /\
  Network.distanceFactor s' = Network.distanceFactor s /\
  Network.totalDemand s' = Network.totalDemand s /\
  Network.ODpairs s' = Network.ODpairs s /\
  Network.heap s' = Network.heap s.

(* ------------------------------------------------------------------ *)
(** ** Example files                                                    *)
(* ------------------------------------------------------------------ *)

(** A data line with the BPR parameters of the one-link scenario:
    capacity 100, free-flow time 10, alpha 0.15, beta 4. *)
Definition line (tail head : Z) (capacity : Q) (beta : Z) : LinkData :=
  mkLinkData tail head capacity 0 10 (15 # 100) beta 0 0 "1".

Definition load (md : Metadata) (lines : list LinkData) : Network.t :=
  state_of Network.init (Network.ReadNetworkFile md lines Network.init).

(** Two nodes, the link (1,2), every node a through node. *)
Definition one_link : Network.t :=
  load (mkMetadata 2 1 1 2 0 0) [line 1 2 100 4].

(** The same with demand 50 from zone 1 to zone 2. *)
Definition one_link_50 : Network.t :=
  with_demand 50 [(1, [(2, OD.mk 1 2 50)])] one_link.

(** Two zones and one through node: FIRST THRU NODE is 3, and the links
    (1,3) and (3,2) join zone 1 to zone 2 through node 3. *)
Definition centroid_path : Network.t :=
  load (mkMetadata 3 2 3 2 0 0) [line 1 3 100 4; line 3 2 100 4].

(** Only the link (2,1), and demand from zone 1 to zone 2. *)
Definition backward_link_50 : Network.t :=
  with_demand 50 [(1, [(2, OD.mk 1 2 50)])]
    (load (mkMetadata 2 1 1 2 0 0) [line 2 1 100 4]).

(** One node with a loop on it. *)
Definition self_loop : Network.t :=
  load (mkMetadata 1 1 1 1 0 0) [line 1 1 100 4].

(** A link object with a negative exponent and no flow. *)
Definition link_negative_beta : Link.t :=
  Link.init 1 2 1 1 1 1 1 (-1) 1 0 "1".

(** A file whose only data line has capacity 0. *)
Definition zero_capacity_md : Metadata := mkMetadata 2 1 1 2 0 0.
Definition zero_capacity_lines : list LinkData := [line 1 2 0 4].

(** Only the link (2,1), no demand. *)
Definition backward_link : Network.t :=
  load (mkMetadata 2 1 1 2 0 0) [line 2 1 100 4].

(** Three nodes, the links (1,2), (2,3) and (3,2), the last one with
    toll 1, read with TOLL FACTOR -100: the link (3,2) costs 10 - 100,
    and the links (2,3) and (3,2) form a cycle of negative cost.  The
    demand file asks for 50 from zone 1 to zone 3. *)
Definition toll_cycle_files : option (Metadata * list LinkData) :=
  Some (mkMetadata 3 3 1 3 (-100) 0,
        [line 1 2 100 4; line 2 3 100 4;
         mkLinkData 3 2 100 0 10 (15 # 100) 4 0 1 "1"]).

Definition toll_cycle_demand : option (DemandMetadata * list DemandLine) :=
  Some (mkDemandMetadata 50 3,
        [OriginLine 1; DestLine [mkDemandEntry 3 true 50]]).

Definition toll_cycle : Network.t :=
  state_of Network.init (Network.new toll_cycle_files toll_cycle_demand).

(* ------------------------------------------------------------------ *)
(** ** Vocabulary of the statements                                     *)
(* ------------------------------------------------------------------ *)

(** A method returns normally. *)
Definition returns {S A} (o : outcome S A) : Prop :=
  exists a s, o = Ok a s.

(** The Link object that ReadNetworkFile builds from a data line. *)
Definition tempLink_of (linkID : Z) (data : LinkData) : Link.t :=
  Link.init (d_tail data) (d_head data) (linkID + 1) (d_capacity data)
    (d_length data) (d_freeFlowTime data) (d_alpha data) (d_beta data)
    (d_speedLimit data) (d_toll data) (d_linkType data).

(** [a <= b] on potentials, as the negation of [a > b]. *)
Definition pot_le (a b : pot) : Prop := pot_gt a b = false.

(** The potential and predecessor of every node, by position. *)
Definition label_of (e : option Node.t) : pot * option Z :=
  match e with
  | Some nd => (Node.potential nd, Node.pre nd)
  | None => (PInf, None)
  end.

Definition labels (s : Network.t) : list (pot * option Z) :=
  map label_of (Network.nodes s).

Definition lab (lb : list (pot * option Z)) (k : nat) : pot * option Z :=
  nth k lb (PInf, None).

(** The potential that the scan list entry [i] shows. *)
Definition pot_at (lb : list (pot * option Z)) (i : Z) : pot :=
  match py_norm (List.length lb) i with
  | Some k => fst (lab lb k)
  | None => PInf
  end.

(** The position in the scan list that [min] and [index] choose. *)
Definition chosen (lb : list (pot * option Z)) (L : list Z) : nat :=
  let potentials := map (pot_at lb) L in
  py_index potentials (py_min (hd PInf potentials) (tl potentials)).

(** The effect on the labels of relaxing a link of cost [c] from the node
    at position [u] to the node at position [v]. *)
Definition relabel (lb : list (pot * option Z)) (u v : nat) (c : Q) :=
  if pot_gt (fst (lab lb v)) (pot_add (fst (lab lb u)) c)
  then list_set v (pot_add (fst (lab lb u)) c, Some (Z.of_nat u + 1)) lb
  else lb.

(** The forward star of the node at position [u]. *)
Definition fstar (s : Network.t) (u : nat) : list nat :=
  match nth_error (Network.nodes s) u with
  | Some (Some nd) => Node.forwardStar nd
  | _ => []
  end.

(** The content of [consistent], as propositions. *)
Record Wf (s : Network.t) : Prop := mkWf {
  wf_numNodes :
    Network.numNodes s = Some (Z.of_nat (List.length (Network.nodes s)));
  wf_first :
    1 - Z.of_nat (List.length (Network.nodes s)) <= Network.firstThroughNode s;
  wf_node : forall k e,
    nth_error (Network.nodes s) k = Some e ->
    exists nd, e = Some nd /\ Node.ID nd = Z.of_nat k + 1 /\
      forall r, In r (Node.forwardStar nd) ->
        exists l c, nth_error (Network.heap s) r = Some l /\
          Link.tail l = Node.ID nd /\
          1 <= Link.head l <= Z.of_nat (List.length (Network.nodes s)) /\
          Link.cost l = Some c /\
          is_some (dict_get (Network.links s) (Link.tail l, Link.head l)) = true;
  wf_od : forall row,
    In row (Network.ODpairs s) ->
    1 <= fst row <= Z.of_nat (List.length (Network.nodes s)) /\
    forall e, In e (snd row) ->
      1 <= fst e <= Z.of_nat (List.length (Network.nodes s))
}.

(** The node at position [v] can be reached from the one at position [o]
    along links whose tails, the origin excepted, are through nodes. *)
Inductive Reach (s : Network.t) (o : nat) : nat -> Prop :=
| Reach_origin : Reach s o o
| Reach_link (u v r : nat) (l : Link.t) :
    Reach s o u ->
    u = o \/ Network.firstThroughNode s <= Z.of_nat u + 1 ->
    In r (fstar s u) ->
    nth_error (Network.heap s) r = Some l ->
    Link.head l = Z.of_nat v + 1 ->
    Reach s o v.

(** The same along links whose tails are all through nodes, the origin
    included: the nodes that the scan list lets the search relay. *)
Inductive Relayed (s : Network.t) (o : nat) : nat -> Prop :=
| Relayed_origin : Relayed s o o
| Relayed_link (u v r : nat) (l : Link.t) :
    Relayed s o u ->
    Network.firstThroughNode s <= Z.of_nat u + 1 ->
    In r (fstar s u) ->
    nth_error (Network.heap s) r = Some l ->
    Link.head l = Z.of_nat v + 1 ->
    Relayed s o v.

(** The invariant of the search that bounds the labelled nodes. *)
Record Bounded (s0 : Network.t) (o : nat) (L : list Z) (P : list nat)
    (lb : list (pot * option Z)) : Prop := mkBounded {
  bd_scan : forall i, In i L -> Network.firstThroughNode s0 - 1 <= i;
  bd_popped : forall p, In p P -> Network.firstThroughNode s0 <= Z.of_nat p + 1;
  bd_inf : forall k, fst (lab lb k) = PInf -> snd (lab lb k) = None;
  bd_fin : forall k, fst (lab lb k) <> PInf -> Relayed s0 o k
}.

(** Following the predecessors from position [p] leads to position [o]
    within [k] steps. *)
Fixpoint leads (lb : list (pot * option Z)) (o : nat) (k : nat) (p : nat) : Prop :=
  p = o \/
  match k with
  | O => False
  | S k' => exists u, snd (lab lb p) = Some (Z.of_nat u + 1) /\ leads lb o k' u
  end.

(** The invariant of the search under non-negative costs: [P] lists the
    nodes popped so far, the last one first. *)
Record Settled (s0 : Network.t) (o : nat) (L : list Z) (P : list nat)
    (lb : list (pot * option Z)) : Prop := mkSettled {
  st_count : (List.length P + List.length L <= 2 * List.length lb)%nat;
  st_inf : forall k, fst (lab lb k) = PInf -> snd (lab lb k) = None;
  st_nonneg : forall k q, fst (lab lb k) = PFin q -> (0 <= q)%Q;
  st_origin : lab lb o = (PFin 0, None);
  st_pre : forall k, k <> o -> fst (lab lb k) <> PInf -> snd (lab lb k) <> None;
  st_order : forall p i q,
    In p P -> In i L -> py_norm (List.length lb) i = Some q ->
    pot_le (fst (lab lb p)) (fst (lab lb q));
  st_last : forall u P', P = u :: P' ->
    forall p, In p P -> pot_le (fst (lab lb p)) (fst (lab lb u));
  st_link : forall k w, snd (lab lb k) = Some w ->
    exists u, w = Z.of_nat u + 1 /\ In u P /\ fst (lab lb u) <> PInf /\
      is_some (dict_get (Network.links s0) (Z.of_nat u + 1, Z.of_nat k + 1)) = true;
  st_leads : forall p, In p P -> fst (lab lb p) <> PInf ->
    leads lb o (List.length P) p
}.

(** What AON and ShortestPath leave alone: the Link objects and the
    dictionary that files them. *)
Definition keeps_links (s s' : Network.t) : Prop :=
  Network.heap s' = Network.heap s /\ Network.links s' = Network.links s.

(** A method that relates the state it is left in, by return or by
    exception, to the state it started from. *)
Definition preserves {A} (R : Network.t -> Network.t -> Prop)
    (m : M Network.t A) : Prop :=
  forall s, match m s with
            | Ok _ s' => R s s'
            | Raise _ s' => R s s'
            | Diverge => True
            end.

(** The links of all forward stars, node after node. *)
Definition star_of (e : option Node.t) : list nat :=
  match e with
  | Some nd => Node.forwardStar nd
  | None => []
  end.

Definition all_stars (s : Network.t) : list nat :=
  List.concat (map star_of (Network.nodes s)).

(** The labels before the main loop, and those that one link of cost [c]
    from position [t] to position [h] leaves. *)
Definition labels_start (n t : nat) : list (pot * option Z) :=
  list_set t (PFin 0, None) (repeat (PInf, None) n).

Definition labels_one_link (n t h : nat) (c : Q) : list (pot * option Z) :=
  list_set h (PFin (0 + c), Some (Z.of_nat t + 1)) (labels_start n t).

(** The invariant of the search on a network whose only link, of
    reference [r] and cost [c], goes from position [t] to position [h]:
    either nothing is labelled yet and the tail is still in the scan list,
    or the head has received its labels. *)
Definition OneLink (n t h : nat) (c : Q) (L : list Z) (P : list nat)
    (lb : list (pot * option Z)) : Prop :=
  (lb = labels_start n t /\ exists i, In i L /\ py_norm n i = Some t)
  \/ lb = labels_one_link n t h c.

(** The same while the forward star [rs] of the popped node [u] is
    walked. *)
Definition OneLinkAt (n t h r : nat) (c : Q) (rs : list nat) (L : list Z)
    (u : nat) (P : list nat) (lb : list (pot * option Z)) : Prop :=
  (lb = labels_start n t
   /\ ((u = t /\ rs = [r])
       \/ (rs = [] /\ exists i, In i L /\ py_norm n i = Some t)))
  \/ (lb = labels_one_link n t h c /\ (rs = [] \/ (u = t /\ rs = [r]))).

(** A node, at position [k] of a state, that satisfies the invariants of
    the data model. *)
Definition node_wf (s : Network.t) (k : nat) (nd : Node.t) : Prop :=
  Node.ID nd = Z.of_nat k + 1 /\
  forall r, In r (Node.forwardStar nd) ->
    exists l c, nth_error (Network.heap s) r = Some l /\
      Link.tail l = Node.ID nd /\
      1 <= Link.head l <= Z.of_nat (List.length (Network.nodes s)) /\
      Link.cost l = Some c /\
      is_some (dict_get (Network.links s) (Link.tail l, Link.head l)) = true.

(** The state of a network while its links are read: the nodes created
    so far satisfy the invariants, the others are still [None]. *)
Definition Loading (s : Network.t) : Prop :=
  forall k nd, nth_error (Network.nodes s) k = Some (Some nd) -> node_wf s k nd.

(** What ReadNetworkFile stores for a data line read as link number
    [linkID + 1] under the factors [df] and [tf]. *)
Definition loaded_link (df tf : Q) (linkID : Z) (data : LinkData) : Link.t :=
  Link.set_cost (Some (Link.bpr_cost (tempLink_of linkID data) df tf))
    (tempLink_of linkID data).

(** The Link objects that the data lines give, in the order of the file. *)
Fixpoint loaded_links (df tf : Q) (linkID : Z) (lines : list LinkData) : list Link.t :=
  match lines with
  | [] => []
  | data :: rest => loaded_link df tf linkID data :: loaded_links df tf (linkID + 1) rest
  end.

(** A data line that ReadNetworkFile accepts: no negative parameter and a
    capacity that is not zero. *)
Definition accepted_line (data : LinkData) : Prop :=
  Network.has_negative (tempLink_of 0 data) = false
  /\ Qeq_bool (d_capacity data) 0 = false.

(** What ReadDemandFile leaves alone: the topology. *)
Definition keeps_topology (s s' : Network.t) : Prop :=
  Network.numNodes s' = Network.numNodes s /\
  Network.nodes s' = Network.nodes s /\
  Network.firstThroughNode s' = Network.firstThroughNode s /\
  Network.numLinks s' = Network.numLinks s /\
  Network.links s' = Network.links s /\
  Network.tollFactor s' = Network.tollFactor s /\
  Network.distanceFactor s' = Network.distanceFactor s /\
  Network.heap s' = Network.heap s.

(** [x] passes the test that ReadDemandFile makes of an origin or a
    destination: it does not exceed numNodes and [self.nodes[x-1]] is a
    zone. *)
Definition is_zone (s : Network.t) (x : Z) : Prop :=
  exists nn k nd,
    Network.numNodes s = Some nn /\ x <= nn /\
    py_norm (List.length (Network.nodes s)) (x - 1) = Some k /\
    nth_error (Network.nodes s) k = Some (Some nd) /\
    Node.isZone nd = true.

(** The node IDs that a line of the demand file mentions. *)
Definition line_ids (l : DemandLine) : list Z :=
  match l with
  | OriginLine o => [o]
  | DestLine entries => map e_destination entries
  | RaggedLine => []
  end.

(** The demands that a line of the demand file gives. *)
Definition line_demands (l : DemandLine) : list Q :=
  match l with
  | DestLine entries => map e_demand entries
  | _ => []
  end.

Definition Qsum (l : list Q) : Q := fold_right Qplus 0%Q l.

(** The origins that a line of the demand file opens. *)
Definition line_origins (l : DemandLine) : list Z :=
  match l with
  | OriginLine o => [o]
  | _ => []
  end.

Definition file_ids (lines : list DemandLine) : list Z :=
  List.concat (map line_ids lines).

Definition file_origins (lines : list DemandLine) : list Z :=
  List.concat (map line_origins lines).

Definition file_demands (lines : list DemandLine) : list Q :=
  List.concat (map line_demands lines).

(** Every node ID of the OD table, origin or destination, satisfies [P]. *)
Definition Table_ids (P : Z -> Prop) (s : Network.t) : Prop :=
  forall o row, In (o, row) (Network.ODpairs s) ->
    P o /\ forall d od, In (d, od) row -> P d.

(** The invariant of the OD table: origins appear once, the destinations
    of an origin appear once, and every OD object carries its own keys
    and a positive demand. *)
Record Demand_ok (s : Network.t) : Prop := mkDemand_ok {
  dk_keys : NoDup (map fst (Network.ODpairs s));
  dk_rows : forall o row, In (o, row) (Network.ODpairs s) ->
    NoDup (map fst row) /\
    forall d od, In (d, od) row ->
      OD.origin od = o /\ OD.destination od = d /\ (0 < OD.demand od)%Q
}.

(** What a loop of ReadDemandFile keeps of the table: its invariant, the
    property [P] of its node IDs when the IDs read have it, and the
    number of zones. *)
Definition table_kept (P : Z -> Prop) (ids : list Z) (s s' : Network.t) : Prop :=
  Network.numZones s' = Network.numZones s
  /\ (Demand_ok s -> Demand_ok s')
  /\ ((forall x, In x ids -> P x) -> Table_ids P s -> Table_ids P s').

(** What ReadDemandFile demands of an entry and of a line. *)
Definition entry_accepted (s : Network.t) (e : DemandEntry) : Prop :=
  is_zone s (e_destination e) /\ e_colon e = true /\ (0 <= e_demand e)%Q.

Definition line_accepted (s : Network.t) (l : DemandLine) : Prop :=
  match l with
  | OriginLine o => is_zone s o
  | DestLine entries => Forall (entry_accepted s) entries
  | RaggedLine => False
  end.

(** A demand file of two zones: 50 from zone 1 to zone 2. *)
Definition demand_50 : list DemandLine :=
  [OriginLine 1; DestLine [mkDemandEntry 1 true 0; mkDemandEntry 2 true 50]].

(** The link behind [r], leaving the node at position [p], cannot lower
    the potential of its head any more. *)
Definition relaxed (s : Network.t) (lb : list (pot * option Z)) (p r : nat) : Prop :=
  forall l c v,
    nth_error (Network.heap s) r = Some l ->
    Link.cost l = Some c ->
    Link.head l = Z.of_nat v + 1 ->
    pot_le (fst (lab lb v)) (pot_add (fst (lab lb p)) c).

(** The invariant of the search that ties the labels to the links: every
    through node is popped or still in the scan list, the links of the
    nodes of [Pr] are relaxed, and the potential of a node with a
    predecessor is the potential of the predecessor plus the cost of a
    link between them. *)
Record Optimal (s0 : Network.t) (L : list Z) (P Pr : list nat)
    (lb : list (pot * option Z)) : Prop := mkOptimal {
  op_scan : forall u,
    Network.firstThroughNode s0 <= Z.of_nat u + 1 ->
    (u < List.length lb)%nat ->
    In u P \/ exists i, In i L /\ py_norm (List.length lb) i = Some u;
  op_relaxed : forall p r,
    In p Pr -> In r (fstar s0 p) -> relaxed s0 lb p r;
  op_tight : forall k w, snd (lab lb k) = Some w ->
    exists u r l c,
      w = Z.of_nat u + 1 /\ In u P /\ In r (fstar s0 u)
      /\ nth_error (Network.heap s0) r = Some l
      /\ Link.cost l = Some c
      /\ Link.head l = Z.of_nat k + 1
      /\ fst (lab lb k) = pot_add (fst (lab lb u)) c
}.

(** The three invariants together, between two passes of the main loop
    and while the forward star [rs] of the popped node [u] is walked. *)
Definition Searched (s0 : Network.t) (o : nat) (L : list Z) (P : list nat)
    (lb : list (pot * option Z)) : Prop :=
  Settled s0 o L P lb /\ Bounded s0 o L P lb /\ Optimal s0 L P P lb.

Definition SearchedAt (s0 : Network.t) (o : nat) (rs : list nat) (L : list Z)
    (u : nat) (P : list nat) (lb : list (pot * option Z)) : Prop :=
  Settled s0 o L (u :: P) lb /\ Bounded s0 o L (u :: P) lb
  /\ Optimal s0 L (u :: P) P lb
  /\ exists done, fstar s0 u = (done ++ rs)%list
                  /\ forall r, In r done -> relaxed s0 lb u r.

(** A method that always comes to an end, by return or by exception:
    no loop of it uses up its fuel. *)
Definition halts {S A} (m : M S A) : Prop := forall s, m s <> Diverge.

(** No entry of a mapping from link keys to flows is negative. *)
Definition flows_nonneg (fl : flows) : Prop :=
  forall k v, In (k, v) fl -> (0 <= v)%Q.

(** No demand of the OD table is negative. *)
Definition demands_nonneg (s : Network.t) : Prop :=
  forall o row d od, In (o, row) (Network.ODpairs s) -> In (d, od) row ->
    (0 <= OD.demand od)%Q.

(** The network file and the demand file of the one-link scenario. *)
Definition one_link_files : option (Metadata * list LinkData) :=
  Some (mkMetadata 2 1 1 2 0 0, [line 1 2 100 4]).

Definition demand_50_files : option (DemandMetadata * list DemandLine) :=
  Some (mkDemandMetadata 50 2, demand_50).

(** The references, from [base] on, of the links of a store that satisfy
    [f], in the order of the store. *)
Fixpoint refs_from (f : Link.t -> bool) (base : nat) (heap : list Link.t)
    : list nat :=
  match heap with
  | [] => []
  | l :: heap' => ((if f l then [base] else []) ++ refs_from f (S base) heap')%list
  end.

Definition leaves (i : Z) (l : Link.t) : bool := Link.tail l =? i.
Definition enters (i : Z) (l : Link.t) : bool := Link.head l =? i.

(** A node that, at position [k], has the stars that the store [heap]
    gives it and the zone flag of [nz] zones. *)
Definition star_node (nz : Z) (heap : list Link.t) (k : nat) (nd : Node.t) : Prop :=
  Node.ID nd = Z.of_nat k + 1
  /\ Node.isZone nd = (Z.of_nat k + 1 <=? nz)
  /\ Node.forwardStar nd = refs_from (leaves (Z.of_nat k + 1)) 0 heap
  /\ Node.reverseStar nd = refs_from (enters (Z.of_nat k + 1)) 0 heap
  /\ Node.potential nd = PInf /\ Node.pre nd = None.

(** The state of the nodes while the links are read: a node that exists
    has the stars of the links read so far, and is an end of one of them;
    a node that does not exist yet is an end of none. *)
Definition Stars (nz : Z) (s : Network.t) : Prop :=
  forall k e, nth_error (Network.nodes s) k = Some e ->
    match e with
    | Some nd => star_node nz (Network.heap s) k nd
                 /\ (Node.forwardStar nd ++ Node.reverseStar nd)%list <> []
    | None => refs_from (leaves (Z.of_nat k + 1)) 0 (Network.heap s) = []
              /\ refs_from (enters (Z.of_nat k + 1)) 0 (Network.heap s) = []
    end.

(** The destinations of the entries with a positive demand. *)
Definition pos_dests (es : list DemandEntry) : list Z :=
  map e_destination (filter (fun e => Qltb 0 (e_demand e)) es).

(** The group of destinations that is open after a line: its origin and
    the entries read for it so far. *)
Definition group_step (g : option (Z * list DemandEntry)) (l : DemandLine)
    : option (Z * list DemandEntry) :=
  match l with
  | OriginLine o => Some (o, [])
  | DestLine es => match g with
                   | Some (o, es0) => Some (o, (es0 ++ es)%list)
                   | None => None
                   end
  | RaggedLine => g
  end.

Definition last_group (lines : list DemandLine) : option (Z * list DemandEntry) :=
  fold_left group_step lines None.

(** The local variables of ReadDemandFile and the row of the open group,
    as the lines read so far determine them. *)
Definition Group (g : option (Z * list DemandEntry)) (L : Network.demand_locals)
    (s : Network.t) : Prop :=
  0 <= Network.numOrigins L /\
  match g with
  | None => Network.origin L = None /\ Network.numOrigins L = 0
  | Some (o, es) =>
      Network.origin L = Some o /\ 0 < Network.numOrigins L
      /\ exists row, zdict_get (Network.ODpairs s) o = Some row
           /\ NoDup (map fst row)
           /\ (forall x, In x (map fst row) <-> In x (pos_dests es))
           /\ Network.numDestinations L = Z.of_nat (List.length (pos_dests es))
  end.

(** The links from node [t] to node [h]. *)
Definition same_ends (t h : Z) (l : Link.t) : bool :=
  (Link.tail l =? t) && (Link.head l =? h).

(** The last reference of a list. *)
Definition last_ref (l : list nat) : option nat :=
  match rev l with
  | [] => None
  | r :: _ => Some r
  end.

(** The number of the nodes of a list that are zones. *)
Definition zone_count (ns : list (option Node.t)) : Z :=
  Z.of_nat (List.length
              (filter (fun e => match e with
                                | Some nd => Node.isZone nd
                                | None => false
                                end) ns)).

(* ------------------------------------------------------------------ *)
(** ** Link.CalcCost                                                    *)
(* ------------------------------------------------------------------ *)

Lemma Qeq_bool_false_pos (q : Q) : (0 < q)%Q -> Qeq_bool q 0 = false.
Proof.
  intros H. destruct (Qeq_bool q 0) eqn:E; [|reflexivity].
  apply Qeq_bool_eq in E. rewrite E in H. exfalso. revert H. apply Qlt_irrefl.
Qed.

Lemma Qltb_true (a b : Q) : Qltb a b = true <-> (a < b)%Q.
Proof.
  unfold Qltb. rewrite negb_true_iff. split; intros H.
  - apply Qnot_le_lt. intros Hle. apply Qle_bool_iff in Hle. congruence.
  - destruct (Qle_bool b a) eqn:E; [|reflexivity].
    apply Qle_bool_iff in E. exfalso. apply (Qlt_not_le _ _ H E).
Qed.

Lemma Qltb_false (a b : Q) : Qltb a b = false <-> (b <= a)%Q.
Proof.
  unfold Qltb. rewrite negb_false_iff. apply Qle_bool_iff.
Qed.

(** With a non-zero capacity the division returns, and with a non-negative
    exponent or a non-zero ratio so does the power. *)
Lemma CalcCost_returns (self : Link.t) (distanceFactor tollFactor : Q) :
  Qeq_bool (Link.capacity self) 0 = false ->
  Qeq_bool (Link.flow self / Link.capacity self) 0 && (Link.beta self <? 0) = false ->
  Link.CalcCost distanceFactor tollFactor self
  = Ok tt (Link.set_cost (Some (Link.bpr_cost self distanceFactor tollFactor)) self).
Proof.
  intros Hc Hp. unfold Link.CalcCost, bind, py_div, py_pow.
  rewrite Hc. cbn. rewrite Hp. reflexivity.
Qed.

(** A zero capacity makes [flow/capacity] raise, whatever the flow. *)
Lemma CalcCost_zero_capacity (self : Link.t) (distanceFactor tollFactor : Q) :
  Qeq_bool (Link.capacity self) 0 = true ->
  Link.CalcCost distanceFactor tollFactor self = Raise ZeroDivisionError self.
Proof.
  intros Hc. unfold Link.CalcCost, bind, py_div. rewrite Hc. reflexivity.
Qed.

(** A link with capacity 1, exponent -1 and flow 0 makes CalcCost raise
    ZeroDivisionError ([0.0 ** -1]) and leaves the cost unassigned: a
    positive capacity is not enough for CalcCost to store a cost. *)
Lemma CalcCost_negative_beta_raises :
  (0 < Link.capacity link_negative_beta)%Q /\
  Link.CalcCost 0 0 link_negative_beta
  = Raise ZeroDivisionError link_negative_beta /\
  Link.CalcCost 0 0 link_negative_beta
  <> Ok tt (Link.set_cost (Some (Link.bpr_cost link_negative_beta 0 0))
              link_negative_beta).
Proof.
  split; [reflexivity|]. split; [reflexivity|]. discriminate.
Qed.

(* ------------------------------------------------------------------ *)
(** ** Reasoning about outcomes                                         *)
(* ------------------------------------------------------------------ *)

Lemma bind_Ok {S A B} (m : M S A) (k : A -> M S B) s a s' :
  m s = Ok a s' -> bind m k s = k a s'.
Proof. intros H. unfold bind. rewrite H. reflexivity. Qed.

Lemma bind_Raise {S A B} (m : M S A) (k : A -> M S B) s e s' :
  m s = Raise e s' -> bind m k s = Raise e s'.
Proof. intros H. unfold bind. rewrite H. reflexivity. Qed.

Lemma bind_Ok_inv {S A B} (m : M S A) (k : A -> M S B) s b s'' :
  bind m k s = Ok b s'' -> exists a s', m s = Ok a s' /\ k a s' = Ok b s''.
Proof.
  unfold bind. destruct (m s) as [a s'| |]; try discriminate.
  intros H. exists a, s'. auto.
Qed.

Lemma bind_returns_inv {S A B} (m : M S A) (k : A -> M S B) s :
  returns (bind m k s) -> exists a s', m s = Ok a s' /\ returns (k a s').
Proof.
  intros (b & s'' & H). apply bind_Ok_inv in H as (a & s' & H1 & H2).
  exists a, s'. split; [assumption|]. exists b, s''. assumption.
Qed.

Lemma for_fold_app {S A B} (l1 l2 : list A) (body : B -> A -> M S B) b s :
  for_fold (l1 ++ l2) body b s
  = bind (for_fold l1 body b) (for_fold l2 body) s.
Proof.
  revert b s. induction l1 as [|x l1 IH]; intros b s; cbn.
  - reflexivity.
  - unfold bind in *. destruct (body b x s); try reflexivity. apply IH.
Qed.

(** A loop returns only if every pass does. *)
Lemma for_fold_returns_inv {S A B} (P : A -> Prop) (l : list A)
    (body : B -> A -> M S B) :
  (forall b x s, P x -> ~ returns (body b x s)) ->
  Exists P l -> forall b s, ~ returns (for_fold l body b s).
Proof.
  intros Hbody HE. induction HE as [x l Hx | x l _ IH]; intros b s Hr; cbn in Hr.
  - apply bind_returns_inv in Hr as (b' & s' & H1 & _).
    apply (Hbody b x s Hx). exists b', s'. assumption.
  - apply bind_returns_inv in Hr as (b' & s' & _ & H2).
    apply (IH b' s' H2).
Qed.

(* ------------------------------------------------------------------ *)
(** ** ReadNetworkFile and the capacity of a link                       *)
(* ------------------------------------------------------------------ *)

Lemma read_link_negative_capacity (linkID : Z) (data : LinkData) (s : Network.t) :
  (d_capacity data < 0)%Q ->
  Network.read_link linkID data s = Raise BadFileFormatException s.
Proof.
  intros H. unfold Network.read_link, Network.has_negative. cbn.
  apply Qltb_true in H. rewrite H. reflexivity.
Qed.

Lemma read_link_zero_capacity (linkID : Z) (data : LinkData) (s : Network.t) :
  (d_capacity data == 0)%Q ->
  Network.has_negative (tempLink_of linkID data) = false ->
  is_some (Network.distanceFactor s) && is_some (Network.tollFactor s) = true ->
  Network.read_link linkID data s = Raise ZeroDivisionError s.
Proof.
  intros H0 Hn Hf. unfold Network.read_link. fold (tempLink_of linkID data).
  rewrite Hn. apply andb_prop in Hf as [Hd Ht].
  destruct (Network.distanceFactor s) as [df|] eqn:Ed; [|discriminate].
  destruct (Network.tollFactor s) as [tf|] eqn:Et; [|discriminate].
  unfold bind at 1. cbn. unfold bind at 1. rewrite Ed. cbn.
  unfold bind at 1. rewrite Et. cbn.
  unfold bind at 1. unfold zoom, bind at 1.
  rewrite CalcCost_zero_capacity; [reflexivity|].
  apply Qeq_bool_iff. exact H0.
Qed.

Lemma read_link_bad_capacity (linkID : Z) (data : LinkData) (s : Network.t) :
  (d_capacity data <= 0)%Q -> ~ returns (Network.read_link linkID data s).
Proof.
  intros Hle (a & s' & Hr). unfold Network.read_link in Hr.
  fold (tempLink_of linkID data) in Hr.
  destruct (Network.has_negative (tempLink_of linkID data)) eqn:Hn.
  - discriminate Hr.
  - assert (H0 : Qeq_bool (d_capacity data) 0 = true).
    { apply Qeq_bool_iff. apply Qle_antisym; [exact Hle|].
      unfold Network.has_negative in Hn. cbn in Hn.
      apply orb_false_iff in Hn as [Hn _]. repeat apply orb_false_iff in Hn as [Hn _].
      apply Qltb_false in Hn. exact Hn. }
    apply bind_Ok_inv in Hr as (? & s1 & _ & Hr).
    apply bind_Ok_inv in Hr as (df & s2 & _ & Hr).
    apply bind_Ok_inv in Hr as (tf & s3 & _ & Hr).
    apply bind_Ok_inv in Hr as (l' & s4 & H3 & _).
    unfold zoom, bind in H3.
    rewrite CalcCost_zero_capacity in H3 by exact H0. discriminate H3.
Qed.

(** C7, as stated, fails: a data line with capacity 0 passes the validity
    test; the load stops with the ZeroDivisionError of CalcCost, not with
    BadFileFormatException. *)
Lemma ReadNetworkFile_zero_capacity_reaches_CalcCost :
  Exists (fun d => (d_capacity d <= 0)%Q) zero_capacity_lines /\
  (exists s, Network.ReadNetworkFile zero_capacity_md zero_capacity_lines
               Network.init = Raise ZeroDivisionError s) /\
  ~ (exists s, Network.ReadNetworkFile zero_capacity_md zero_capacity_lines
                 Network.init = Raise BadFileFormatException s).
Proof.
  split; [|split].
  - left. discriminate.
  - eexists. vm_compute. reflexivity.
  - intros (s & H). vm_compute in H. discriminate H.
Qed.

(** C7 (amended): a link record with negative capacity is rejected by the
    validity test of ReadNetworkFile with BadFileFormatException, at the
    record itself and before its cost is evaluated; a capacity of exactly
    0 passes that test and raises the ZeroDivisionError of CalcCost during
    the load.  In both cases ReadNetworkFile does not return normally. *)
Theorem ReadNetworkFile_bad_capacity (md : Metadata)
    (before after : list LinkData) (data : LinkData) :
  (d_capacity data <= 0)%Q ->
  (forall s, ~ returns (Network.ReadNetworkFile md (before ++ data :: after) s))
  /\ (forall s linkID s',
        (d_capacity data < 0)%Q ->
        for_fold before Network.read_link 0 s = Ok linkID s' ->
        for_fold (before ++ data :: after) Network.read_link 0 s
        = Raise BadFileFormatException s')
  /\ (forall s linkID s',
        (d_capacity data == 0)%Q ->
        Network.has_negative (tempLink_of linkID data) = false ->
        is_some (Network.distanceFactor s') && is_some (Network.tollFactor s') = true ->
        for_fold before Network.read_link 0 s = Ok linkID s' ->
        for_fold (before ++ data :: after) Network.read_link 0 s
        = Raise ZeroDivisionError s').
Proof.
  intros Hle. split; [|split].
  - intros s Hr. unfold Network.ReadNetworkFile in Hr.
    apply bind_returns_inv in Hr as (? & s1 & _ & Hr).
    apply bind_returns_inv in Hr as (? & s2 & _ & Hr).
    apply bind_returns_inv in Hr as (? & s3 & _ & Hr).
    apply bind_returns_inv in Hr as (? & s4 & _ & Hr).
    apply bind_returns_inv in Hr as (k & s5 & H5 & _).
    apply (for_fold_returns_inv (fun d => (d_capacity d <= 0)%Q)
             (before ++ data :: after) Network.read_link) with (b := 0) (s := s4).
    + intros b d s0 Hd. apply read_link_bad_capacity, Hd.
    + apply Exists_app. right. left. exact Hle.
    + exists k, s5. exact H5.
  - intros s linkID s' Hneg Hb. rewrite for_fold_app.
    rewrite (bind_Ok _ _ _ _ _ Hb). cbn.
    apply bind_Raise. apply read_link_negative_capacity, Hneg.
  - intros s linkID s' H0 Hn Hf Hb. rewrite for_fold_app.
    rewrite (bind_Ok _ _ _ _ _ Hb). cbn.
    apply bind_Raise. apply read_link_zero_capacity; assumption.
Qed.

Lemma ReadNetworkFile_bad_capacity_witness :
  ~ returns (Network.ReadNetworkFile zero_capacity_md
               ([] ++ line 1 2 0 4 :: []) Network.init).
Proof.
  apply (ReadNetworkFile_bad_capacity zero_capacity_md [] [] (line 1 2 0 4)).
  discriminate.
Defined.

(* ------------------------------------------------------------------ *)
(** ** Lists, indices and potentials                                    *)
(* ------------------------------------------------------------------ *)

Section ListFacts.
Context {A : Type}.

Lemma length_list_set (k : nat) (a : A) (l : list A) :
  List.length (list_set k a l) = List.length l.
Proof.
  revert k. induction l as [|x l IH]; intros [|k]; cbn; auto.
Qed.

Lemma nth_error_list_set_eq (k : nat) (a : A) (l : list A) :
  (k < List.length l)%nat -> nth_error (list_set k a l) k = Some a.
Proof.
  revert k. induction l as [|x l IH]; intros [|k] H; cbn in *; try lia.
  - reflexivity.
  - apply IH. lia.
Qed.

Lemma nth_error_list_set_neq (k j : nat) (a : A) (l : list A) :
  j <> k -> nth_error (list_set k a l) j = nth_error l j.
Proof.
  revert k j. induction l as [|x l IH]; intros [|k] [|j] H; cbn;
    try congruence; auto.
Qed.

Lemma nth_list_set_eq (k : nat) (a d : A) (l : list A) :
  (k < List.length l)%nat -> nth k (list_set k a l) d = a.
Proof.
  intros H. apply nth_error_nth. apply nth_error_list_set_eq, H.
Qed.

Lemma nth_list_set_neq (k j : nat) (a d : A) (l : list A) :
  j <> k -> nth j (list_set k a l) d = nth j l d.
Proof.
  revert k j. induction l as [|x l IH]; intros [|k] [|j] H; cbn;
    try congruence; auto.
Qed.

Lemma In_pop (p : nat) (x : A) (l : list A) : In x (pop p l) -> In x l.
Proof.
  revert p. induction l as [|y l IH]; intros [|p] H; cbn in *; auto.
  destruct H as [H | H]; [left; exact H | right; apply (IH p H)].
Qed.

Lemma length_pop (p : nat) (l : list A) :
  (p < List.length l)%nat -> S (List.length (pop p l)) = List.length l.
Proof.
  revert p. induction l as [|y l IH]; intros [|p] H; cbn in *; try lia.
  rewrite IH; lia.
Qed.

Lemma In_pop_other (p : nat) (x d : A) (l : list A) :
  In x l -> x <> nth p l d -> In x (pop p l).
Proof.
  revert p. induction l as [|y l IH]; intros [|p] H Hne; cbn in *; auto.
  - destruct H as [H | H]; [congruence | exact H].
  - destruct H as [H | H]; [left; exact H | right; apply IH; assumption].
Qed.

Lemma nth_error_combine_seq (l : list A) (a k : nat) (e : A) :
  nth_error l k = Some e -> In ((a + k)%nat, e) (combine (seq a (List.length l)) l).
Proof.
  revert a k. induction l as [|x l IH]; intros a [|k] H; cbn in *; try discriminate.
  - inversion H. left. f_equal. lia.
  - right. replace (a + S k)%nat with (S a + k)%nat by lia. apply IH, H.
Qed.

End ListFacts.

Lemma map_list_set {A B} (f : A -> B) (k : nat) (a : A) (l : list A) :
  map f (list_set k a l) = list_set k (f a) (map f l).
Proof.
  revert k. induction l as [|x l IH]; intros [|k]; cbn; auto. now rewrite IH.
Qed.

Lemma list_set_same {A} (k : nat) (a : A) (l : list A) :
  nth_error l k = Some a -> list_set k a l = l.
Proof.
  revert k. induction l as [|x l IH]; intros [|k] H; cbn in *; try discriminate.
  - congruence.
  - f_equal. apply IH, H.
Qed.

(** *** Index normalisation and ranges *)

Lemma py_norm_lt (n : nat) (i : Z) (k : nat) :
  py_norm n i = Some k -> (k < n)%nat.
Proof.
  unfold py_norm. destruct (0 <=? i) eqn:E0.
  - destruct (i <? Z.of_nat n) eqn:E1; [|discriminate].
    intros H. inversion H. apply Z.leb_le in E0. apply Z.ltb_lt in E1. lia.
  - destruct (- Z.of_nat n <=? i) eqn:E1; [|discriminate].
    intros H. inversion H. apply Z.leb_gt in E0. apply Z.leb_le in E1. lia.
Qed.

Lemma py_norm_nonneg (n : nat) (i : Z) :
  0 <= i < Z.of_nat n -> py_norm n i = Some (Z.to_nat i).
Proof.
  intros [H0 H1]. unfold py_norm.
  apply Z.leb_le in H0. apply Z.ltb_lt in H1. now rewrite H0, H1.
Qed.

Lemma py_norm_valid (n : nat) (i : Z) :
  - Z.of_nat n <= i < Z.of_nat n -> exists k, py_norm n i = Some k.
Proof.
  intros [H0 H1]. unfold py_norm. destruct (0 <=? i) eqn:E0.
  - apply Z.ltb_lt in H1. rewrite H1. eauto.
  - apply Z.leb_le in H0. rewrite H0. eauto.
Qed.

(** The position that an index denotes is never below the index. *)
Lemma py_norm_ge (n : nat) (i : Z) (k : nat) :
  py_norm n i = Some k -> i <= Z.of_nat k.
Proof.
  unfold py_norm. destruct (0 <=? i) eqn:E0.
  - destruct (i <? Z.of_nat n); [|discriminate].
    intros H. inversion H. apply Z.leb_le in E0. lia.
  - destruct (- Z.of_nat n <=? i); [|discriminate].
    intros H. inversion H. apply Z.leb_gt in E0. lia.
Qed.

Lemma In_py_range (lo hi i : Z) : In i (py_range lo hi) <-> lo <= i < hi.
Proof.
  unfold py_range. rewrite in_map_iff. split.
  - intros (k & Hk & Hin). apply in_seq in Hin. lia.
  - intros H. exists (Z.to_nat (i - lo)). split; [lia|]. apply in_seq. lia.
Qed.

(** *** The order of the potentials *)

Lemma pot_le_refl (a : pot) : pot_le a a.
Proof.
  destruct a as [|x]; unfold pot_le; cbn; [reflexivity|].
  apply Qltb_false. apply Qle_refl.
Qed.

Lemma pot_le_trans (a b c : pot) : pot_le a b -> pot_le b c -> pot_le a c.
Proof.
  unfold pot_le. destruct a as [|x], b as [|y], c as [|z]; cbn; try congruence.
  rewrite !Qltb_false. intros H1 H2. apply (Qle_trans _ _ _ H1 H2).
Qed.

Lemma pot_gt_le (a b : pot) : pot_gt a b = true -> pot_le b a.
Proof.
  unfold pot_le. destruct a as [|x], b as [|y]; cbn; try congruence.
  rewrite Qltb_true, Qltb_false. apply Qlt_le_weak.
Qed.

Lemma pot_eqb_refl (a : pot) : pot_eqb a a = true.
Proof. destruct a as [|x]; cbn; [reflexivity|]. apply Qeq_bool_iff. reflexivity. Qed.

Lemma pot_eqb_le (a b : pot) : pot_eqb a b = true -> pot_le a b.
Proof.
  unfold pot_le. destruct a as [|x], b as [|y]; cbn; try congruence.
  intros H. apply Qeq_bool_iff in H. apply Qltb_false. rewrite H. apply Qle_refl.
Qed.

Lemma pot_le_inf (a : pot) : pot_le a PInf.
Proof. destruct a; reflexivity. Qed.

Lemma pot_le_fin (x y : Q) : pot_le (PFin x) (PFin y) <-> (x <= y)%Q.
Proof. unfold pot_le. cbn. apply Qltb_false. Qed.

Lemma pot_gt_fin (a : pot) (y : Q) :
  pot_gt a (PFin y) = true <-> a = PInf \/ exists x, a = PFin x /\ (y < x)%Q.
Proof.
  destruct a as [|x]; cbn.
  - split; auto.
  - rewrite Qltb_true. split.
    + intros H. right. eauto.
    + intros [H | (x' & H & Hlt)]; [discriminate|]. inversion H. assumption.
Qed.

Lemma pot_gt_inf (a : pot) : pot_gt a PInf = false.
Proof. destruct a; reflexivity. Qed.

(** [min] returns a member that is below every member. *)
Lemma py_min_le_start (b : pot) (l : list pot) : pot_le (py_min b l) b.
Proof.
  revert b. induction l as [|x l IH]; intros b; cbn.
  - apply pot_le_refl.
  - destruct (pot_gt b x) eqn:E.
    + apply (pot_le_trans _ x); [apply IH | apply pot_gt_le, E].
    + apply IH.
Qed.

Lemma py_min_le (b : pot) (l : list pot) (x : pot) :
  In x (b :: l) -> pot_le (py_min b l) x.
Proof.
  revert b. induction l as [|y l IH]; intros b H.
  - destruct H as [H | []]. subst. apply pot_le_refl.
  - cbn. destruct H as [H | [H | H]].
    + subst x. apply (pot_le_trans _ (if pot_gt b y then y else b)).
      * apply py_min_le_start.
      * destruct (pot_gt b y) eqn:E; [apply pot_gt_le, E | apply pot_le_refl].
    + subst x. apply (pot_le_trans _ (if pot_gt b y then y else b)).
      * apply py_min_le_start.
      * destruct (pot_gt b y) eqn:E; [apply pot_le_refl | exact E].
    + apply IH. right. exact H.
Qed.

Lemma py_min_In (b : pot) (l : list pot) : In (py_min b l) (b :: l).
Proof.
  revert b. induction l as [|y l IH]; intros b; cbn.
  - left. reflexivity.
  - destruct (IH (if pot_gt b y then y else b)) as [H | H].
    + destruct (pot_gt b y); [right; left | left]; exact H.
    + right. right. exact H.
Qed.

(** [index] finds a member that equals the value sought. *)
Lemma py_index_lt (l : list pot) (v : pot) :
  In v l -> (py_index l v < List.length l)%nat.
Proof.
  induction l as [|x l IH]; intros H; cbn in *; [contradiction|].
  destruct (pot_eqb x v) eqn:E; [lia|].
  destruct H as [H | H].
  - subst. rewrite pot_eqb_refl in E. discriminate.
  - specialize (IH H). lia.
Qed.

Lemma py_index_eqb (l : list pot) (v d : pot) :
  In v l -> pot_eqb (nth (py_index l v) l d) v = true.
Proof.
  induction l as [|x l IH]; intros H; cbn in *; [contradiction|].
  destruct (pot_eqb x v) eqn:E; [exact E|].
  destruct H as [H | H].
  - subst. rewrite pot_eqb_refl in E. discriminate.
  - apply IH, H.
Qed.

(** The entry chosen by [min] and [index] is below every entry. *)
Lemma selected_minimal (l : list pot) (d x : pot) :
  l <> [] -> In x l ->
  pot_le (nth (py_index l (py_min (hd PInf l) (tl l))) l d) x
  /\ (py_index l (py_min (hd PInf l) (tl l)) < List.length l)%nat.
Proof.
  intros Hne Hx. destruct l as [|b l]; [congruence|]. cbn [hd tl].
  pose proof (py_min_In b l) as Hin. split.
  - apply (pot_le_trans _ (py_min b l)).
    + apply pot_eqb_le. apply py_index_eqb, Hin.
    + apply py_min_le, Hx.
  - apply py_index_lt, Hin.
Qed.

(* ------------------------------------------------------------------ *)
(** ** Consistency and frames                                           *)
(* ------------------------------------------------------------------ *)

Lemma node_id_ok_iff (n : nat) (i : Z) :
  node_id_ok n i = true <-> 1 <= i <= Z.of_nat n.
Proof. unfold node_id_ok. rewrite andb_true_iff, !Z.leb_le. tauto. Qed.

Lemma consistent_Wf (s : Network.t) : consistent s = true -> Wf s.
Proof.
  unfold consistent. intros H.
  apply andb_prop in H as [H Hod]. apply andb_prop in H as [H Hnodes].
  apply andb_prop in H as [Hnn Hfirst].
  constructor.
  - destruct (Network.numNodes s) as [nn|]; [|discriminate].
    apply Z.eqb_eq in Hnn. now subst.
  - apply Z.leb_le, Hfirst.
  - intros k e Hk.
    pose proof (nth_error_combine_seq (Network.nodes s) 0 k e Hk) as Hin.
    rewrite forallb_forall in Hnodes. specialize (Hnodes _ Hin).
    unfold node_ok in Hnodes. cbn in Hnodes.
    destruct e as [nd|]; [|discriminate].
    apply andb_prop in Hnodes as [Hid Hfs]. apply Z.eqb_eq in Hid.
    exists nd. split; [reflexivity|]. split; [exact Hid|].
    intros r Hr. rewrite forallb_forall in Hfs. specialize (Hfs r Hr).
    unfold link_ok in Hfs.
    destruct (nth_error (Network.heap s) r) as [l|]; [|discriminate].
    apply andb_prop in Hfs as [Hfs Hkey]. apply andb_prop in Hfs as [Hfs Hcost].
    apply andb_prop in Hfs as [Htail Hhead].
    apply Z.eqb_eq in Htail. apply node_id_ok_iff in Hhead.
    destruct (Link.cost l) as [c|] eqn:Ec; [|discriminate].
    exists l, c. auto.
  - intros row Hrow. rewrite forallb_forall in Hod. specialize (Hod row Hrow).
    unfold od_row_ok in Hod. apply andb_prop in Hod as [Ho Hd].
    apply node_id_ok_iff in Ho. split; [exact Ho|].
    intros e He. rewrite forallb_forall in Hd. apply node_id_ok_iff, Hd, He.
Qed.

Lemma same_frame_refl (s : Network.t) : same_frame s s.
Proof. unfold same_frame. repeat split. Qed.

Lemma same_frame_trans (s1 s2 s3 : Network.t) :
  same_frame s1 s2 -> same_frame s2 s3 -> same_frame s1 s3.
Proof.
  unfold same_frame. intros H1 H2.
  decompose [and] H1. decompose [and] H2. repeat split; congruence.
Qed.

Lemma shape_length (ns ns' : list (option Node.t)) :
  shape ns' = shape ns -> List.length ns' = List.length ns.
Proof.
  intros H. apply (f_equal (@List.length _)) in H.
  unfold shape in H. now rewrite !length_map in H.
Qed.

Lemma shape_nth (ns ns' : list (option Node.t)) (k : nat) (e : option Node.t) :
  shape ns' = shape ns -> nth_error ns k = Some e ->
  exists e', nth_error ns' k = Some e'
             /\ option_map static e' = option_map static e.
Proof.
  intros H Hk. apply (f_equal (fun l => nth_error l k)) in H.
  unfold shape in H. rewrite !nth_error_map, Hk in H. cbn in H.
  destruct (nth_error ns' k) as [e'|]; [|discriminate].
  exists e'. split; [reflexivity|]. cbn in H. congruence.
Qed.

Lemma static_fields (nd nd' : Node.t) :
  static nd' = static nd ->
  Node.ID nd' = Node.ID nd /\ Node.forwardStar nd' = Node.forwardStar nd.
Proof. unfold static. intros H. inversion H. auto. Qed.

Lemma Wf_frame (s s' : Network.t) : same_frame s s' -> Wf s -> Wf s'.
Proof.
  intros Hf [Hnn Hfirst Hnode Hod]. unfold same_frame in Hf.
  destruct Hf as (_ & Fnn & Fsh & Ffirst & _ & Flinks & _ & _ & _ & Fod & Fheap).
  pose proof (shape_length _ _ Fsh) as Flen.
  constructor; rewrite ?Flen, ?Fnn, ?Ffirst, ?Fod, ?Fheap, ?Flinks; auto.
  intros k e' Hk.
  destruct (shape_nth _ _ k e' (eq_sym Fsh) Hk) as (e & He & Hst).
  destruct (Hnode k e He) as (nd & -> & Hid & Hfs).
  destruct e' as [nd'|]; [|discriminate]. cbn in Hst.
  assert (Hs : static nd = static nd') by congruence.
  apply static_fields in Hs as [Hid' Hfs'].
  exists nd'. split; [reflexivity|]. rewrite <- Hid', <- Hfs'. auto.
Qed.

Lemma Wf_nodes (s : Network.t) (k : nat) :
  Wf s -> (k < List.length (Network.nodes s))%nat ->
  exists nd, nth_error (Network.nodes s) k = Some (Some nd)
             /\ Node.ID nd = Z.of_nat k + 1.
Proof.
  intros W Hk. destruct (nth_error (Network.nodes s) k) as [e|] eqn:E.
  - destruct (wf_node s W k e E) as (nd & -> & Hid & _). eauto.
  - apply nth_error_None in E. lia.
Qed.

Lemma length_labels (s : Network.t) :
  List.length (labels s) = List.length (Network.nodes s).
Proof. unfold labels. apply length_map. Qed.

Lemma lab_labels (s : Network.t) (k : nat) (nd : Node.t) :
  nth_error (Network.nodes s) k = Some (Some nd) ->
  lab (labels s) k = (Node.potential nd, Node.pre nd).
Proof.
  intros H. unfold lab, labels. apply nth_error_nth.
  rewrite nth_error_map, H. reflexivity.
Qed.

(** *** The elementary steps on the nodes *)

Lemma node_pos_Ok (s : Network.t) (i : Z) (k : nat) :
  py_norm (List.length (Network.nodes s)) i = Some k ->
  Network.node_pos i s = Ok k s.
Proof. intros H. unfold Network.node_pos. now rewrite H. Qed.

Lemma node_obj_Ok (s : Network.t) (k : nat) (nd : Node.t) :
  nth_error (Network.nodes s) k = Some (Some nd) ->
  Network.node_obj k s = Ok nd s.
Proof. intros H. unfold Network.node_obj. now rewrite H. Qed.

Lemma node_update_Ok (s : Network.t) (k : nat) (nd : Node.t)
    (f : Node.t -> Node.t) :
  nth_error (Network.nodes s) k = Some (Some nd) ->
  Network.node_update k f s
  = Ok tt (Network.set_nodes (list_set k (Some (f nd))) s).
Proof.
  intros H. unfold Network.node_update.
  rewrite (bind_Ok _ _ _ _ _ (node_obj_Ok s k nd H)). reflexivity.
Qed.

(** An update of the potential and predecessor stays inside the frame. *)
Lemma node_update_frame (s : Network.t) (k : nat) (nd nd' : Node.t) :
  nth_error (Network.nodes s) k = Some (Some nd) ->
  static nd' = static nd ->
  same_frame s (Network.set_nodes (list_set k (Some nd')) s).
Proof.
  intros H Hst. unfold same_frame. cbn. repeat split.
  unfold shape. rewrite map_list_set. apply list_set_same.
  rewrite nth_error_map, H. cbn. now rewrite Hst.
Qed.

Lemma node_update_labels (s : Network.t) (k : nat) (nd' : Node.t) :
  labels (Network.set_nodes (list_set k (Some nd')) s)
  = list_set k (Node.potential nd', Node.pre nd') (labels s).
Proof. unfold labels. cbn. now rewrite map_list_set. Qed.

Lemma table_Ok (s : Network.t) (ns : list (option Node.t)) :
  (forall e, In e ns -> e <> None) ->
  Network.table ns s = Ok (map label_of ns) s.
Proof.
  induction ns as [|e ns IH]; intros H; cbn.
  - reflexivity.
  - destruct e as [nd|]; [|exfalso; apply (H None); [left|]; reflexivity].
    rewrite (bind_Ok _ _ _ _ _ (IH (fun e He => H e (or_intror He)))).
    reflexivity.
Qed.

Lemma Wf_all_nodes (s : Network.t) :
  Wf s -> forall e, In e (Network.nodes s) -> e <> None.
Proof.
  intros W e He. apply In_nth_error in He as (k & Hk).
  destruct (wf_node s W k e Hk) as (nd & -> & _). discriminate.
Qed.

(** The loop that resets every node. *)
Lemma reset_loop (l2 l1 : list (option Node.t)) (s : Network.t) :
  Network.nodes s = (l1 ++ l2)%list ->
  (forall e, In e l2 -> e <> None) ->
  for_each (seq (List.length l1) (List.length l2))
    (fun k => Network.node_update k Node.ResetPotential) s
  = Ok tt (Network.set_nodes
             (fun _ => l1 ++ map (option_map Node.ResetPotential) l2)%list s).
Proof.
  revert l1 s. induction l2 as [|e l2 IH]; intros l1 s Hn Hall.
  - cbn. unfold ret. f_equal. destruct s; cbn in *. subst. reflexivity.
  - destruct e as [nd|]; [|exfalso; apply (Hall None); [left|]; reflexivity].
    cbn [List.length seq for_each].
    assert (Hk : nth_error (Network.nodes s) (List.length l1) = Some (Some nd)).
    { rewrite Hn. rewrite nth_error_app2 by lia. now rewrite Nat.sub_diag. }
    rewrite (bind_Ok _ _ _ _ _ (node_update_Ok s _ nd _ Hk)).
    assert (Hn' : Network.nodes
                    (Network.set_nodes
                       (list_set (List.length l1) (Some (Node.ResetPotential nd))) s)
                  = ((l1 ++ [Some (Node.ResetPotential nd)]) ++ l2)%list).
    { cbn. rewrite Hn. clear. induction l1 as [|x l1 IH]; cbn; [reflexivity|].
      now rewrite IH. }
    specialize (IH (l1 ++ [Some (Node.ResetPotential nd)])%list _ Hn'
                  (fun e He => Hall e (or_intror He))).
    rewrite length_app in IH. cbn in IH.
    replace (List.length l1 + 1)%nat with (S (List.length l1)) in IH by lia.
    rewrite IH. f_equal. cbn. rewrite <- app_assoc. reflexivity.
Qed.

(* ------------------------------------------------------------------ *)
(** ** The steps of ShortestPath on a consistent network                *)
(* ------------------------------------------------------------------ *)

Lemma fstar_frame (s s' : Network.t) (u : nat) :
  same_frame s s' -> fstar s' u = fstar s u.
Proof.
  intros Hf. unfold same_frame in Hf.
  destruct Hf as (_ & _ & Fsh & _). unfold fstar.
  destruct (nth_error (Network.nodes s) u) as [e|] eqn:E.
  - destruct (shape_nth _ _ u e Fsh E) as (e' & -> & He).
    destruct e as [nd|], e' as [nd'|]; try discriminate; [|reflexivity].
    cbn in He. assert (Hs : static nd' = static nd) by congruence.
    apply static_fields in Hs. tauto.
  - pose proof (shape_length _ _ Fsh) as Hl. apply nth_error_None in E.
    rewrite <- Hl in E. apply nth_error_None in E. now rewrite E.
Qed.

Lemma read_potentials_Ok (s : Network.t) (L : list Z) :
  Wf s ->
  (forall i, In i L ->
     - Z.of_nat (List.length (Network.nodes s)) <= i
       < Z.of_nat (List.length (Network.nodes s))) ->
  Network.read_potentials L s = Ok (map (pot_at (labels s)) L) s.
Proof.
  intros W. induction L as [|i L IH]; intros HL; cbn.
  - reflexivity.
  - destruct (py_norm_valid _ i (HL i (or_introl eq_refl))) as (k & Hk).
    rewrite (bind_Ok _ _ _ _ _ (node_pos_Ok s i k Hk)).
    destruct (Wf_nodes s k W (py_norm_lt _ _ _ Hk)) as (nd & Hnd & _).
    rewrite (bind_Ok _ _ _ _ _ (node_obj_Ok s k nd Hnd)).
    rewrite (bind_Ok _ _ _ _ _ (IH (fun j Hj => HL j (or_intror Hj)))).
    unfold ret. f_equal. f_equal.
    unfold pot_at. rewrite length_labels, Hk.
    now rewrite (lab_labels s k nd Hnd).
Qed.

(** One link of the forward star of the node at position [u]. *)
Lemma relax_Ok (s : Network.t) (u r : nat) :
  Wf s -> In r (fstar s u) ->
  exists l c v s',
    nth_error (Network.heap s) r = Some l /\ Link.cost l = Some c /\
    Link.tail l = Z.of_nat u + 1 /\ Link.head l = Z.of_nat v + 1 /\
    (v < List.length (Network.nodes s))%nat /\
    Network.relax u r s = Ok tt s' /\ same_frame s s' /\
    labels s' = relabel (labels s) u v c.
Proof.
  intros W Hr. unfold fstar in Hr.
  destruct (nth_error (Network.nodes s) u) as [[nu|]|] eqn:Eu;
    try contradiction.
  destruct (wf_node s W u _ Eu) as (nd & Hnd & Hid & Hfs).
  inversion Hnd; subst nd; clear Hnd.
  destruct (Hfs r Hr) as (l & c & Hl & Htail & Hhead & Hcost & _).
  set (v := Z.to_nat (Link.head l - 1)).
  assert (Hv : (v < List.length (Network.nodes s))%nat) by (unfold v; lia).
  destruct (Wf_nodes s v W Hv) as (nv & Env & _).
  assert (Hpos : Network.node_pos (Link.head l - 1) s = Ok v s).
  { apply node_pos_Ok. apply py_norm_nonneg. lia. }
  assert (Hstep : forall s'',
            (if pot_gt (Node.potential nv) (pot_add (Node.potential nu) c)
             then Network.node_update v (fun n0 =>
                    Node.set_pre (Some (Node.ID nu))
                      (Node.set_potential (pot_add (Node.potential nu) c) n0)) s
             else ret tt s) = s'' ->
            Network.relax u r s = s'').
  { intros s'' <-. unfold Network.relax.
    unfold bind at 1. unfold Network.link_obj. rewrite Hl.
    rewrite (bind_Ok _ _ _ _ _ Hpos).
    rewrite (bind_Ok _ _ _ _ _ (node_obj_Ok s v nv Env)).
    rewrite (bind_Ok _ _ _ _ _ (node_obj_Ok s u nu Eu)).
    rewrite Hcost.
    destruct (pot_gt (Node.potential nv) (pot_add (Node.potential nu) c));
      reflexivity. }
  exists l, c, v.
  unfold relabel.
  rewrite (lab_labels s v nv Env), (lab_labels s u nu Eu). cbn [fst].
  destruct (pot_gt (Node.potential nv) (pot_add (Node.potential nu) c)) eqn:E.
  - exists (Network.set_nodes
              (list_set v
                 (Some (Node.set_pre (Some (Node.ID nu))
                          (Node.set_potential
                             (pot_add (Node.potential nu) c) nv)))) s).
    split; [exact Hl|]. split; [exact Hcost|]. split; [lia|].
    split; [unfold v; lia|]. split; [exact Hv|]. split; [|split].
    + apply Hstep. apply (node_update_Ok s v nv), Env.
    + apply (node_update_frame s v nv); [exact Env | reflexivity].
    + rewrite node_update_labels. cbn. now rewrite Hid.
  - exists s.
    split; [exact Hl|]. split; [exact Hcost|]. split; [lia|].
    split; [unfold v; lia|]. split; [exact Hv|]. split; [|split].
    + apply Hstep. reflexivity.
    + apply same_frame_refl.
    + reflexivity.
Qed.

Lemma labels_reset (ns : list (option Node.t)) :
  (forall e, In e ns -> e <> None) ->
  map label_of (map (option_map Node.ResetPotential) ns)
  = repeat (PInf, None) (List.length ns).
Proof.
  induction ns as [|e ns IH]; intros H; cbn; [reflexivity|].
  rewrite IH by (intros e' He'; apply H; right; exact He').
  destruct e as [nd|]; [reflexivity|].
  exfalso. apply (H None); [left|]; reflexivity.
Qed.

Lemma shape_reset (ns : list (option Node.t)) :
  shape (map (option_map Node.ResetPotential) ns) = shape ns.
Proof.
  unfold shape. rewrite map_map. apply map_ext. intros [nd|]; reflexivity.
Qed.

(** The statements of ShortestPath before its main loop. *)
Lemma ShortestPath_start (s : Network.t) (origin : Z) :
  Wf s -> 1 <= origin <= Z.of_nat (List.length (Network.nodes s)) ->
  exists s1,
    same_frame s s1 /\
    labels s1 = list_set (Z.to_nat (origin - 1)) (PFin 0, None)
                  (repeat (PInf, None) (List.length (Network.nodes s))) /\
    Network.ShortestPath origin s
    = bind (Network.scan
              (List.length (py_range (Network.firstThroughNode s - 1)
                              (Z.of_nat (List.length (Network.nodes s)))))
              (py_range (Network.firstThroughNode s - 1)
                 (Z.of_nat (List.length (Network.nodes s)))))
        (fun _ => bind (gets Network.nodes) Network.table) s1.
Proof.
  intros W Ho.
  pose proof (Wf_all_nodes s W) as Hall.
  set (s' := Network.set_nodes
               (fun _ => map (option_map Node.ResetPotential) (Network.nodes s)) s).
  assert (Hreset :
    for_each (seq 0 (List.length (Network.nodes s)))
      (fun k => Network.node_update k Node.ResetPotential) s = Ok tt s').
  { apply (reset_loop (Network.nodes s) [] s); [reflexivity | exact Hall]. }
  assert (Fs' : same_frame s s').
  { unfold same_frame, s'. cbn. repeat split. apply shape_reset. }
  pose proof (Wf_frame _ _ Fs' W) as W'.
  set (k := Z.to_nat (origin - 1)).
  assert (Hlen : List.length (Network.nodes s') = List.length (Network.nodes s)).
  { unfold s'. cbn. apply length_map. }
  assert (Hk : (k < List.length (Network.nodes s'))%nat) by (unfold k; lia).
  destruct (Wf_nodes s' k W' Hk) as (nd & Hnd & _).
  assert (Hlab : label_of (Some nd) = (PInf, None)).
  { pose proof (labels_reset (Network.nodes s) Hall) as Hl.
    apply (f_equal (fun l => nth_error l k)) in Hl.
    rewrite nth_error_map in Hl. unfold s' in Hnd. cbn in Hnd.
    rewrite Hnd in Hl. rewrite nth_error_repeat in Hl by lia.
    cbn in Hl |- *. congruence. }
  set (s1 := Network.set_nodes
               (list_set k (Some (Node.set_potential (PFin 0) nd))) s').
  exists s1. split; [|split].
  - apply (same_frame_trans _ s' _ Fs').
    apply (node_update_frame s' k nd); [exact Hnd | reflexivity].
  - unfold s1. rewrite node_update_labels. cbn.
    assert (Hq : Node.pre nd = None) by (cbn in Hlab; congruence). rewrite Hq.
    f_equal. unfold labels, s'. cbn. apply labels_reset, Hall.
  - unfold Network.ShortestPath.
    unfold bind at 1. unfold gets at 1.
    rewrite (bind_Ok _ _ _ _ _ Hreset).
    assert (Hpos : Network.node_pos (origin - 1) s' = Ok k s').
    { apply node_pos_Ok. rewrite Hlen. apply py_norm_nonneg. lia. }
    rewrite (bind_Ok _ _ _ _ _ Hpos).
    rewrite (bind_Ok _ _ _ _ _ (node_update_Ok s' k nd _ Hnd)).
    fold s1. unfold bind at 1. unfold gets at 1.
    unfold bind at 1.
    assert (Hnn : Network.numNodes s1
                  = Some (Z.of_nat (List.length (Network.nodes s)))).
    { unfold s1, s'. cbn. apply (wf_numNodes s W). }
    rewrite Hnn. reflexivity.
Qed.

(* ------------------------------------------------------------------ *)
(** ** Invariants of the main loop of ShortestPath                      *)
(* ------------------------------------------------------------------ *)

(** A property [I] of the scan list, the nodes popped so far (the last
    one first) and the labels, and its form [J] while the forward star of
    the popped node is walked, are carried through the search as soon as
    the choice of a node, the relaxation of one link and the end of a
    forward star respect them. *)
Section ScanInvariant.

Variable s0 : Network.t.
Hypothesis W0 : Wf s0.

Variable I : list Z -> list nat -> list (pot * option Z) -> Prop.
Variable J : list nat -> list Z -> nat -> list nat -> list (pot * option Z) -> Prop.

Hypothesis H_select : forall L P lb u,
  List.length lb = List.length (Network.nodes s0) ->
  I L P lb ->
  (chosen lb L < List.length L)%nat ->
  py_norm (List.length lb) (nth (chosen lb L) L 0) = Some u ->
  J (fstar s0 u) (pop (chosen lb L) L) u P lb.

Hypothesis H_step : forall r rs L u P lb l c v,
  List.length lb = List.length (Network.nodes s0) ->
  J (r :: rs) L u P lb ->
  In r (fstar s0 u) ->
  nth_error (Network.heap s0) r = Some l ->
  Link.cost l = Some c ->
  Link.tail l = Z.of_nat u + 1 ->
  Link.head l = Z.of_nat v + 1 ->
  (v < List.length lb)%nat ->
  J rs L u P (relabel lb u v c).

Hypothesis H_done : forall L u P lb,
  List.length lb = List.length (Network.nodes s0) ->
  J [] L u P lb -> I L (u :: P) lb.

Lemma frame_length (s : Network.t) :
  same_frame s0 s ->
  List.length (labels s) = List.length (Network.nodes s0).
Proof.
  intros Hf. rewrite length_labels. apply shape_length.
  unfold same_frame in Hf. tauto.
Qed.

Lemma relax_loop (rs : list nat) (L : list Z) (u : nat) (P : list nat) :
  forall s, same_frame s0 s ->
  (forall r, In r rs -> In r (fstar s0 u)) ->
  J rs L u P (labels s) ->
  exists s', for_each rs (Network.relax u) s = Ok tt s'
             /\ same_frame s0 s' /\ J [] L u P (labels s').
Proof.
  induction rs as [|r rs IH]; intros s Hf Hrs HJ.
  - exists s. cbn. auto.
  - pose proof (Wf_frame _ _ Hf W0) as W.
    assert (Hr : In r (fstar s u)).
    { rewrite (fstar_frame _ _ u Hf). apply Hrs. left. reflexivity. }
    destruct (relax_Ok s u r W Hr)
      as (l & c & v & s' & Hl & Hc & Ht & Hh & Hv & Hrun & Hf' & Hlab).
    assert (HJ' : J rs L u P (labels s')).
    { rewrite Hlab.
      apply (H_step r rs L u P (labels s) l c v); auto.
      - apply frame_length, Hf.
      - apply Hrs. left. reflexivity.
      - unfold same_frame in Hf. decompose [and] Hf. congruence.
      - now rewrite length_labels. }
    destruct (IH s' (same_frame_trans _ _ _ Hf Hf')
                (fun r' Hr' => Hrs r' (or_intror Hr')) HJ')
      as (s'' & Hrun' & Hf'' & HJ'').
    exists s''. split; [|auto]. cbn.
    rewrite (bind_Ok _ _ _ _ _ Hrun). exact Hrun'.
Qed.

Lemma scan_invariant (fuel : nat) :
  forall L P s, same_frame s0 s ->
  (forall i, In i L ->
     - Z.of_nat (List.length (Network.nodes s0)) <= i
       < Z.of_nat (List.length (Network.nodes s0))) ->
  (List.length L <= fuel)%nat ->
  I L P (labels s) ->
  exists s' P', Network.scan fuel L s = Ok tt s'
                /\ same_frame s0 s' /\ I [] P' (labels s').
Proof.
  induction fuel as [|fuel IH]; intros L P s Hf HL Hfuel HI.
  - destruct L as [|i0 L]; [|cbn in Hfuel; lia].
    exists s, P. cbn. auto.
  - destruct L as [|i0 L]; [exists s, P; cbn; auto|].
    pose proof (Wf_frame _ _ Hf W0) as W.
    pose proof (frame_length s Hf) as Hlen.
    assert (Hn : List.length (Network.nodes s) = List.length (Network.nodes s0)).
    { rewrite <- length_labels. exact Hlen. }
    assert (HL' : forall i, In i (i0 :: L) ->
              - Z.of_nat (List.length (Network.nodes s)) <= i
                < Z.of_nat (List.length (Network.nodes s))).
    { intros i Hi. rewrite Hn. apply HL, Hi. }
    pose proof (read_potentials_Ok s (i0 :: L) W HL') as Hread.
    set (pos := chosen (labels s) (i0 :: L)).
    assert (Hpos : (pos < List.length (i0 :: L))%nat).
    { unfold pos, chosen.
      destruct (selected_minimal (map (pot_at (labels s)) (i0 :: L)) PInf
                  (pot_at (labels s) i0)) as [_ H].
      - discriminate.
      - left. reflexivity.
      - now rewrite length_map in H. }
    assert (Hin : In (nth pos (i0 :: L) i0) (i0 :: L)) by (apply nth_In, Hpos).
    destruct (py_norm_valid _ _ (HL' _ Hin)) as (u & Hu).
    pose proof (py_norm_lt _ _ _ Hu) as Hult.
    destruct (Wf_nodes s u W Hult) as (nu & Enu & _).
    assert (Hfs : Node.forwardStar nu = fstar s0 u).
    { rewrite <- (fstar_frame _ _ u Hf). unfold fstar. now rewrite Enu. }
    assert (HJ : J (fstar s0 u) (pop pos (i0 :: L)) u P (labels s)).
    { apply H_select; [exact Hlen | exact HI | exact Hpos |].
      fold pos. rewrite (nth_indep _ 0 i0 Hpos). rewrite Hlen, <- Hn. exact Hu. }
    destruct (relax_loop (fstar s0 u) (pop pos (i0 :: L)) u P s Hf
                (fun r Hr => Hr) HJ) as (s1 & Hrun1 & Hf1 & HJ1).
    apply H_done in HJ1; [|apply frame_length, Hf1].
    destruct (IH (pop pos (i0 :: L)) (u :: P) s1 Hf1) as (s2 & P2 & Hrun2 & Hf2 & HI2).
    + intros i Hi. apply HL. apply (In_pop pos), Hi.
    + pose proof (length_pop pos (i0 :: L) Hpos). cbn in *. lia.
    + exact HJ1.
    + exists s2, P2. split; [|auto].
      cbn [Network.scan].
      rewrite (bind_Ok _ _ _ _ _ Hread).
      fold (chosen (labels s) (i0 :: L)). fold pos.
      rewrite (bind_Ok _ _ _ _ _ (node_pos_Ok s _ u Hu)).
      rewrite (bind_Ok _ _ _ _ _ (node_obj_Ok s u nu Enu)).
      rewrite Hfs. rewrite (bind_Ok _ _ _ _ _ Hrun1). exact Hrun2.
Qed.

(** ShortestPath returns the labels it leaves in the nodes, and these
    satisfy the invariant at the empty scan list. *)
Lemma ShortestPath_invariant (origin : Z) :
  1 <= origin <= Z.of_nat (List.length (Network.nodes s0)) ->
  I (py_range (Network.firstThroughNode s0 - 1)
       (Z.of_nat (List.length (Network.nodes s0)))) []
    (list_set (Z.to_nat (origin - 1)) (PFin 0, None)
       (repeat (PInf, None) (List.length (Network.nodes s0)))) ->
  exists s' P', Network.ShortestPath origin s0 = Ok (labels s') s'
                /\ same_frame s0 s' /\ I [] P' (labels s').
Proof.
  intros Ho HI.
  destruct (ShortestPath_start s0 origin W0 Ho) as (s1 & Hf1 & Hlab1 & Hrun).
  rewrite <- Hlab1 in HI.
  assert (Hrange : forall i,
            In i (py_range (Network.firstThroughNode s0 - 1)
                    (Z.of_nat (List.length (Network.nodes s0)))) ->
            - Z.of_nat (List.length (Network.nodes s0)) <= i
              < Z.of_nat (List.length (Network.nodes s0))).
  { intros i Hi. apply In_py_range in Hi. pose proof (wf_first s0 W0). lia. }
  destruct (scan_invariant _ _ [] s1 Hf1 Hrange (Nat.le_refl _) HI)
    as (s' & P' & Hscan & Hf' & HI').
  - exists s', P'. split; [|auto].
    rewrite Hrun. rewrite (bind_Ok _ _ _ _ _ Hscan).
    unfold bind, gets. unfold labels. apply table_Ok.
    apply Wf_all_nodes. apply (Wf_frame _ _ Hf' W0).
Qed.

End ScanInvariant.

(* ------------------------------------------------------------------ *)
(** ** Nodes out of reach                                               *)
(* ------------------------------------------------------------------ *)

Lemma Relayed_Reach (s : Network.t) (o v : nat) : Relayed s o v -> Reach s o v.
Proof.
  induction 1 as [|u v r l _ IH Hu Hr Hl Hh].
  - apply Reach_origin.
  - apply (Reach_link s o u v r l); auto.
Qed.

Lemma lab_repeat (n k : nat) : lab (repeat (PInf, None) n) k = (PInf, None).
Proof. unfold lab. apply nth_repeat. Qed.

Lemma lab_list_set (lb : list (pot * option Z)) (v k : nat) (x : pot * option Z) :
  (v < List.length lb)%nat ->
  lab (list_set v x lb) k = if Nat.eqb k v then x else lab lb k.
Proof.
  intros Hv. unfold lab. destruct (Nat.eqb_spec k v) as [->|Hne].
  - apply nth_list_set_eq, Hv.
  - apply nth_list_set_neq, Hne.
Qed.

Lemma lab_beyond (lb : list (pot * option Z)) (k : nat) :
  (List.length lb <= k)%nat -> lab lb k = (PInf, None).
Proof. intros H. unfold lab. apply nth_overflow, H. Qed.

Lemma lab_finite_lt (lb : list (pot * option Z)) (k : nat) :
  fst (lab lb k) <> PInf -> (k < List.length lb)%nat.
Proof.
  intros H. destruct (Nat.lt_ge_cases k (List.length lb)) as [Hlt | Hge];
    [exact Hlt|].
  rewrite (lab_beyond lb k Hge) in H. now contradiction H.
Qed.

(** A relaxation that takes place starts from a finite potential. *)
Lemma relabel_cases (lb : list (pot * option Z)) (u v : nat) (c : Q) :
  (v < List.length lb)%nat ->
  relabel lb u v c = lb
  \/ exists pu, fst (lab lb u) = PFin pu
       /\ pot_gt (fst (lab lb v)) (PFin (pu + c)) = true
       /\ relabel lb u v c = list_set v (PFin (pu + c), Some (Z.of_nat u + 1)) lb.
Proof.
  intros Hv. unfold relabel.
  destruct (pot_gt (fst (lab lb v)) (pot_add (fst (lab lb u)) c)) eqn:E;
    [|left; reflexivity].
  destruct (fst (lab lb u)) as [|pu]; cbn in *.
  - rewrite pot_gt_inf in E. discriminate.
  - right. exists pu. auto.
Qed.

Section Unreachable.

Variable s0 : Network.t.
Hypothesis W0 : Wf s0.
Variable o : nat.

Lemma Bounded_select (L : list Z) (P : list nat) (lb : list (pot * option Z))
    (u : nat) :
  List.length lb = List.length (Network.nodes s0) ->
  Bounded s0 o L P lb ->
  (chosen lb L < List.length L)%nat ->
  py_norm (List.length lb) (nth (chosen lb L) L 0) = Some u ->
  Bounded s0 o (pop (chosen lb L) L) (u :: P) lb.
Proof.
  intros _ [Hscan Hpop Hinf Hfin] Hpos Hu. constructor; auto.
  - intros i Hi. apply Hscan. apply (In_pop _ _ _ Hi).
  - intros p [<- | Hp]; [|apply Hpop, Hp].
    pose proof (Hscan _ (nth_In L 0 Hpos)). apply py_norm_ge in Hu. lia.
Qed.

Lemma Bounded_step (r : nat) (L : list Z) (u : nat) (P : list nat)
    (lb : list (pot * option Z)) (l : Link.t) (c : Q) (v : nat) :
  Bounded s0 o L (u :: P) lb ->
  In r (fstar s0 u) ->
  nth_error (Network.heap s0) r = Some l ->
  Link.head l = Z.of_nat v + 1 ->
  (v < List.length lb)%nat ->
  Bounded s0 o L (u :: P) (relabel lb u v c).
Proof.
  intros B Hr Hl Hh Hv.
  destruct (relabel_cases lb u v c Hv) as [-> | (pu & Hpu & Hgt & ->)];
    [exact B|].
  destruct B as [Hscan Hpop Hinf Hfin]. constructor; auto.
  - intros k. rewrite (lab_list_set lb v k _ Hv).
    destruct (Nat.eqb k v); cbn; [discriminate | apply Hinf].
  - intros k. rewrite (lab_list_set lb v k _ Hv).
    destruct (Nat.eqb_spec k v) as [->|Hne]; [intros _ | apply Hfin].
    apply (Relayed_link s0 o u v r l); auto.
    + apply Hfin. rewrite Hpu. discriminate.
    + apply Hpop. left. reflexivity.
Qed.

Lemma Bounded_start (origin : Z) :
  o = Z.to_nat (origin - 1) ->
  1 <= origin <= Z.of_nat (List.length (Network.nodes s0)) ->
  Bounded s0 o
    (py_range (Network.firstThroughNode s0 - 1)
       (Z.of_nat (List.length (Network.nodes s0)))) []
    (list_set o (PFin 0, None)
       (repeat (PInf, None) (List.length (Network.nodes s0)))).
Proof.
  intros Ho Hrange.
  assert (Hlt : (o < List.length
                    (repeat (PInf, @None Z) (List.length (Network.nodes s0))))%nat).
  { rewrite repeat_length. lia. }
  constructor.
  - intros i Hi. apply In_py_range in Hi. lia.
  - intros p [].
  - intros k. rewrite (lab_list_set _ o k _ Hlt), lab_repeat.
    destruct (Nat.eqb k o); cbn; [discriminate | reflexivity].
  - intros k. rewrite (lab_list_set _ o k _ Hlt), lab_repeat.
    destruct (Nat.eqb_spec k o) as [->|Hne]; cbn; [intros _ | congruence].
    apply Relayed_origin.
Qed.

(** Whatever the link costs, ShortestPath returns, and a node that the
    scan list cannot relay to keeps the labels of the reset. *)
Lemma ShortestPath_Bounded (origin : Z) :
  o = Z.to_nat (origin - 1) ->
  1 <= origin <= Z.of_nat (List.length (Network.nodes s0)) ->
  exists s' P', Network.ShortestPath origin s0 = Ok (labels s') s'
                /\ same_frame s0 s' /\ Bounded s0 o [] P' (labels s').
Proof.
  intros Ho Hrange.
  apply (ShortestPath_invariant s0 W0 (Bounded s0 o)
           (fun _ L u P lb => Bounded s0 o L (u :: P) lb)).
  - apply Bounded_select.
  - intros r rs L u P lb l c v _ B Hr Hl _ _ Hh Hv.
    apply (Bounded_step r L u P lb l c v); assumption.
  - auto.
  - exact Hrange.
  - rewrite <- Ho. apply (Bounded_start origin); assumption.
Qed.

End Unreachable.

(** C9: on a consistent network and for an origin among its nodes,
    ShortestPath returns, and every node that cannot be reached from the
    origin under the through-node restriction still has the potential
    +infinity and no predecessor, in its own attributes and in the table
    returned. *)
Theorem ShortestPath_unreachable (s : Network.t) (origin : Z) (v : nat) :
  consistent s = true ->
  1 <= origin <= Z.of_nat (List.length (Network.nodes s)) ->
  (v < List.length (Network.nodes s))%nat ->
  ~ Reach s (Z.to_nat (origin - 1)) v ->
  exists tbl s' nd,
    Network.ShortestPath origin s = Ok tbl s'
    /\ nth_error tbl v = Some (PInf, None)
    /\ nth_error (Network.nodes s') v = Some (Some nd)
    /\ Node.ID nd = Z.of_nat v + 1
    /\ Node.potential nd = PInf /\ Node.pre nd = None.
Proof.
  intros Hc Ho Hv Hun. apply consistent_Wf in Hc.
  destruct (ShortestPath_Bounded s Hc _ origin eq_refl Ho)
    as (s' & P' & Hrun & Hf & [_ _ Hinf Hfin]).
  pose proof (Wf_frame _ _ Hf Hc) as W'.
  assert (Hlen : List.length (Network.nodes s') = List.length (Network.nodes s)).
  { apply shape_length. unfold same_frame in Hf. tauto. }
  destruct (Wf_nodes s' v W') as (nd & Hnd & Hid); [lia|].
  pose proof (lab_labels s' v nd Hnd) as Hlab.
  assert (Hp : Node.potential nd = PInf).
  { destruct (Node.potential nd) as [|q] eqn:E; [reflexivity|].
    exfalso. apply Hun. apply Relayed_Reach. apply Hfin.
    rewrite Hlab. cbn. discriminate. }
  assert (Hq : Node.pre nd = None).
  { specialize (Hinf v). rewrite Hlab in Hinf. cbn in Hinf. auto. }
  exists (labels s'), s', nd.
  split; [exact Hrun|]. split; [|auto].
  unfold labels. rewrite nth_error_map, Hnd. unfold label_of, option_map.
  now rewrite Hp, Hq.
Qed.

Lemma backward_link_unreachable : ~ Reach backward_link 0 1.
Proof.
  intros H. inversion H as [|u v r l Hu Hor Hr Hl Hh]; subst.
  destruct u as [|[|u]].
  - vm_compute in Hr. exact Hr.
  - vm_compute in Hr. destruct Hr as [<- | []].
    vm_compute in Hl. inversion Hl; subst. discriminate Hh.
  - unfold fstar in Hr. cbn in Hr. destruct u; exact Hr.
Qed.

Lemma ShortestPath_unreachable_witness :
  exists tbl s' nd,
    Network.ShortestPath 1 backward_link = Ok tbl s'
    /\ nth_error tbl 1 = Some (PInf, None)
    /\ nth_error (Network.nodes s') 1 = Some (Some nd)
    /\ Node.ID nd = Z.of_nat 1 + 1
    /\ Node.potential nd = PInf /\ Node.pre nd = None.
Proof.
  apply (ShortestPath_unreachable backward_link 1 1).
  - vm_compute. reflexivity.
  - vm_compute. split; discriminate.
  - vm_compute. apply le_n.
  - exact backward_link_unreachable.
Defined.

(* ------------------------------------------------------------------ *)
(** ** The search under non-negative costs                              *)
(* ------------------------------------------------------------------ *)

Lemma chosen_minimal (lb : list (pot * option Z)) (L : list Z) (u q : nat) (i : Z) :
  (chosen lb L < List.length L)%nat ->
  py_norm (List.length lb) (nth (chosen lb L) L 0) = Some u ->
  In i L -> py_norm (List.length lb) i = Some q ->
  pot_le (fst (lab lb u)) (fst (lab lb q)).
Proof.
  intros Hpos Hu Hi Hq.
  assert (Hne : map (pot_at lb) L <> []).
  { destruct L; [cbn in Hpos; lia | discriminate]. }
  pose proof (selected_minimal (map (pot_at lb) L) PInf (pot_at lb i) Hne
                (in_map _ _ _ Hi)) as [H _].
  fold (chosen lb L) in H.
  rewrite (nth_indep _ PInf (pot_at lb 0)) in H by (now rewrite length_map).
  rewrite map_nth in H. unfold pot_at in H. now rewrite Hu, Hq in H.
Qed.

Lemma leads_S (lb : list (pot * option Z)) (o k p : nat) :
  leads lb o k p -> leads lb o (S k) p.
Proof.
  revert p. induction k as [|k IH]; intros p [H | H]; try (left; exact H).
  - contradiction.
  - destruct H as (u & Hu & Hl). right. exists u. split; [exact Hu|].
    apply IH, Hl.
Qed.

Lemma nonneg_costs_link (s : Network.t) (r : nat) (l : Link.t) (c : Q) :
  nonneg_costs s = true -> nth_error (Network.heap s) r = Some l ->
  Link.cost l = Some c -> (0 <= c)%Q.
Proof.
  unfold nonneg_costs. intros H Hl Hc. rewrite forallb_forall in H.
  specialize (H l (nth_error_In _ _ Hl)). rewrite Hc in H.
  apply Qle_bool_iff, H.
Qed.

Section NonNegative.

Variable s0 : Network.t.
Hypothesis W0 : Wf s0.
Hypothesis N0 : nonneg_costs s0 = true.
Variable o : nat.

Lemma Settled_select (L : list Z) (P : list nat) (lb : list (pot * option Z))
    (u : nat) :
  Settled s0 o L P lb ->
  (chosen lb L < List.length L)%nat ->
  py_norm (List.length lb) (nth (chosen lb L) L 0) = Some u ->
  Settled s0 o (pop (chosen lb L) L) (u :: P) lb.
Proof.
  intros [Hcount Hinf Hnn Horig Hpre Hord Hlast Hlink Hleads] Hpos Hu.
  pose proof (nth_In L 0 Hpos) as Hin.
  constructor; auto.
  - pose proof (length_pop _ L Hpos). cbn. lia.
  - intros p i q [<- | Hp] Hi Hq.
    + apply (chosen_minimal lb L u q i Hpos Hu (In_pop _ _ _ Hi) Hq).
    + apply (Hord p i q Hp (In_pop _ _ _ Hi) Hq).
  - intros u' P' HP p Hp. inversion HP; subst u' P'.
    destruct Hp as [<- | Hp]; [apply pot_le_refl|].
    apply (Hord p _ u Hp Hin Hu).
  - intros k w Hk. destruct (Hlink k w Hk) as (u' & Hw & Hu' & Hfin & Hkey).
    exists u'. repeat split; auto. right. exact Hu'.
  - intros p Hp Hfin. cbn [List.length].
    destruct Hp as [<- | Hp]; [|apply leads_S, Hleads; assumption].
    destruct (Nat.eq_dec u o) as [-> | Hne]; [left; reflexivity|].
    destruct (snd (lab lb u)) as [w|] eqn:Ew;
      [|exfalso; apply (Hpre u Hne Hfin Ew)].
    destruct (Hlink u w Ew) as (u' & -> & Hu' & Hfin' & _).
    right. exists u'. split; [exact Ew|]. apply Hleads; assumption.
Qed.

(** The labels of the popped nodes that lead to the origin are not
    touched by a change elsewhere. *)
Lemma leads_stable (lb lb' : list (pot * option Z)) (P : list nat) (k : nat) :
  (forall p, In p P -> lab lb' p = lab lb p) ->
  (forall p w, snd (lab lb p) = Some w -> exists u, w = Z.of_nat u + 1 /\ In u P) ->
  forall p, In p P -> leads lb o k p -> leads lb' o k p.
Proof.
  intros Hsame Hlink. induction k as [|k IH]; intros p Hp [H | H];
    try (left; exact H); [contradiction|].
  destruct H as (u & Hu & Hl). right. exists u.
  rewrite (Hsame p Hp). split; [exact Hu|].
  apply IH; [|exact Hl].
  destruct (Hlink p _ Hu) as (u' & Hw & Hu'). 
  assert (u' = u) by lia. now subst.
Qed.

Lemma Settled_step (r : nat) (L : list Z) (u : nat) (P : list nat)
    (lb : list (pot * option Z)) (l : Link.t) (c : Q) (v : nat) :
  Settled s0 o L (u :: P) lb ->
  In r (fstar s0 u) ->
  nth_error (Network.heap s0) r = Some l ->
  Link.cost l = Some c ->
  Link.tail l = Z.of_nat u + 1 ->
  Link.head l = Z.of_nat v + 1 ->
  (v < List.length lb)%nat ->
  Settled s0 o L (u :: P) (relabel lb u v c).
Proof.
  intros St Hr Hl Hc Ht Hh Hv.
  destruct (relabel_cases lb u v c Hv) as [-> | (pu & Hpu & Hgt & ->)];
    [exact St|].
  pose proof (nonneg_costs_link s0 r l c N0 Hl Hc) as Hc0.
  destruct St as [Hcount Hinf Hnn Horig Hpre Hord Hlast Hlink Hleads].
  pose proof (Hnn u pu Hpu) as Hpu0.
  assert (Hkey : is_some (dict_get (Network.links s0)
                            (Z.of_nat u + 1, Z.of_nat v + 1)) = true).
  { unfold fstar in Hr.
    destruct (nth_error (Network.nodes s0) u) as [[nu|]|] eqn:Eu;
      try contradiction.
    destruct (wf_node s0 W0 u _ Eu) as (nd & Hnd & _ & Hfs).
    inversion Hnd; subst nd.
    destruct (Hfs r Hr) as (l' & c' & Hl' & _ & _ & _ & Hk).
    assert (l' = l) by congruence. subst l'. now rewrite Ht, Hh in Hk. }
  assert (HvP : ~ In v (u :: P)).
  { intros Hin. pose proof (Hlast u P eq_refl v Hin) as Hle.
    rewrite Hpu in Hle. apply pot_gt_fin in Hgt as [Hv' | (pv & Hv' & Hlt)];
      rewrite Hv' in Hle.
    - discriminate Hle.
    - apply pot_le_fin in Hle. lra. }
  assert (Hvo : v <> o).
  { intros ->. rewrite Horig in Hgt. cbn in Hgt. apply Qltb_true in Hgt. lra. }
  assert (Hsame : forall p, In p (u :: P) ->
            lab (list_set v (PFin (pu + c), Some (Z.of_nat u + 1)) lb) p = lab lb p).
  { intros p Hp. rewrite (lab_list_set lb v p _ Hv).
    destruct (Nat.eqb_spec p v) as [->|]; [contradiction | reflexivity]. }
  constructor.
  - now rewrite length_list_set.
  - intros k. rewrite (lab_list_set lb v k _ Hv).
    destruct (Nat.eqb k v); cbn; [discriminate | apply Hinf].
  - intros k q. rewrite (lab_list_set lb v k _ Hv).
    destruct (Nat.eqb k v); cbn; [|apply Hnn].
    intros H. inversion H. lra.
  - rewrite (lab_list_set lb v o _ Hv).
    destruct (Nat.eqb_spec o v) as [->|]; [congruence | exact Horig].
  - intros k Hk. rewrite (lab_list_set lb v k _ Hv).
    destruct (Nat.eqb k v); cbn; [discriminate | apply Hpre, Hk].
  - intros p i q Hp Hi. rewrite length_list_set. intros Hq.
    rewrite (Hsame p Hp). rewrite (lab_list_set lb v q _ Hv).
    destruct (Nat.eqb q v); cbn; [|apply (Hord p i q Hp Hi Hq)].
    apply (pot_le_trans _ (PFin pu)).
    + rewrite <- Hpu. apply (Hlast u P eq_refl p Hp).
    + apply pot_le_fin. lra.
  - intros u' P' HP p Hp. inversion HP; subst u' P'.
    rewrite (Hsame p Hp), (Hsame u (or_introl eq_refl)).
    apply (Hlast u P eq_refl p Hp).
  - intros k w. rewrite (lab_list_set lb v k _ Hv).
    destruct (Nat.eqb_spec k v) as [->|Hne]; cbn.
    + intros H. inversion H; subst w. exists u.
      split; [reflexivity|]. split; [left; reflexivity|].
      split; [|exact Hkey].
      rewrite (Hsame u (or_introl eq_refl)), Hpu. discriminate.
    + intros H. destruct (Hlink k w H) as (u' & Hw & Hu' & Hfin & Hk).
      exists u'. repeat split; auto. now rewrite (Hsame u' Hu').
  - intros p Hp. rewrite (Hsame p Hp). intros Hfin.
    apply (leads_stable lb _ (u :: P)); auto.
    intros p' w Hw. destruct (Hlink p' w Hw) as (u' & Hu' & Hin & _). eauto.
Qed.

Lemma Settled_start (origin : Z) :
  o = Z.to_nat (origin - 1) ->
  1 <= origin <= Z.of_nat (List.length (Network.nodes s0)) ->
  Settled s0 o
    (py_range (Network.firstThroughNode s0 - 1)
       (Z.of_nat (List.length (Network.nodes s0)))) []
    (list_set o (PFin 0, None)
       (repeat (PInf, None) (List.length (Network.nodes s0)))).
Proof.
  intros Ho Hrange.
  assert (Hlt : (o < List.length
                    (repeat (PInf, @None Z) (List.length (Network.nodes s0))))%nat).
  { rewrite repeat_length. lia. }
  constructor.
  - rewrite length_list_set, repeat_length. unfold py_range.
    rewrite length_map, length_seq. cbn. pose proof (wf_first s0 W0). lia.
  - intros k. rewrite (lab_list_set _ o k _ Hlt), lab_repeat.
    destruct (Nat.eqb k o); cbn; [discriminate | reflexivity].
  - intros k q. rewrite (lab_list_set _ o k _ Hlt), lab_repeat.
    destruct (Nat.eqb k o); cbn; [|discriminate].
    intros H. inversion H. apply Qle_refl.
  - rewrite (lab_list_set _ o o _ Hlt). now rewrite Nat.eqb_refl.
  - intros k Hk. rewrite (lab_list_set _ o k _ Hlt), lab_repeat.
    destruct (Nat.eqb_spec k o); cbn; congruence.
  - intros p i q [].
  - intros u P' H. discriminate H.
  - intros k w. rewrite (lab_list_set _ o k _ Hlt), lab_repeat.
    destruct (Nat.eqb k o); cbn; discriminate.
  - intros p [].
Qed.

(** Under non-negative costs ShortestPath returns with settled labels. *)
Lemma ShortestPath_Settled (origin : Z) :
  o = Z.to_nat (origin - 1) ->
  1 <= origin <= Z.of_nat (List.length (Network.nodes s0)) ->
  exists s' P', Network.ShortestPath origin s0 = Ok (labels s') s'
                /\ same_frame s0 s' /\ Settled s0 o [] P' (labels s').
Proof.
  intros Ho Hrange.
  apply (ShortestPath_invariant s0 W0 (Settled s0 o)
           (fun _ L u P lb => Settled s0 o L (u :: P) lb)).
  - intros L P lb u _. apply Settled_select.
  - intros r rs L u P lb l c v _ St Hr Hl Hc Ht Hh Hv.
    apply (Settled_step r L u P lb l c v); assumption.
  - auto.
  - exact Hrange.
  - rewrite <- Ho. apply (Settled_start origin); assumption.
Qed.

End NonNegative.

(* ------------------------------------------------------------------ *)
(** ** The table that ShortestPath returns                              *)
(* ------------------------------------------------------------------ *)

Lemma lab_nth_error (lb : list (pot * option Z)) (k : nat) (x : pot * option Z) :
  nth_error lb k = Some x -> lab lb k = x.
Proof. intros H. unfold lab. apply nth_error_nth, H. Qed.

Lemma Relayed_below (s : Network.t) (o k : nat) :
  Z.of_nat o + 1 < Network.firstThroughNode s -> Relayed s o k -> k = o.
Proof.
  intros Hlow H. induction H as [|u v r l _ IH Hu _ _ _]; [reflexivity|].
  subst u. lia.
Qed.

(** C6: an origin below the first through node is not exempt from the
    restriction of the scan list.  On a consistent network, when the ID
    of the origin is less than firstThroughNode, ShortestPath(origin)
    returns a table in which every node other than the origin has the
    potential +infinity and no predecessor: the origin is not in the scan
    list, it is never chosen and none of its links is relaxed. *)
Theorem ShortestPath_origin_not_scanned (s : Network.t) (origin : Z) (v : nat) :
  consistent s = true ->
  1 <= origin <= Z.of_nat (List.length (Network.nodes s)) ->
  origin < Network.firstThroughNode s ->
  (v < List.length (Network.nodes s))%nat ->
  v <> Z.to_nat (origin - 1) ->
  ~ In (origin - 1)
      (py_range (Network.firstThroughNode s - 1)
         (Z.of_nat (List.length (Network.nodes s))))
  /\ exists tbl s', Network.ShortestPath origin s = Ok tbl s'
                    /\ nth_error tbl v = Some (PInf, None).
Proof.
  intros Hc Ho Hlow Hv Hne. apply consistent_Wf in Hc. split.
  { intros Hin. apply In_py_range in Hin. lia. }
  destruct (ShortestPath_Bounded s Hc _ origin eq_refl Ho)
    as (s' & P' & Hrun & Hf & [_ _ Hinf Hfin]).
  assert (Hlen : List.length (labels s') = List.length (Network.nodes s)).
  { rewrite length_labels. apply shape_length. unfold same_frame in Hf. tauto. }
  exists (labels s'), s'. split; [exact Hrun|].
  assert (Hp : fst (lab (labels s') v) = PInf).
  { destruct (fst (lab (labels s') v)) eqn:E; [reflexivity|].
    exfalso. apply Hne. apply (Relayed_below s); [lia|].
    apply Hfin. rewrite E. discriminate. }
  pose proof (Hinf v Hp) as Hq.
  rewrite (nth_error_nth' (labels s') (PInf, None)) by lia.
  fold (lab (labels s') v). f_equal.
  destruct (lab (labels s') v) as [p w]. cbn in *. congruence.
Qed.

Lemma ShortestPath_origin_not_scanned_witness :
  (fstar centroid_path 0 = [0%nat]
   /\ exists s', Network.ShortestPath 1 centroid_path
                 = Ok [(PFin 0, None); (PInf, None); (PInf, None)] s')
  /\ exists tbl s', Network.ShortestPath 1 centroid_path = Ok tbl s'
                    /\ nth_error tbl 2 = Some (PInf, None).
Proof.
  split.
  - split; [vm_compute; reflexivity|]. eexists. vm_compute. reflexivity.
  - apply (ShortestPath_origin_not_scanned centroid_path 1 2).
    + vm_compute. reflexivity.
    + vm_compute. split; discriminate.
    + vm_compute. reflexivity.
    + vm_compute. apply le_n.
    + vm_compute. discriminate.
Defined.

(** C3, as stated, fails: with the link (2,1) only, the destination 2 is
    out of reach of the origin 1; AON raises nothing and returns the
    flow 0 on the only link, the demand 50 of the pair being dropped. *)
Lemma AON_unreachable_destination_dropped :
  consistent backward_link_50 = true
  /\ Network.ODpairs backward_link_50 = [(1, [(2, OD.mk 1 2 50)])]
  /\ exists s', Network.AON 5 backward_link_50 = Ok [((2, 1), 0%Q)] s'.
Proof.
  repeat split; try (vm_compute; reflexivity).
  eexists. vm_compute. reflexivity.
Qed.


(* ------------------------------------------------------------------ *)
(** ** AON: the frame                                                   *)
(* ------------------------------------------------------------------ *)

Lemma keeps_links_refl (s : Network.t) : keeps_links s s.
Proof. split; reflexivity. Qed.

Lemma keeps_links_trans (s1 s2 s3 : Network.t) :
  keeps_links s1 s2 -> keeps_links s2 s3 -> keeps_links s1 s3.
Proof. unfold keeps_links. intros [H1 H2] [H3 H4]. split; congruence. Qed.

Section Preserves.

Let R := keeps_links.

Lemma preserves_bind {A B} (m : M Network.t A) (k : A -> M Network.t B) :
  preserves R m -> (forall a, preserves R (k a)) -> preserves R (bind m k).
Proof.
  intros Hm Hk s. unfold bind. specialize (Hm s).
  destruct (m s) as [a s1|e s1|]; auto.
  specialize (Hk a s1). destruct (k a s1) as [b s2|e s2|]; auto;
    apply (keeps_links_trans _ s1); assumption.
Qed.

Lemma preserves_ret {A} (a : A) : preserves R (ret a).
Proof. intros s. apply keeps_links_refl. Qed.

Lemma preserves_raise {A} (e : exn) : preserves R (@raise _ A e).
Proof. intros s. apply keeps_links_refl. Qed.

Lemma preserves_gets {A} (f : Network.t -> A) : preserves R (gets f).
Proof. intros s. apply keeps_links_refl. Qed.

Lemma preserves_for_each {A} (l : list A) (body : A -> M Network.t unit) :
  (forall x, preserves R (body x)) -> preserves R (for_each l body).
Proof.
  intros Hb. induction l as [|x l IH]; cbn.
  - apply preserves_ret.
  - apply preserves_bind; auto.
Qed.

Lemma preserves_for_fold {A B} (l : list A) (body : B -> A -> M Network.t B) :
  (forall b x, preserves R (body b x)) ->
  forall b, preserves R (for_fold l body b).
Proof.
  intros Hb. induction l as [|x l IH]; intros b; cbn.
  - apply preserves_ret.
  - apply preserves_bind; auto.
Qed.

Lemma preserves_node_pos (i : Z) : preserves R (Network.node_pos i).
Proof.
  intros s. unfold Network.node_pos.
  destruct (py_norm _ i); apply keeps_links_refl.
Qed.

Lemma preserves_node_obj (k : nat) : preserves R (Network.node_obj k).
Proof.
  intros s. unfold Network.node_obj.
  destruct (nth_error _ k) as [[nd|]|]; apply keeps_links_refl.
Qed.

Lemma preserves_link_obj (r : nat) : preserves R (Network.link_obj r).
Proof.
  intros s. unfold Network.link_obj.
  destruct (nth_error _ r); apply keeps_links_refl.
Qed.

Lemma preserves_node_update (k : nat) (f : Node.t -> Node.t) :
  preserves R (Network.node_update k f).
Proof.
  unfold Network.node_update. apply preserves_bind.
  - apply preserves_node_obj.
  - intros nd s. split; reflexivity.
Qed.

Lemma preserves_relax (ci r : nat) : preserves R (Network.relax ci r).
Proof.
  unfold Network.relax.
  apply preserves_bind; [apply preserves_link_obj | intros l].
  apply preserves_bind; [apply preserves_node_pos | intros hi].
  apply preserves_bind; [apply preserves_node_obj | intros node].
  apply preserves_bind; [apply preserves_node_obj | intros currentNode].
  destruct (Link.cost l) as [c|]; [|apply preserves_raise].
  destruct (pot_gt _ _); [apply preserves_node_update | apply preserves_ret].
Qed.

Lemma preserves_read_potentials (L : list Z) :
  preserves R (Network.read_potentials L).
Proof.
  induction L as [|i L IH]; cbn; [apply preserves_ret|].
  apply preserves_bind; [apply preserves_node_pos | intros k].
  apply preserves_bind; [apply preserves_node_obj | intros nd].
  apply preserves_bind; [exact IH | intros ps]. apply preserves_ret.
Qed.

Lemma preserves_scan (fuel : nat) (L : list Z) : preserves R (Network.scan fuel L).
Proof.
  revert L. induction fuel as [|fuel IH]; intros [|i0 L]; cbn [Network.scan];
    try apply preserves_ret.
  - intros s. exact Logic.I.
  - apply preserves_bind; [apply preserves_read_potentials | intros ps].
    apply preserves_bind; [apply preserves_node_pos | intros ci].
    apply preserves_bind; [apply preserves_node_obj | intros nd].
    apply preserves_bind; [|intros _; apply IH].
    apply preserves_for_each. intros r. apply preserves_relax.
Qed.

Lemma preserves_table (ns : list (option Node.t)) : preserves R (Network.table ns).
Proof.
  induction ns as [|[nd|] ns IH]; cbn.
  - apply preserves_ret.
  - apply preserves_bind; [exact IH | intros tb; apply preserves_ret].
  - apply preserves_raise.
Qed.

Lemma preserves_ShortestPath (origin : Z) :
  preserves R (Network.ShortestPath origin).
Proof.
  unfold Network.ShortestPath.
  apply preserves_bind; [apply preserves_gets | intros n].
  apply preserves_bind;
    [apply preserves_for_each; intros k; apply preserves_node_update | intros _].
  apply preserves_bind; [apply preserves_node_pos | intros oi].
  apply preserves_bind; [apply preserves_node_update | intros _].
  apply preserves_bind; [apply preserves_gets | intros first].
  apply preserves_bind.
  { intros s. destruct (Network.numNodes s); apply keeps_links_refl. }
  intros nn.
  apply preserves_bind; [apply preserves_scan | intros _].
  apply preserves_bind; [apply preserves_gets | intros ns].
  apply preserves_table.
Qed.

Lemma preserves_trace (fuel : nat) (SPath : list (pot * option Z)) (demands : Q) :
  forall x fl, preserves R (Network.trace fuel SPath demands x fl).
Proof.
  induction fuel as [|fuel IH]; intros x fl; cbn.
  - intros s. exact Logic.I.
  - apply preserves_bind.
    { unfold py_getitem. destruct (py_norm _ _) as [k|]; [|apply preserves_raise].
      destruct (nth_error SPath k); [apply preserves_ret | apply preserves_raise]. }
    intros e. destruct (snd e) as [p|]; [|apply preserves_ret].
    apply preserves_bind; [|intros fl'; apply IH].
    unfold Network.flow_add.
    destruct (dict_get fl (p, x)); [apply preserves_ret | apply preserves_raise].
Qed.

Lemma preserves_AON (fuel : nat) : preserves R (Network.AON fuel).
Proof.
  unfold Network.AON.
  apply preserves_bind; [apply preserves_gets | intros ij].
  apply preserves_bind; [apply preserves_gets | intros ods].
  apply preserves_for_fold. intros fl row.
  apply preserves_bind; [apply preserves_ShortestPath | intros SPath].
  apply preserves_for_fold. intros fl' entry.
  apply preserves_bind; [apply preserves_trace | intros r; apply preserves_ret].
Qed.

End Preserves.

(** *** The keys of the mapping *)

Lemma is_some_dict_get {V} (d : list (key * V)) (k : key) :
  is_some (dict_get d k) = existsb (key_eqb k) (map fst d).
Proof.
  induction d as [|[k' v] d IH]; cbn; [reflexivity|].
  destruct (key_eqb k k'); [reflexivity | exact IH].
Qed.

Lemma dict_set_keys {V} (d : list (key * V)) (k : key) (v : V) :
  is_some (dict_get d k) = true -> map fst (dict_set d k v) = map fst d.
Proof.
  induction d as [|[k' v'] d IH]; cbn; [discriminate|].
  destruct (key_eqb k k'); cbn; [reflexivity|].
  intros H. now rewrite IH.
Qed.

Lemma flow_add_keys (fl fl' : flows) (k : key) (demands : Q) (s s' : Network.t) :
  Network.flow_add fl k demands s = Ok fl' s' -> map fst fl' = map fst fl.
Proof.
  unfold Network.flow_add. destruct (dict_get fl k) as [v|] eqn:E;
    [|discriminate].
  intros H. inversion H. apply dict_set_keys. now rewrite E.
Qed.

Lemma trace_keys (fuel : nat) (SPath : list (pot * option Z)) (demands : Q) :
  forall x fl r s s',
  Network.trace fuel SPath demands x fl s = Ok r s' ->
  map fst (fst r) = map fst fl.
Proof.
  induction fuel as [|fuel IH]; intros x fl r s s' H; cbn in H;
    [discriminate|].
  apply bind_Ok_inv in H as (e & s1 & _ & H).
  destruct (snd e) as [p|].
  - apply bind_Ok_inv in H as (fl1 & s2 & H1 & H).
    apply IH in H. rewrite H. apply (flow_add_keys _ _ _ _ _ _ H1).
  - inversion H. reflexivity.
Qed.

Lemma for_fold_Ok_inv {S A B} (Inv : B -> Prop) (l : list A)
    (body : B -> A -> M S B) :
  (forall b x s b' s', Inv b -> body b x s = Ok b' s' -> Inv b') ->
  forall b s b' s', Inv b -> for_fold l body b s = Ok b' s' -> Inv b'.
Proof.
  intros Hb. induction l as [|x l IH]; intros b s b' s' HI H; cbn in H.
  - inversion H. now subst.
  - apply bind_Ok_inv in H as (b1 & s1 & H1 & H).
    apply (IH b1 s1 b' s'); [|exact H]. apply (Hb b x s b1 s1 HI H1).
Qed.

Lemma AON_keys (fuel : nat) (s s' : Network.t) (fl : flows) :
  Network.AON fuel s = Ok fl s' -> map fst fl = map fst (Network.links s).
Proof.
  unfold Network.AON. intros H.
  apply bind_Ok_inv in H as (ij & s1 & H1 & H). inversion H1; subst ij s1.
  apply bind_Ok_inv in H as (ods & s1 & H2 & H). inversion H2; subst ods s1.
  revert H.
  apply (for_fold_Ok_inv (fun fl => map fst fl = map fst (Network.links s))).
  - intros b row s1 b' s1' Hb Hrow.
    apply bind_Ok_inv in Hrow as (SPath & s2 & _ & Hrow). revert Hrow.
    apply (for_fold_Ok_inv (fun fl => map fst fl = map fst (Network.links s)));
      [|exact Hb].
    intros b0 entry s3 b0' s3' Hb0 He.
    apply bind_Ok_inv in He as (r & s4 & Hr & He). inversion He; subst.
    rewrite (trace_keys _ _ _ _ _ _ _ _ Hr). exact Hb0.
  - rewrite map_map. cbn. now rewrite map_id.
Qed.

(* ------------------------------------------------------------------ *)
(** ** UE                                                               *)
(* ------------------------------------------------------------------ *)

(** The loop test [converge > tolerance] is the only exit of the loop. *)
Lemma UE_while_exit (fuel aon_fuel : nat) (tolerance converge : Q) (IteCou : Z)
    (L : Network.UE_locals) (s : Network.t) :
  (converge <= tolerance)%Q ->
  Network.UE_while fuel aon_fuel tolerance converge IteCou L s = Ok tt s.
Proof.
  intros H. apply Qltb_false in H.
  destruct fuel; cbn; rewrite H; reflexivity.
Qed.

(** Without links a pass does nothing. *)
Lemma UE_pass_no_links (aon_fuel : nat) (IteCou : Z) (L : Network.UE_locals)
    (s : Network.t) :
  Network.links s = [] -> Network.UE_pass aon_fuel IteCou L s = Ok L s.
Proof.
  intros H. unfold Network.UE_pass, bind, gets. rewrite H. reflexivity.
Qed.

Lemma UE_while_no_links (fuel aon_fuel : nat) (tolerance converge : Q)
    (IteCou : Z) (L : Network.UE_locals) (s : Network.t) :
  (tolerance < converge)%Q -> Network.links s = [] ->
  Network.UE_while fuel aon_fuel tolerance converge IteCou L s = Diverge.
Proof.
  intros Ht Hl. apply Qltb_true in Ht.
  induction fuel as [|fuel IH]; cbn; rewrite Ht; [reflexivity|].
  rewrite (bind_Ok _ _ _ _ _ (UE_pass_no_links aon_fuel IteCou L s Hl)).
  exact IH.
Qed.

Lemma AON_no_demand (fuel : nat) (s : Network.t) :
  Network.ODpairs s = [] ->
  Network.AON fuel s = Ok (map (fun k => (k, 0%Q)) (map fst (Network.links s))) s.
Proof.
  intros H. unfold Network.AON, bind, gets. rewrite H. reflexivity.
Qed.

Lemma UE_no_links (fuel : nat) (tolerance : Q) (s : Network.t) :
  (tolerance < 5)%Q -> Network.links s = [] -> Network.ODpairs s = [] ->
  Network.UE fuel tolerance s = Diverge.
Proof.
  intros Ht Hl Ho. unfold Network.UE.
  rewrite (bind_Ok _ _ _ _ _ (AON_no_demand fuel s Ho)).
  unfold bind at 1, gets. rewrite Hl. cbn.
  apply UE_while_no_links; assumption.
Qed.

(** The initialisation of the flows calls the dictionary that AON
    returned: with a link in the network UE stops there. *)
Lemma UE_raises_TypeError (fuel : nat) (tolerance : Q) (s s' : Network.t)
    (fl : flows) :
  Network.links s <> [] ->
  Network.AON fuel s = Ok fl s' ->
  Network.UE fuel tolerance s = Raise TypeError s'.
Proof.
  intros Hne HA. unfold Network.UE. rewrite (bind_Ok _ _ _ _ _ HA).
  unfold bind at 1, gets at 1.
  destruct (Network.links s') as [|[ij r] rest] eqn:E; [|reflexivity].
  exfalso. apply Hne.
  pose proof (preserves_AON fuel s) as Hp. rewrite HA in Hp.
  destruct Hp as [_ Hl]. congruence.
Qed.

Lemma on_link_modify (s : Network.t) (r : nat) (l : Link.t)
    (f : Link.t -> Link.t) :
  nth_error (Network.heap s) r = Some l ->
  Network.on_link r (modify f) s
  = Ok tt (Network.set_heap (list_set r (f l)) s).
Proof.
  intros H. unfold Network.on_link, bind, Network.link_obj. now rewrite H.
Qed.

(** C1: what a pass of the main loop of UE does.  For a link [ij] of
    the network, with AON flow [a] and a non-zero IteCou, the body of the
    loop over the links computes move = flow + (a - flow)/IteCou; when
    move is not 0 it sets the flow of the link to move and then stops
    with UnboundLocalError at the read of [counter], so that no later link
    is updated, no metric is computed and IteCou is not incremented; when
    move is 0 it leaves the flow of the link as it was.  The loop makes
    its test again with the same [converge] and the same [IteCou].  And
    UE as a whole never gets to a pass on such a network: it stops with
    TypeError where it calls the dictionary of AON flows. *)
Theorem UE_pass_defects (IteCou : Z) (flow_AON : flows) (L : Network.UE_locals)
    (ij : key) (s : Network.t) (r : nat) (l : Link.t) (a : Q) :
  dict_get (Network.links s) ij = Some r ->
  nth_error (Network.heap s) r = Some l ->
  dict_get flow_AON ij = Some a ->
  IteCou <> 0 ->
  Network.counter L = None ->
  (~ (Link.flow l + (a - Link.flow l) / inject_Z IteCou == 0)%Q ->
     Network.UE_inner IteCou flow_AON L ij s
     = Raise UnboundLocalError
         (Network.set_heap
            (list_set r (Link.set_flow
                           (Link.flow l + (a - Link.flow l) / inject_Z IteCou)%Q
                           l)) s))
  /\ ((Link.flow l + (a - Link.flow l) / inject_Z IteCou == 0)%Q ->
        Network.UE_inner IteCou flow_AON L ij s = Ok L s)
  /\ (forall fuel aon_fuel tolerance converge,
        (tolerance < converge)%Q ->
        Network.UE_while (S fuel) aon_fuel tolerance converge IteCou L s
        = bind (Network.UE_pass aon_fuel IteCou L)
            (fun L' => Network.UE_while fuel aon_fuel tolerance converge IteCou L')
            s)
  /\ (forall fuel tolerance fl s',
        Network.AON fuel s = Ok fl s' ->
        Network.UE fuel tolerance s = Raise TypeError s').
Proof.
  intros Hr Hl Ha Hit Hcnt.
  assert (Hdiv : Qeq_bool (inject_Z IteCou) 0 = false).
  { destruct (Qeq_bool (inject_Z IteCou) 0) eqn:E; [|reflexivity].
    apply Qeq_bool_eq in E. unfold Qeq in E. cbn in E. lia. }
  assert (Hrun : Network.UE_inner IteCou flow_AON L ij s
                 = if Qeq_bool (Link.flow l + (a - Link.flow l) / inject_Z IteCou) 0
                   then Ok L s
                   else Raise UnboundLocalError
                          (Network.set_heap
                             (list_set r
                                (Link.set_flow
                                   (Link.flow l
                                    + (a - Link.flow l) / inject_Z IteCou)%Q l))
                             s)).
  { unfold Network.UE_inner.
    unfold bind at 1. unfold Network.links_getitem. rewrite Hr.
    unfold bind at 1. unfold Network.link_obj. rewrite Hl.
    unfold bind at 1. unfold Network.flows_getitem. rewrite Ha. unfold ret at 1.
    unfold bind at 1. unfold py_div at 1. rewrite Hdiv. unfold ret at 1.
    destruct (Qeq_bool (Link.flow l + (a - Link.flow l) / inject_Z IteCou) 0)
      eqn:E; [reflexivity|].
    unfold bind at 1. unfold py_div at 1. rewrite E. unfold ret at 1.
    rewrite (bind_Ok _ _ _ _ _ (on_link_modify s r l _ Hl)).
    unfold bind at 1. rewrite Hcnt. reflexivity. }
  split; [|split; [|split]].
  - intros Hne. rewrite Hrun.
    destruct (Qeq_bool (Link.flow l + (a - Link.flow l) / inject_Z IteCou) 0)
      eqn:E; [|reflexivity].
    exfalso. apply Hne. apply Qeq_bool_eq, E.
  - intros H0. rewrite Hrun. apply Qeq_bool_iff in H0. now rewrite H0.
  - intros fuel aon_fuel tolerance converge Ht. apply Qltb_true in Ht.
    cbn [Network.UE_while]. now rewrite Ht.
  - intros fuel tolerance fl s' HA.
    apply (UE_raises_TypeError fuel tolerance s s' fl); [|exact HA].
    intros E. rewrite E in Hr. discriminate Hr.
Qed.

Lemma UE_pass_defects_witness :
  (exists s', Network.UE_inner 1 [((1, 2), 50%Q)] (Network.mkLocals [] None None)
                (1, 2) one_link_50 = Raise UnboundLocalError s')
  /\ (exists s', Network.UE 5 (1 # 100) one_link_50 = Raise TypeError s').
Proof.
  destruct (UE_pass_defects 1 [((1, 2), 50%Q)] (Network.mkLocals [] None None)
              (1, 2) one_link_50 0
              (nth 0 (Network.heap one_link_50) link_negative_beta) 50)
    as (Hmove & _ & _ & HUE).
  - vm_compute. reflexivity.
  - vm_compute. reflexivity.
  - vm_compute. reflexivity.
  - discriminate.
  - reflexivity.
  - split.
    + eexists. apply Hmove. vm_compute. discriminate.
    + destruct (Network.AON 5 one_link_50) as [fl s'| |] eqn:E.
      * exists s'. apply (HUE 5%nat (1 # 100) fl s'). exact E.
      * vm_compute in E. discriminate E.
      * vm_compute in E. discriminate E.
Defined.


(** A normal exit of the loop happens only at its test, with the metric
    at most the tolerance, and it leaves the network as it found it. *)
Lemma UE_while_Ok_inv (fuel aon_fuel : nat) (tolerance converge : Q)
    (IteCou : Z) (L : Network.UE_locals) (s s' : Network.t) (x : unit) :
  Network.UE_while fuel aon_fuel tolerance converge IteCou L s = Ok x s' ->
  (converge <= tolerance)%Q /\ s' = s.
Proof.
  revert L s. induction fuel as [|fuel IH]; intros L s H; cbn in H.
  - destruct (Qltb tolerance converge) eqn:E; [discriminate H|].
    inversion H. split; [|reflexivity]. apply Qltb_false, E.
  - destruct (Qltb tolerance converge) eqn:E.
    + apply bind_Ok_inv in H. destruct H as (L' & s1 & _ & H).
      destruct (IH _ _ H) as [Hle _]. apply Qltb_true in E.
      exfalso. apply (Qlt_not_le _ _ E Hle).
    + inversion H. split; [|reflexivity]. apply Qltb_false, E.
Qed.

Lemma UE_Ok_inv (fuel : nat) (tolerance : Q) (s s' : Network.t) (x : unit) :
  Network.UE fuel tolerance s = Ok x s' ->
  (5 <= tolerance)%Q /\ Network.links s = [].
Proof.
  intros H.
  destruct (Network.AON fuel s) as [fl s1| |] eqn:EA;
    try (unfold Network.UE, bind in H; rewrite EA in H; discriminate H).
  destruct (Network.links s) as [|kr rest] eqn:El.
  - pose proof (preserves_AON fuel s) as Hp. rewrite EA in Hp.
    destruct Hp as [_ Hl]. rewrite El in Hl.
    unfold Network.UE in H. rewrite (bind_Ok _ _ _ _ _ EA) in H.
    unfold bind at 1, gets in H. rewrite Hl in H. cbn in H.
    apply UE_while_Ok_inv in H. split; [apply H | reflexivity].
  - assert (Hne : Network.links s <> []) by (rewrite El; discriminate).
    rewrite (UE_raises_TypeError fuel tolerance s s1 fl Hne EA) in H.
    discriminate H.
Qed.



(* ------------------------------------------------------------------ *)
(** ** AON: the walk back from a destination                            *)
(* ------------------------------------------------------------------ *)

Lemma py_getitem_pos {S} (lb : list (pot * option Z)) (p : nat) (s : S) :
  (p < List.length lb)%nat ->
  py_getitem lb (Z.of_nat p + 1 - 1) s = Ok (lab lb p) s.
Proof.
  intros Hp. unfold py_getitem.
  rewrite py_norm_nonneg by lia.
  replace (Z.to_nat (Z.of_nat p + 1 - 1)) with p by lia.
  unfold lab. now rewrite (nth_error_nth' lb (PInf, None) Hp).
Qed.

Lemma nonneg_costs_frame (s s' : Network.t) :
  same_frame s s' -> nonneg_costs s = true -> nonneg_costs s' = true.
Proof.
  unfold same_frame, nonneg_costs. intros Hf H.
  decompose [and] Hf. congruence.
Qed.

Lemma for_fold_total {S A B} (Inv : B -> S -> Prop) (l : list A)
    (body : B -> A -> M S B) :
  (forall b x s, In x l -> Inv b s ->
     exists b' s', body b x s = Ok b' s' /\ Inv b' s') ->
  forall b s, Inv b s ->
  exists b' s', for_fold l body b s = Ok b' s' /\ Inv b' s'.
Proof.
  induction l as [|x l IH]; intros Hb b s HI; cbn.
  - exists b, s. auto.
  - destruct (Hb b x s (or_introl eq_refl) HI) as (b1 & s1 & H1 & HI1).
    destruct (IH (fun b x s Hx => Hb b x s (or_intror Hx)) b1 s1 HI1)
      as (b2 & s2 & H2 & HI2).
    exists b2, s2. split; [|exact HI2].
    rewrite (bind_Ok _ _ _ _ _ H1). exact H2.
Qed.

Section Walk.

Variable s0 : Network.t.
Variable o : nat.
Variable P : list nat.
Variable lb : list (pot * option Z).
Hypothesis St : Settled s0 o [] P lb.
Variable demands : Q.

(** Along a chain of predecessors that leads to the origin the walk adds
    the demand link by link and stops at the origin. *)
Lemma trace_leads (k : nat) :
  forall fuel p fl (st : Network.t),
  (k < fuel)%nat -> leads lb o k p -> (p < List.length lb)%nat ->
  map fst fl = map fst (Network.links s0) ->
  exists fl', Network.trace fuel lb demands (Z.of_nat p + 1) fl st
              = Ok (fl', Z.of_nat o + 1) st
              /\ map fst fl' = map fst fl.
Proof.
  induction k as [|k IH]; intros fuel p fl st Hk Hl Hp Hkeys;
    (destruct fuel as [|fuel]; [lia|]); cbn [Network.trace];
    rewrite (bind_Ok _ _ _ _ _ (py_getitem_pos lb p st Hp)).
  - destruct Hl as [-> | []]. rewrite (st_origin _ _ _ _ _ St). cbn.
    exists fl. auto.
  - destruct (Nat.eq_dec p o) as [-> | Hne].
    { rewrite (st_origin _ _ _ _ _ St). cbn. exists fl. auto. }
    destruct Hl as [-> | (u & Hu & Hl)]; [congruence|].
    rewrite Hu.
    destruct (st_link _ _ _ _ _ St p _ Hu) as (u' & Hw & _ & Hfin & Hkey).
    assert (u' = u) by lia. subst u'.
    assert (Hin : is_some (dict_get fl (Z.of_nat u + 1, Z.of_nat p + 1)) = true).
    { rewrite is_some_dict_get, Hkeys, <- is_some_dict_get. exact Hkey. }
    destruct (dict_get fl (Z.of_nat u + 1, Z.of_nat p + 1)) as [x|] eqn:Ex;
      [|discriminate].
    assert (Hadd : Network.flow_add fl (Z.of_nat u + 1, Z.of_nat p + 1) demands st
                   = Ok (dict_set fl (Z.of_nat u + 1, Z.of_nat p + 1)
                           (x + demands)%Q) st).
    { unfold Network.flow_add. now rewrite Ex. }
    rewrite (bind_Ok _ _ _ _ _ Hadd).
    assert (Hkeys1 : map fst (dict_set fl (Z.of_nat u + 1, Z.of_nat p + 1)
                                (x + demands)%Q) = map fst fl).
    { apply dict_set_keys. now rewrite Ex. }
    assert (Hk1 : (k < fuel)%nat) by lia.
    destruct (IH fuel u _ st Hk1 Hl (lab_finite_lt _ _ Hfin)
                (eq_trans Hkeys1 Hkeys)) as (fl' & Hrun & Hk').
    exists fl'. split; [exact Hrun | congruence].
Qed.

(** The walk from any node of the network returns: at the origin when
    the node has a predecessor, at the node itself when it has none. *)
Lemma trace_total (fuel : nat) (d : Z) (fl : flows) (st : Network.t) :
  (2 * List.length lb + 2 <= fuel)%nat ->
  1 <= d <= Z.of_nat (List.length lb) ->
  map fst fl = map fst (Network.links s0) ->
  exists fl' x,
    Network.trace fuel lb demands d fl st = Ok (fl', x) st
    /\ map fst fl' = map fst fl
    /\ (snd (lab lb (Z.to_nat (d - 1))) <> None -> x = Z.of_nat o + 1)
    /\ (snd (lab lb (Z.to_nat (d - 1))) = None -> x = d /\ fl' = fl).
Proof.
  intros Hfuel Hd Hkeys.
  set (p := Z.to_nat (d - 1)).
  assert (Hp : (p < List.length lb)%nat) by (unfold p; lia).
  assert (Hdp : d = Z.of_nat p + 1) by (unfold p; lia).
  destruct (snd (lab lb p)) as [w|] eqn:Ew.
  - assert (Hl : leads lb o (S (List.length P)) p).
    { destruct (st_link _ _ _ _ _ St p w Ew) as (u & -> & Hu & Hfin & _).
      right. exists u. split; [exact Ew|].
      apply (st_leads _ _ _ _ _ St); assumption. }
    pose proof (st_count _ _ _ _ _ St) as Hc. cbn in Hc.
    destruct (trace_leads (S (List.length P)) fuel p fl st) as (fl' & Hrun & Hk);
      auto; [lia|].
    exists fl', (Z.of_nat o + 1). rewrite Hdp. repeat split; auto; congruence.
  - exists fl, d. split; [|repeat split; auto; congruence].
    destruct fuel as [|fuel]; [lia|]. cbn [Network.trace]. rewrite Hdp.
    rewrite (bind_Ok _ _ _ _ _ (py_getitem_pos lb p st Hp)). now rewrite Ew.
Qed.

End Walk.

(** On a consistent network with non-negative costs AON returns. *)
Lemma AON_total (s : Network.t) (fuel : nat) :
  Wf s -> nonneg_costs s = true ->
  (2 * List.length (Network.nodes s) + 2 <= fuel)%nat ->
  exists fl s', Network.AON fuel s = Ok fl s'.
Proof.
  intros W N Hfuel. unfold Network.AON.
  unfold bind at 1. unfold gets at 1. unfold bind at 1. unfold gets at 1.
  set (Inv := fun (fl : flows) (s1 : Network.t) =>
                same_frame s s1
                /\ map fst fl = map fst (Network.links s)).
  destruct (for_fold_total Inv (Network.ODpairs s)
              (fun AON_flow row =>
                 bind (Network.ShortestPath (fst row)) (fun SPath =>
                   for_fold (snd row) (fun AON_flow entry =>
                     bind (Network.trace fuel SPath (OD.demand (snd entry))
                             (fst entry) AON_flow)
                       (fun r => ret (fst r))) AON_flow)))
    with (b := map (fun k => (k, 0%Q)) (map fst (Network.links s))) (s := s)
    as (fl & s' & Hrun & _).
  - intros fl row s1 Hrow [Hf Hkeys].
    pose proof (Wf_frame _ _ Hf W) as W1.
    pose proof (nonneg_costs_frame _ _ Hf N) as N1.
    assert (Hlen : List.length (Network.nodes s1) = List.length (Network.nodes s)).
    { apply shape_length. unfold same_frame in Hf. tauto. }
    destruct (wf_od s W row Hrow) as [Ho Hd].
    destruct (ShortestPath_Settled s1 W1 N1 _ (fst row) eq_refl)
      as (s2 & P2 & Hsp & Hf2 & St); [lia|].
    rewrite (bind_Ok _ _ _ _ _ Hsp).
    assert (Hlinks : Network.links s1 = Network.links s).
    { unfold same_frame in Hf. tauto. }
    assert (Hlen2 : List.length (labels s2) = List.length (Network.nodes s)).
    { rewrite length_labels. rewrite <- Hlen. apply shape_length.
      unfold same_frame in Hf2. tauto. }
    destruct (for_fold_total
                (fun fl' s3 => s3 = s2
                               /\ map fst fl' = map fst (Network.links s))
                (snd row)
                (fun AON_flow entry =>
                   bind (Network.trace fuel (labels s2) (OD.demand (snd entry))
                           (fst entry) AON_flow)
                     (fun r => ret (fst r))))
      with (b := fl) (s := s2) as (fl3 & s3 & Hrun3 & -> & Hk3).
    + intros fl' entry s3 He [-> Hk'].
      destruct (trace_total s1 _ P2 (labels s2) St (OD.demand (snd entry)) fuel
                  (fst entry) fl' s2) as (fl2 & x & Hrun & Hk2 & _).
      * rewrite Hlen2. exact Hfuel.
      * rewrite Hlen2. apply Hd, He.
      * congruence.
      * exists fl2, s2. rewrite (bind_Ok _ _ _ _ _ Hrun). cbn.
        split; [reflexivity|]. split; [reflexivity | congruence].
    + split; [reflexivity | exact Hkeys].
    + exists fl3, s2. split; [exact Hrun3|]. split; [|exact Hk3].
      apply (same_frame_trans _ _ _ Hf Hf2).
  - split; [apply same_frame_refl|]. rewrite map_map. cbn. now rewrite map_id.
  - exists fl, s'. exact Hrun.
Qed.

(** C4 (amended): AON leaves the Link objects alone, and returns on the
    networks on which the search is sound.  Whatever the network, when
    AON ends, by return or by exception, the stored Link objects (and thus
    the flow of every link) and the dictionary [links] are what they were
    before the call, and a mapping that is returned has exactly the keys
    of [links], in their order; on a consistent network with non-negative
    costs AON does return.  On other networks it need not. *)
Theorem AON_leaves_links (s : Network.t) (fuel : nat) :
  (forall fl s', Network.AON fuel s = Ok fl s' ->
     map fst fl = map fst (Network.links s)
     /\ Network.heap s' = Network.heap s
     /\ map Link.flow (Network.heap s') = map Link.flow (Network.heap s)
     /\ Network.links s' = Network.links s)
  /\ (forall e s', Network.AON fuel s = Raise e s' ->
        Network.heap s' = Network.heap s
        /\ Network.links s' = Network.links s)
  /\ (consistent s = true -> nonneg_costs s = true ->
      (2 * List.length (Network.nodes s) + 2 <= fuel)%nat ->
      exists fl s', Network.AON fuel s = Ok fl s').
Proof.
  pose proof (preserves_AON fuel s) as Hp.
  split; [|split].
  - intros fl s' H. rewrite H in Hp. destruct Hp as [Hh Hl].
    split; [apply (AON_keys fuel s s' fl H)|]. rewrite Hh. auto.
  - intros e s' H. rewrite H in Hp. exact Hp.
  - intros Hc Hn Hfuel. apply AON_total; auto. apply consistent_Wf, Hc.
Qed.

Lemma AON_leaves_links_witness :
  exists fl s', Network.AON 6 one_link_50 = Ok fl s'.
Proof.
  apply (AON_leaves_links one_link_50 6).
  - vm_compute. reflexivity.
  - vm_compute. reflexivity.
  - vm_compute. apply le_n.
Defined.

(** C3 (amended): during AON the walk back from a destination follows the
    recorded predecessors and stops at the first node that has none.  On
    a consistent network with non-negative link costs, for an origin and
    a destination among its nodes, the walk returns without an error: it
    stops exactly at the origin when the destination has a predecessor,
    and at the destination itself, nothing being added to the mapping,
    when it has none, which is the case of every destination that cannot
    be reached from the origin; and AON as a whole returns. *)
Theorem AON_walk_stops (s : Network.t) (origin d : Z) (demands : Q)
    (fl : flows) (fuel : nat) :
  consistent s = true ->
  nonneg_costs s = true ->
  1 <= origin <= Z.of_nat (List.length (Network.nodes s)) ->
  1 <= d <= Z.of_nat (List.length (Network.nodes s)) ->
  map fst fl = map fst (Network.links s) ->
  (2 * List.length (Network.nodes s) + 2 <= fuel)%nat ->
  exists SPath s' fl' x,
    Network.ShortestPath origin s = Ok SPath s'
    /\ Network.trace fuel SPath demands d fl s' = Ok (fl', x) s'
    /\ map fst fl' = map fst fl
    /\ (snd (lab SPath (Z.to_nat (d - 1))) <> None -> x = origin)
    /\ (snd (lab SPath (Z.to_nat (d - 1))) = None -> x = d /\ fl' = fl)
    /\ (~ Reach s (Z.to_nat (origin - 1)) (Z.to_nat (d - 1)) ->
        snd (lab SPath (Z.to_nat (d - 1))) = None)
    /\ returns (Network.AON fuel s).
Proof.
  intros Hc Hn Ho Hd Hkeys Hfuel. apply consistent_Wf in Hc.
  destruct (ShortestPath_Settled s Hc Hn _ origin eq_refl Ho)
    as (s' & P' & Hrun & Hf & St).
  destruct (ShortestPath_Bounded s Hc _ origin eq_refl Ho)
    as (s'' & P'' & Hrun' & _ & [_ _ Hinf Hfin]).
  assert (s'' = s') by congruence. subst s''. clear Hrun'.
  assert (Hlen : List.length (labels s') = List.length (Network.nodes s)).
  { rewrite length_labels. apply shape_length. unfold same_frame in Hf. tauto. }
  destruct (trace_total s _ P' (labels s') St demands fuel d fl s')
    as (fl' & x & Htr & Hk & Hsome & Hnone).
  - rewrite Hlen. exact Hfuel.
  - rewrite Hlen. exact Hd.
  - exact Hkeys.
  - exists (labels s'), s', fl', x.
    split; [exact Hrun|]. split; [exact Htr|]. split; [exact Hk|].
    split; [|split; [exact Hnone|split]].
    + intros H. rewrite (Hsome H). lia.
    + intros Hun. apply Hinf.
      destruct (fst (lab (labels s') (Z.to_nat (d - 1)))) eqn:E;
        [reflexivity|].
      exfalso. apply Hun, Relayed_Reach, Hfin. rewrite E. discriminate.
    + apply AON_total; assumption.
Qed.

Lemma AON_walk_stops_witness :
  exists SPath s' fl' x,
    Network.ShortestPath 1 backward_link_50 = Ok SPath s'
    /\ Network.trace 6 SPath 50 2 [((2, 1), 0%Q)] s' = Ok (fl', x) s'
    /\ map fst fl' = map fst [((2, 1), 0%Q)]
    /\ (snd (lab SPath (Z.to_nat (2 - 1))) <> None -> x = 1)
    /\ (snd (lab SPath (Z.to_nat (2 - 1))) = None
        -> x = 2 /\ fl' = [((2, 1), 0%Q)])
    /\ (~ Reach backward_link_50 (Z.to_nat (1 - 1)) (Z.to_nat (2 - 1)) ->
        snd (lab SPath (Z.to_nat (2 - 1))) = None)
    /\ returns (Network.AON 6 backward_link_50).
Proof.
  apply (AON_walk_stops backward_link_50 1 2 50 [((2, 1), 0%Q)] 6).
  - vm_compute. reflexivity.
  - vm_compute. reflexivity.
  - vm_compute. split; discriminate.
  - vm_compute. split; discriminate.
  - vm_compute. reflexivity.
  - vm_compute. apply le_n.
Defined.

(* ------------------------------------------------------------------ *)
(** ** Networks with a single link                                      *)
(* ------------------------------------------------------------------ *)

Lemma concat_single (ls : list (list nat)) (r : nat) :
  List.concat ls = [r] ->
  exists u0, nth u0 ls [] = [r] /\ forall u, u <> u0 -> nth u ls [] = [].
Proof.
  induction ls as [|x ls IH]; cbn; [discriminate|].
  destruct x as [|r' x]; cbn.
  - intros H. destruct (IH H) as (u0 & H0 & Hother).
    exists (S u0). split; [exact H0|].
    intros [|u] Hu; [reflexivity|]. apply Hother. congruence.
  - intros H. injection H as Hr Hrest. apply app_eq_nil in Hrest as [Hx Hc].
    subst r' x. exists O. split; [reflexivity|].
    intros [|u] Hu; [congruence|].
    destruct (nth_in_or_default u ls []) as [Hin | ->]; [|reflexivity].
    pose proof (proj1 (concat_nil_Forall ls) Hc) as Hall.
    rewrite Forall_forall in Hall. apply Hall, Hin.
Qed.

Lemma fstar_nth (s : Network.t) (u : nat) :
  fstar s u = nth u (map star_of (Network.nodes s)) [].
Proof.
  unfold fstar. destruct (nth_error (Network.nodes s) u) as [e|] eqn:E.
  - symmetry. apply nth_error_nth. rewrite nth_error_map, E. now destruct e.
  - symmetry. apply nth_overflow. rewrite length_map. apply nth_error_None, E.
Qed.

Section SingleLink.

Variable s0 : Network.t.
Hypothesis W0 : Wf s0.
Variable r : nat.
Variable l : Link.t.
Variable c : Q.
Hypothesis Hstars : all_stars s0 = [r].
Hypothesis Hl : nth_error (Network.heap s0) r = Some l.
Hypothesis Hc : Link.cost l = Some c.
Hypothesis Hloop : Link.tail l <> Link.head l.

Let n := List.length (Network.nodes s0).
Let t := Z.to_nat (Link.tail l - 1).
Let h := Z.to_nat (Link.head l - 1).

(** The link is the forward star of its tail, and the only one. *)
Lemma single_fstar :
  fstar s0 t = [r] /\ (forall u, u <> t -> fstar s0 u = [])
  /\ Link.tail l = Z.of_nat t + 1 /\ Link.head l = Z.of_nat h + 1
  /\ (t < n)%nat /\ (h < n)%nat /\ t <> h.
Proof.
  destruct (concat_single _ r Hstars) as (u0 & H0 & Hother).
  rewrite <- fstar_nth in H0.
  assert (Hin : In r (fstar s0 u0)) by (rewrite H0; left; reflexivity).
  unfold fstar in Hin.
  destruct (nth_error (Network.nodes s0) u0) as [[nu|]|] eqn:Eu;
    try contradiction.
  destruct (wf_node s0 W0 u0 _ Eu) as (nd & Hnd & Hid & Hfs).
  inversion Hnd; subst nd.
  destruct (Hfs r Hin) as (l' & c' & Hl' & Htail & Hhead & _).
  assert (l' = l) by congruence. subst l'.
  assert (Hu0 : (u0 < n)%nat).
  { apply nth_error_Some. unfold n. rewrite Eu. discriminate. }
  assert (Ht : u0 = t) by (unfold t; lia). subst u0.
  split; [exact H0|]. split.
  - intros u Hu. rewrite fstar_nth. apply Hother, Hu.
  - unfold h, n in *. repeat split; try lia.
Qed.

Lemma length_labels_start : List.length (labels_start n t) = n.
Proof. unfold labels_start. now rewrite length_list_set, repeat_length. Qed.

Lemma lab_start (k : nat) :
  (t < n)%nat ->
  lab (labels_start n t) k = if Nat.eqb k t then (PFin 0, None) else (PInf, None).
Proof.
  intros Ht. unfold labels_start. rewrite lab_list_set, lab_repeat;
    [reflexivity | now rewrite repeat_length].
Qed.

Lemma OneLink_select (L : list Z) (P : list nat) (lb : list (pot * option Z))
    (u : nat) :
  List.length lb = n ->
  OneLink n t h c L P lb ->
  (chosen lb L < List.length L)%nat ->
  py_norm (List.length lb) (nth (chosen lb L) L 0) = Some u ->
  OneLinkAt n t h r c (fstar s0 u) (pop (chosen lb L) L) u P lb.
Proof.
  intros Hlen HI Hpos Hu. rewrite Hlen in Hu.
  destruct single_fstar as (Hft & Hfo & _).
  destruct (Nat.eq_dec u t) as [-> | Hne].
  - rewrite Hft. destruct HI as [[Hlb _] | Hlb]; [left | right]; auto.
  - rewrite (Hfo u Hne). destruct HI as [[Hlb (i & Hi & Hit)] | Hlb];
      [left | right]; auto.
    split; [exact Hlb|]. right. split; [reflexivity|].
    exists i. split; [|exact Hit].
    apply (In_pop_other _ _ 0); [exact Hi|]. congruence.
Qed.

Lemma OneLink_step (r' : nat) (rs : list nat) (L : list Z) (u : nat)
    (P : list nat) (lb : list (pot * option Z)) (l' : Link.t) (c' : Q) (v : nat) :
  OneLinkAt n t h r c (r' :: rs) L u P lb ->
  nth_error (Network.heap s0) r' = Some l' ->
  Link.cost l' = Some c' ->
  Link.head l' = Z.of_nat v + 1 ->
  OneLinkAt n t h r c rs L u P (relabel lb u v c').
Proof.
  intros HJ Hl' Hc' Hh'.
  destruct single_fstar as (_ & _ & Htail & Hhead & Ht & Hh & Hth).
  assert (Hcase : u = t /\ r' = r /\ rs = []).
  { destruct HJ as [[_ [[Hu Hrs] | [Hrs _]]] | [_ [Hrs | [Hu Hrs]]]];
      try discriminate; inversion Hrs; auto. }
  destruct Hcase as (-> & -> & ->).
  assert (l' = l) by congruence. subst l'.
  assert (c' = c) by congruence. subst c'.
  assert (v = h) by lia. subst v.
  right. split; [|left; reflexivity].
  destruct HJ as [[-> _] | [-> _]]; unfold relabel.
  - rewrite !lab_start by exact Ht. rewrite Nat.eqb_refl.
    destruct (Nat.eqb_spec h t) as [E|_]; [congruence|]. cbn. reflexivity.
  - unfold labels_one_link.
    rewrite !lab_list_set by (rewrite length_labels_start; exact Hh).
    rewrite Nat.eqb_refl. destruct (Nat.eqb_spec t h) as [E|_]; [congruence|].
    rewrite lab_start by exact Ht. rewrite Nat.eqb_refl. cbn.
    assert (E : Qltb (0 + c) (0 + c) = false)
      by (apply Qltb_false, Qle_refl).
    now rewrite E.
Qed.

Lemma OneLink_done (L : list Z) (u : nat) (P : list nat)
    (lb : list (pot * option Z)) :
  OneLinkAt n t h r c [] L u P lb -> OneLink n t h c L (u :: P) lb.
Proof.
  intros [[Hlb [[_ Hrs] | [_ Hi]]] | [Hlb _]].
  - discriminate Hrs.
  - left. auto.
  - right. exact Hlb.
Qed.

(** From the tail of the link, when it is a through node, the search
    ends with the labels that the link gives to its head. *)
Lemma ShortestPath_OneLink :
  Network.firstThroughNode s0 <= Link.tail l ->
  exists s', Network.ShortestPath (Link.tail l) s0
             = Ok (labels_one_link n t h c) s'.
Proof.
  intros Hthru.
  destruct single_fstar as (_ & _ & Htail & Hhead & Ht & Hh & Hth).
  destruct (ShortestPath_invariant s0 W0 (OneLink n t h c)
              (OneLinkAt n t h r c))
    with (origin := Link.tail l) as (s' & P' & Hrun & _ & HI).
  - apply OneLink_select.
  - intros r' rs L u P lb l' c' v _ HJ _ Hl' Hc' _ Hh' _.
    apply (OneLink_step r' rs L u P lb l' c' v); assumption.
  - intros L u P lb _. apply OneLink_done.
  - fold n. lia.
  - left. fold n. fold t. split; [reflexivity|].
    exists (Z.of_nat t). split.
    + apply In_py_range. lia.
    + rewrite py_norm_nonneg by lia. f_equal. lia.
  - exists s'. destruct HI as [[_ (i & [] & _)] | Hlb].
    now rewrite <- Hlb.
Qed.

End SingleLink.



(* ------------------------------------------------------------------ *)
(** ** What ReadNetworkFile builds                                      *)
(* ------------------------------------------------------------------ *)

Lemma In_combine_seq {A} (l : list A) (a k : nat) (e : A) :
  In (k, e) (combine (seq a (List.length l)) l) ->
  (a <= k)%nat /\ nth_error l (k - a) = Some e.
Proof.
  revert a. induction l as [|x l IH]; intros a H; cbn in H; [contradiction|].
  destruct H as [H | H].
  - inversion H; subst. split; [lia|]. now rewrite Nat.sub_diag.
  - apply IH in H as [Hle Hn]. split; [lia|].
    replace (k - a)%nat with (S (k - S a)) by lia. exact Hn.
Qed.

(** The propositions of [Wf] decide [consistent]. *)
Lemma Wf_consistent (s : Network.t) : Wf s -> consistent s = true.
Proof.
  intros [Hnn Hfirst Hnode Hod]. unfold consistent.
  rewrite Hnn, Z.eqb_refl. cbn [andb].
  apply andb_true_intro. split; [apply andb_true_intro; split|].
  - apply Z.leb_le, Hfirst.
  - apply forallb_forall. intros [k e] Hin.
    apply In_combine_seq in Hin as [_ Hk]. rewrite Nat.sub_0_r in Hk.
    destruct (Hnode k e Hk) as (nd & -> & Hid & Hfs).
    unfold node_ok. cbn [fst snd]. rewrite Hid, Z.eqb_refl. cbn [andb].
    apply forallb_forall. intros r Hr.
    destruct (Hfs r Hr) as (l & c & Hl & Ht & Hh & Hc & Hkey).
    unfold link_ok. rewrite Hl, Hc, Hkey, Ht, Hid, Z.eqb_refl.
    rewrite (proj2 (node_id_ok_iff _ _) Hh). reflexivity.
  - apply forallb_forall. intros row Hrow. destruct (Hod row Hrow) as [Ho Hd].
    unfold od_row_ok. rewrite (proj2 (node_id_ok_iff _ _) Ho). cbn [andb].
    apply forallb_forall. intros e He. apply node_id_ok_iff, Hd, He.
Qed.

Lemma list_set_twice {A} (k : nat) (a b : A) (l : list A) :
  list_set k a (list_set k b l) = list_set k a l.
Proof.
  revert k. induction l as [|x l IH]; intros [|k]; cbn; auto. now rewrite IH.
Qed.

Lemma is_some_dict_set {V} (d : list (key * V)) (k k' : key) (v : V) :
  is_some (dict_get (dict_set d k v) k')
  = key_eqb k' k || is_some (dict_get d k').
Proof.
  induction d as [|[k0 v0] d IH]; cbn.
  - destruct (key_eqb k' k); reflexivity.
  - destruct (key_eqb k k0) eqn:E; cbn.
    + unfold key_eqb in *.
      apply andb_prop in E as [E1 E2]. apply Z.eqb_eq in E1, E2.
      rewrite <- E1, <- E2.
      destruct ((fst k' =? fst k) && (snd k' =? snd k)); reflexivity.
    + destruct (key_eqb k' k0); [now rewrite orb_true_r | exact IH].
Qed.

Lemma key_eqb_refl (k : key) : key_eqb k k = true.
Proof. unfold key_eqb. now rewrite !Z.eqb_refl. Qed.

Lemma CalcCost_Ok_inv (l l' : Link.t) (df tf : Q) :
  Link.CalcCost df tf l = Ok tt l' ->
  l' = Link.set_cost (Some (Link.bpr_cost l df tf)) l
  /\ Qeq_bool (Link.capacity l) 0 = false.
Proof.
  unfold Link.CalcCost, bind, py_div, py_pow.
  destruct (Qeq_bool (Link.capacity l) 0); [discriminate|]. cbn.
  destruct (Qeq_bool (Link.flow l / Link.capacity l) 0 && (Link.beta l <? 0));
    [discriminate|].
  cbn. intros H. inversion H. auto.
Qed.

(** The effect of the loop body on one end node of the link. *)
Lemma add_end_node_Ok_inv (data : LinkData) (r : nat) (i : Z) (s s' : Network.t) :
  Network.add_end_node data r i s = Ok tt s' ->
  exists k nd0,
    py_norm (List.length (Network.nodes s))
      ((if i =? 0 then d_tail data else d_head data) - 1) = Some k
    /\ (nth_error (Network.nodes s) k = Some (Some nd0)
        \/ exists nz,
             nth_error (Network.nodes s) k = Some None
             /\ Network.numZones s = Some nz
             /\ nd0 = Node.init ((if i =? 0 then d_tail data else d_head data) - 1 + 1)
                        ((if i =? 0 then d_tail data else d_head data) - 1 + 1 <=? nz))
    /\ s' = Network.set_nodes
              (list_set k (Some (if i =? 0 then Node.append_forwardStar r nd0
                                 else Node.append_reverseStar r nd0))) s.
Proof.
  unfold Network.add_end_node. intros H.
  apply bind_Ok_inv in H as (k & s1 & Hk & H).
  unfold Network.node_pos in Hk.
  destruct (py_norm _ _) as [k'|] eqn:Ek; [|discriminate].
  inversion Hk; subst k' s1; clear Hk.
  pose proof (py_norm_lt _ _ _ Ek) as Hlt.
  apply bind_Ok_inv in H as (entry & s1 & He & H).
  inversion He; subst entry s1; clear He.
  apply bind_Ok_inv in H as ([] & s1 & Hcreate & H).
  assert (Hupd : forall f nd0 s0,
            nth_error (Network.nodes s0) k = Some (Some nd0) ->
            Network.node_update k f s0
            = Ok tt (Network.set_nodes (list_set k (Some (f nd0))) s0)).
  { intros f nd0 s0 Hn. apply node_update_Ok, Hn. }
  destruct (nth k (Network.nodes s) None) as [nd0|] eqn:En.
  - inversion Hcreate; subst s1; clear Hcreate.
    assert (Hn : nth_error (Network.nodes s) k = Some (Some nd0)).
    { rewrite (nth_error_nth' _ None Hlt). now rewrite En. }
    exists k, nd0. split; [reflexivity|]. split; [left; exact Hn|].
    destruct (i =? 0); rewrite (Hupd _ nd0 s Hn) in H; now inversion H.
  - apply bind_Ok_inv in Hcreate as (nz & s2 & Hnz & Hcreate).
    unfold Network.assigned in Hnz.
    destruct (Network.numZones s) as [z|] eqn:Ez; [|discriminate].
    inversion Hnz; subst nz s2; clear Hnz.
    inversion Hcreate; subst s1; clear Hcreate.
    match type of H with
    | context [Network.set_nodes (list_set k (Some ?nd)) s] => set (nd0 := nd) in *
    end.
    assert (Hn : nth_error (Network.nodes
                              (Network.set_nodes (list_set k (Some nd0)) s)) k
                 = Some (Some nd0)).
    { cbn. apply nth_error_list_set_eq, Hlt. }
    exists k, nd0. split; [reflexivity|]. split.
    { right. exists z. split; [|split; reflexivity].
      rewrite (nth_error_nth' _ None Hlt). now rewrite En. }
    destruct (i =? 0); rewrite (Hupd _ nd0 _ Hn) in H; inversion H;
      destruct s; unfold Network.set_nodes; cbn; now rewrite list_set_twice.
Qed.

(** The state that the loop body leaves when it returns. *)
Lemma read_link_Ok_inv (linkID : Z) (data : LinkData) (s s' : Network.t) (k : Z) :
  Network.read_link linkID data s = Ok k s' ->
  exists df tf kt kh nt nh s1 s2,
    k = linkID + 1
    /\ Network.has_negative (tempLink_of linkID data) = false
    /\ Qeq_bool (d_capacity data) 0 = false
    /\ Network.distanceFactor s = Some df /\ Network.tollFactor s = Some tf
    /\ s1 = Network.set_links
              (fun d => dict_set d (d_tail data, d_head data)
                          (List.length (Network.heap s)))
              (Network.set_heap
                 (fun h => h ++ [loaded_link df tf linkID data])%list s)
    /\ py_norm (List.length (Network.nodes s)) (d_tail data - 1) = Some kt
    /\ (nth_error (Network.nodes s1) kt = Some (Some nt)
        \/ exists nz,
             nth_error (Network.nodes s1) kt = Some None
             /\ Network.numZones s1 = Some nz
             /\ nt = Node.init (d_tail data - 1 + 1) (d_tail data - 1 + 1 <=? nz))
    /\ s2 = Network.set_nodes
              (list_set kt (Some (Node.append_forwardStar
                                    (List.length (Network.heap s)) nt))) s1
    /\ py_norm (List.length (Network.nodes s)) (d_head data - 1) = Some kh
    /\ (nth_error (Network.nodes s2) kh = Some (Some nh)
        \/ exists nz,
             nth_error (Network.nodes s2) kh = Some None
             /\ Network.numZones s2 = Some nz
             /\ nh = Node.init (d_head data - 1 + 1) (d_head data - 1 + 1 <=? nz))
    /\ s' = Network.set_nodes
              (list_set kh (Some (Node.append_reverseStar
                                    (List.length (Network.heap s)) nh))) s2.
Proof.
  unfold Network.read_link. fold (tempLink_of linkID data). intros H.
  destruct (Network.has_negative (tempLink_of linkID data)) eqn:Hneg;
    [discriminate H|].
  apply bind_Ok_inv in H as ([] & s0 & H0 & H). inversion H0; subst s0; clear H0.
  apply bind_Ok_inv in H as (df & s0 & Hdf & H).
  unfold Network.assigned in Hdf.
  destruct (Network.distanceFactor s) as [df'|] eqn:Edf; [|discriminate].
  inversion Hdf; subst df' s0; clear Hdf.
  apply bind_Ok_inv in H as (tf & s0 & Htf & H).
  unfold Network.assigned in Htf.
  destruct (Network.tollFactor s) as [tf'|] eqn:Etf; [|discriminate].
  inversion Htf; subst tf' s0; clear Htf.
  apply bind_Ok_inv in H as (tl' & s0 & Hcc & H).
  unfold zoom in Hcc.
  destruct ((Link.CalcCost df tf;; gets (fun l => l)) (tempLink_of linkID data))
    as [a t0| |] eqn:Ecc; try discriminate.
  inversion Hcc; subst a s0; clear Hcc.
  apply bind_Ok_inv in Ecc as ([] & t1 & Hcalc & Hget).
  inversion Hget; subst; clear Hget.
  apply CalcCost_Ok_inv in Hcalc as [-> Hcap].
  fold (loaded_link df tf linkID data) in H.
  apply bind_Ok_inv in H as (r & s0 & Hr & H). inversion Hr; subst r s0; clear Hr.
  apply bind_Ok_inv in H as ([] & s0 & Hh & H). inversion Hh; subst s0; clear Hh.
  apply bind_Ok_inv in H as ([] & s1 & Hl & H). inversion Hl; subst s1; clear Hl.
  apply bind_Ok_inv in H as ([] & s3 & Hends & H). inversion H; subst; clear H.
  cbn [for_each] in Hends.
  apply bind_Ok_inv in Hends as ([] & s2 & H1 & Hends).
  apply bind_Ok_inv in Hends as ([] & s4 & H2 & Hends).
  inversion Hends; subst s4; clear Hends.
  apply add_end_node_Ok_inv in H1 as (kt & nt & Hkt & Hnt & ->).
  apply add_end_node_Ok_inv in H2 as (kh & nh & Hkh & Hnh & ->).
  cbn [Z.eqb] in *.
  exists df, tf, kt, kh, nt, nh. eexists. eexists.
  split; [reflexivity|]. split; [reflexivity|]. split; [exact Hcap|].
  split; [reflexivity|]. split; [reflexivity|]. split; [reflexivity|].
  split; [exact Hkt|]. split; [exact Hnt|]. split; [reflexivity|].
  split; [|split; [exact Hnh | reflexivity]].
  cbn in Hkh. rewrite length_list_set in Hkh. exact Hkh.
Qed.

Lemma py_norm_nonneg_inv (n : nat) (i : Z) (k : nat) :
  0 <= i -> py_norm n i = Some k -> k = Z.to_nat i /\ i < Z.of_nat n.
Proof.
  intros H0. unfold py_norm. apply Z.leb_le in H0. rewrite H0.
  destruct (i <? Z.of_nat n) eqn:E; [|discriminate].
  intros H. inversion H. apply Z.ltb_lt in E. auto.
Qed.

(** One data line whose end nodes have positive IDs keeps the nodes
    created so far well formed, and appends its Link object to the
    store. *)
Lemma read_link_step (linkID : Z) (data : LinkData) (s s' : Network.t) (k : Z)
    (df tf : Q) :
  Loading s ->
  1 <= d_tail data -> 1 <= d_head data ->
  Network.distanceFactor s = Some df -> Network.tollFactor s = Some tf ->
  Network.read_link linkID data s = Ok k s' ->
  Loading s'
  /\ k = linkID + 1
  /\ Network.heap s' = (Network.heap s ++ [loaded_link df tf linkID data])%list
  /\ Network.has_negative (tempLink_of linkID data) = false
  /\ Qeq_bool (d_capacity data) 0 = false
  /\ List.length (Network.nodes s') = List.length (Network.nodes s)
  /\ Network.numNodes s' = Network.numNodes s
  /\ Network.firstThroughNode s' = Network.firstThroughNode s
  /\ Network.ODpairs s' = Network.ODpairs s
  /\ Network.distanceFactor s' = Network.distanceFactor s
  /\ Network.tollFactor s' = Network.tollFactor s
  /\ Network.numLinks s' = Network.numLinks s.
Proof.
  intros HL Ht Hh Hdf Htf H.
  apply read_link_Ok_inv in H
    as (df' & tf' & kt & kh & nt & nh & s1 & s2 & -> & Hneg & Hcap & Hdf' & Htf'
        & Hs1 & Hkt & Hnt & Hs2 & Hkh & Hnh & Hs').
  assert (df' = df) by congruence. assert (tf' = tf) by congruence.
  subst df' tf'. clear Hdf' Htf'.
  apply py_norm_nonneg_inv in Hkt as [Hkt Htn]; [|lia].
  apply py_norm_nonneg_inv in Hkh as [Hkh Hhn]; [|lia].
  set (r := List.length (Network.heap s)) in *.
  set (lk := loaded_link df tf linkID data) in *.
  set (W := fun (k : nat) (nd : Node.t) =>
         Node.ID nd = Z.of_nat k + 1 /\
         forall r0, In r0 (Node.forwardStar nd) ->
           exists l c, nth_error (Network.heap s ++ [lk]) r0 = Some l /\
             Link.tail l = Node.ID nd /\
             1 <= Link.head l <= Z.of_nat (List.length (Network.nodes s)) /\
             Link.cost l = Some c /\
             is_some (dict_get (dict_set (Network.links s)
                                  (d_tail data, d_head data) r)
                        (Link.tail l, Link.head l)) = true).
  assert (Hold : forall k nd,
            nth_error (Network.nodes s) k = Some (Some nd) -> W k nd).
  { intros k nd Hk. destruct (HL k nd Hk) as [Hid Hfs]. split; [exact Hid|].
    intros r0 Hr0. destruct (Hfs r0 Hr0) as (l & c & Hl & Htl & Hhd & Hc & Hkey).
    exists l, c. split; [|repeat split; auto; try lia].
    - rewrite nth_error_app1; [exact Hl|]. apply nth_error_Some. congruence.
    - rewrite is_some_dict_set, Hkey. apply orb_true_r. }
  assert (Hnew : exists l c, nth_error (Network.heap s ++ [lk]) r = Some l /\
             Link.tail l = d_tail data /\
             1 <= Link.head l <= Z.of_nat (List.length (Network.nodes s)) /\
             Link.cost l = Some c /\
             is_some (dict_get (dict_set (Network.links s)
                                  (d_tail data, d_head data) r)
                        (Link.tail l, Link.head l)) = true).
  { exists lk. eexists. split; [|split; [|split; [|split]]].
    - rewrite nth_error_app2 by (unfold r; lia). unfold r.
      rewrite Nat.sub_diag. reflexivity.
    - reflexivity.
    - cbn. lia.
    - reflexivity.
    - cbn. rewrite is_some_dict_set, key_eqb_refl. reflexivity. }
  assert (Hnt' : W kt nt).
  { destruct Hnt as [Hnt | (nz & _ & _ & ->)].
    - apply Hold. subst s1. exact Hnt.
    - split; [cbn; lia | intros r0 []]. }
  assert (HntF : W kt (Node.append_forwardStar r nt)).
  { destruct Hnt' as [Hid Hfs]. split; [exact Hid|]. cbn.
    intros r0 Hr0. apply in_app_or in Hr0 as [Hr0 | [<- | []]].
    - apply Hfs, Hr0.
    - destruct Hnew as (l & c & Hl & Htl & Hrest).
      exists l, c. split; [exact Hl|]. split; [lia | exact Hrest]. }
  assert (Hnh' : W kh nh).
  { destruct Hnh as [Hnh | (nz & _ & _ & ->)].
    - subst s2 s1. cbn in Hnh.
      destruct (Nat.eq_dec kh kt) as [E | E].
      + rewrite E in Hnh |- *. rewrite nth_error_list_set_eq in Hnh.
        * inversion Hnh. exact HntF.
        * lia.
      + rewrite nth_error_list_set_neq in Hnh by exact E. apply Hold, Hnh.
    - split; [cbn; lia | intros r0 []]. }
  assert (HnhR : W kh (Node.append_reverseStar r nh)).
  { destruct Hnh' as [Hid Hfs]. split; [exact Hid | exact Hfs]. }
  split.
  - intros k nd Hk. subst s' s2 s1. cbn in Hk.
    assert (HW : W k nd).
    { destruct (Nat.eq_dec k kh) as [-> | E1].
      - rewrite nth_error_list_set_eq in Hk
          by (rewrite length_list_set; lia).
        inversion Hk. exact HnhR.
      - rewrite nth_error_list_set_neq in Hk by exact E1.
        destruct (Nat.eq_dec k kt) as [-> | E2].
        + rewrite nth_error_list_set_eq in Hk by lia.
          inversion Hk. exact HntF.
        + rewrite nth_error_list_set_neq in Hk by exact E2.
          apply Hold, Hk. }
    unfold node_wf. cbn. rewrite !length_list_set. exact HW.
  - subst s' s2 s1. cbn. rewrite !length_list_set.
    repeat split; auto.
Qed.

Lemma read_links_loop (df tf : Q) (lines : list LinkData) :
  forall linkID s k s',
  Loading s ->
  (forall d, In d lines -> 1 <= d_tail d /\ 1 <= d_head d) ->
  Network.distanceFactor s = Some df -> Network.tollFactor s = Some tf ->
  for_fold lines Network.read_link linkID s = Ok k s' ->
  Loading s'
  /\ k = linkID + Z.of_nat (List.length lines)
  /\ Network.heap s' = (Network.heap s ++ loaded_links df tf linkID lines)%list
  /\ Forall accepted_line lines
  /\ List.length (Network.nodes s') = List.length (Network.nodes s)
  /\ Network.numNodes s' = Network.numNodes s
  /\ Network.firstThroughNode s' = Network.firstThroughNode s
  /\ Network.ODpairs s' = Network.ODpairs s
  /\ Network.numLinks s' = Network.numLinks s.
Proof.
  induction lines as [|data lines IH]; intros linkID s k s' HL Hpos Hdf Htf H.
  - cbn in H. inversion H; subst. cbn. rewrite app_nil_r.
    split; [exact HL|]. split; [lia|]. split; [reflexivity|].
    split; [constructor|]. repeat split.
  - cbn [for_fold] in H. apply bind_Ok_inv in H as (k1 & s1 & H1 & H).
    destruct (Hpos data (or_introl eq_refl)) as [Ht Hh].
    destruct (read_link_step linkID data s s1 k1 df tf HL Ht Hh Hdf Htf H1)
      as (HL1 & -> & Hheap & Hneg & Hcap & Hlen & Hnn & Hf & Hod & Hdf1 & Htf1 & Hnl).
    destruct (IH (linkID + 1) s1 k s' HL1
                (fun d Hd => Hpos d (or_intror Hd))) as
      (HL' & -> & Hheap' & Hacc & Hlen' & Hnn' & Hf' & Hod' & Hnl');
      [congruence | congruence | exact H |].
    split; [exact HL'|]. split; [cbn [List.length]; lia|].
    split; [rewrite Hheap', Hheap, <- app_assoc; reflexivity|].
    split; [constructor; [split; assumption | exact Hacc]|].
    repeat split; congruence.
Qed.

Lemma count_zones_Ok (ns : list (option Node.t)) (s s' : Network.t) (c : Z) :
  Network.count_zones ns s = Ok c s' ->
  s' = s /\ forall e, In e ns -> e <> None.
Proof.
  revert c. induction ns as [|[nd|] ns IH]; intros c H; cbn in H.
  - inversion H. split; [reflexivity | intros e []].
  - apply bind_Ok_inv in H as (c' & s1 & H1 & H). inversion H; subst.
    destruct (IH c' H1) as [-> Hall]. split; [reflexivity|].
    intros e [<- | He]; [discriminate | apply Hall, He].
  - discriminate H.
Qed.

(** The state in which ReadNetworkFile returns, from a state without OD
    pairs, for a file whose node IDs are positive. *)
Lemma ReadNetworkFile_Ok_inv (md : Metadata) (lines : list LinkData)
    (s0 s : Network.t) :
  Network.ReadNetworkFile md lines s0 = Ok tt s ->
  (forall d, In d lines -> 1 <= d_tail d /\ 1 <= d_head d) ->
  Loading s
  /\ (forall e, In e (Network.nodes s) -> e <> None)
  /\ Network.heap s
     = (Network.heap s0
        ++ loaded_links (md_distanceFactor md) (md_tollFactor md) 0 lines)%list
  /\ Forall accepted_line lines
  /\ List.length (Network.nodes s) = Z.to_nat (md_numNodes md)
  /\ Network.numNodes s = Some (md_numNodes md)
  /\ Network.firstThroughNode s = md_firstThruNode md
  /\ Network.ODpairs s = Network.ODpairs s0
  /\ Network.numLinks s = Some (Z.of_nat (List.length lines)).
Proof.
  intros H Hpos. unfold Network.ReadNetworkFile in H.
  apply bind_Ok_inv in H as ([] & s1 & H1 & H). inversion H1; subst s1; clear H1.
  apply bind_Ok_inv in H as (nz & s1 & H1 & H). inversion H1; subst nz s1; clear H1.
  apply bind_Ok_inv in H as ([] & s2 & H2 & H).
  assert (Hs2 : Network.nodes s2 = repeat None (Z.to_nat (md_numNodes md))
                /\ Network.heap s2 = Network.heap s0
                /\ Network.numNodes s2 = Some (md_numNodes md)
                /\ Network.firstThroughNode s2 = md_firstThruNode md
                /\ Network.ODpairs s2 = Network.ODpairs s0).
  { cbn in H2. destruct (Network.numZones s0) as [z|].
    - destruct (z =? md_numZones md); inversion H2. cbn. auto.
    - inversion H2. cbn. auto. }
  clear H2. destruct Hs2 as (Hn2 & Hh2 & Hnn2 & Hf2 & Hod2).
  apply bind_Ok_inv in H as ([] & s3 & H3 & H). inversion H3; subst s3; clear H3.
  apply bind_Ok_inv in H as (linkID & s4 & Hloop & H).
  apply (read_links_loop (md_distanceFactor md) (md_tollFactor md)) in Hloop
    as (HL & -> & Hheap & Hacc & Hlen & Hnn & Hf & Hod & Hnl);
    [| | exact Hpos | reflexivity | reflexivity].
  2:{ intros k nd Hk. cbn in Hk. rewrite Hn2 in Hk.
      apply nth_error_In, repeat_spec in Hk. discriminate Hk. }
  cbn in Hheap, Hlen, Hnn, Hf, Hod.
  rewrite Hh2 in Hheap. rewrite Hn2, repeat_length in Hlen.
  rewrite Hnn2 in Hnn. rewrite Hf2 in Hf. rewrite Hod2 in Hod.
  apply bind_Ok_inv in H as (nl & s5 & H5 & H). inversion H5; subst nl s5; clear H5.
  apply bind_Ok_inv in H as ([] & s5 & H5 & H).
  assert (Hs5 : Network.nodes s5 = Network.nodes s4
                /\ Network.heap s5 = Network.heap s4
                /\ Network.links s5 = Network.links s4
                /\ Network.numNodes s5 = Network.numNodes s4
                /\ Network.firstThroughNode s5 = Network.firstThroughNode s4
                /\ Network.ODpairs s5 = Network.ODpairs s4
                /\ Network.numLinks s5 = Some (Z.of_nat (List.length lines))).
  { destruct (Network.numLinks s4) as [v|] eqn:Ev.
    - destruct (Z.eqb_spec v (0 + Z.of_nat (List.length lines))) as [E|E];
        inversion H5; subst; cbn; repeat split; auto;
        try (rewrite Ev; f_equal; lia); try (f_equal; lia).
    - inversion H5; subst; cbn; repeat split; auto. }
  clear H5. destruct Hs5 as (Hn5 & Hh5 & Hl5 & Hnn5 & Hf5 & Hod5 & Hnl5).
  apply bind_Ok_inv in H as (ns & s6 & H6 & H). inversion H6; subst ns s6; clear H6.
  apply bind_Ok_inv in H as (nz' & s6 & H6 & H).
  apply count_zones_Ok in H6 as [-> Hall].
  apply bind_Ok_inv in H as (nz2 & s6 & H6 & H). inversion H6; subst nz2 s6; clear H6.
  assert (Hs : Network.nodes s = Network.nodes s5
               /\ Network.heap s = Network.heap s5
               /\ Network.links s = Network.links s5
               /\ Network.numNodes s = Network.numNodes s5
               /\ Network.firstThroughNode s = Network.firstThroughNode s5
               /\ Network.ODpairs s = Network.ODpairs s5
               /\ Network.numLinks s = Network.numLinks s5).
  { destruct (match Network.numZones s5 with
              | Some v => v =? nz'
              | None => false
              end); inversion H; subst; cbn; repeat split; auto. }
  destruct Hs as (Hn & Hh & Hl & Hnn' & Hf' & Hod' & Hnl').
  split.
  { intros k nd Hk. rewrite Hn, Hn5 in Hk. destruct (HL k nd Hk) as [Hid Hfs].
    split; [exact Hid|]. intros r Hr. rewrite Hh, Hh5, Hl, Hl5, Hn, Hn5.
    apply Hfs, Hr. }
  split; [rewrite Hn; exact Hall|].
  repeat split; try congruence.
Qed.

Lemma accepted_line_bounds (data : LinkData) :
  accepted_line data ->
  (0 < d_capacity data)%Q /\ (0 <= d_length data)%Q
  /\ (0 <= d_freeFlowTime data)%Q /\ (0 <= d_alpha data)%Q
  /\ 0 <= d_beta data /\ (0 <= d_speedLimit data)%Q /\ (0 <= d_toll data)%Q.
Proof.
  intros [Hneg Hcap]. unfold Network.has_negative in Hneg. cbn in Hneg.
  repeat (apply orb_false_iff in Hneg as [Hneg ?]).
  repeat match goal with
         | H : Qltb _ _ = false |- _ => apply Qltb_false in H
         | H : (_ <? _) = false |- _ => apply Z.ltb_ge in H
         end.
  repeat split; auto.
  apply Qle_lteq in Hneg as [Hlt | Heq]; [exact Hlt|].
  exfalso. symmetry in Heq. apply Qeq_bool_iff in Heq. congruence.
Qed.

(** The cost of a link as loaded, at flow 0, is not negative when the
    factors are not. *)
Lemma loaded_link_cost (df tf : Q) (linkID : Z) (data : LinkData) :
  accepted_line data -> (0 <= df)%Q -> (0 <= tf)%Q ->
  exists c, Link.cost (loaded_link df tf linkID data) = Some c /\ (0 <= c)%Q.
Proof.
  intros Hacc Hdf Htf.
  destruct (accepted_line_bounds data Hacc) as (Hcap & Hlen & Hfft & Hal & Hbeta & _ & Htoll).
  eexists. split; [reflexivity|].
  unfold Link.bpr_cost, tempLink_of. cbn.
  assert (Hp : (0 <= (0 / d_capacity data) ^ d_beta data)%Q).
  { apply Qpower_0_le. unfold Qdiv. rewrite Qmult_0_l. apply Qle_refl. }
  pose proof (Qmult_le_0_compat _ _ Hal Hp) as H1.
  assert (H2 : (0 <= 1 + d_alpha data * (0 / d_capacity data) ^ d_beta data)%Q)
    by lra.
  pose proof (Qmult_le_0_compat _ _ Hfft H2) as H3.
  pose proof (Qmult_le_0_compat _ _ Hdf Hlen) as H4.
  pose proof (Qmult_le_0_compat _ _ Htf Htoll) as H5.
  lra.
Qed.

Lemma loaded_links_In (df tf : Q) (lines : list LinkData) :
  forall linkID l, In l (loaded_links df tf linkID lines) ->
  exists k data, In data lines /\ l = loaded_link df tf k data.
Proof.
  induction lines as [|data lines IH]; intros linkID l H; cbn in H; [contradiction|].
  destruct H as [<- | H].
  - exists linkID, data. split; [left|]; reflexivity.
  - destruct (IH _ _ H) as (k & d & Hd & ->). exists k, d. split; [right|]; auto.
Qed.

(** The loader establishes the invariants of the data model. *)
Lemma net_consistent (md : Metadata) (lines : list LinkData)
    (s0 s : Network.t) :
  Network.ReadNetworkFile md lines s0 = Ok tt s ->
  Network.ODpairs s0 = [] ->
  0 <= md_numNodes md ->
  1 - md_numNodes md <= md_firstThruNode md ->
  (forall d, In d lines -> 1 <= d_tail d /\ 1 <= d_head d) ->
  consistent s = true.
Proof.
  intros H Hod HN Hf Hpos.
  destruct (ReadNetworkFile_Ok_inv md lines s0 s H Hpos)
    as (HL & Hall & _ & _ & Hlen & Hnn & Hfirst & Hod' & _).
  apply Wf_consistent. constructor.
  - rewrite Hnn, Hlen. f_equal. lia.
  - rewrite Hlen, Hfirst. lia.
  - intros k e Hk. destruct e as [nd|].
    + exists nd. split; [reflexivity|]. apply (HL k nd Hk).
    + exfalso. apply (Hall None); [|reflexivity]. apply (nth_error_In _ _ Hk).
  - rewrite Hod', Hod. intros row [].
Qed.

(** X1: a file that ReadNetworkFile reads without error, into a network
    without OD pairs, gives a consistent network, provided its node count
    is not negative, its first through node is at least 1 - numNodes and
    the links of its data lines have positive node IDs: every position of
    the node list holds the node of that ID, and every link of a forward
    star is stored, starts at its node, ends at a node of the network, has
    a cost and is filed under its key. *)
Theorem ReadNetworkFile_consistent (md : Metadata) (lines : list LinkData)
    (s0 s : Network.t) :
  Network.ReadNetworkFile md lines s0 = Ok tt s ->
  Network.ODpairs s0 = [] ->
  0 <= md_numNodes md ->
  1 - md_numNodes md <= md_firstThruNode md ->
  (forall d, In d lines -> 1 <= d_tail d /\ 1 <= d_head d) ->
  consistent s = true.
Proof. exact (net_consistent md lines s0 s). Qed.

Lemma ReadNetworkFile_consistent_witness : consistent one_link = true.
Proof.
  apply (ReadNetworkFile_consistent (mkMetadata 2 1 1 2 0 0) [line 1 2 100 4]
           Network.init one_link).
  - vm_compute. reflexivity.
  - reflexivity.
  - cbn. lia.
  - cbn. lia.
  - intros d [<- | []]. cbn. lia.
Defined.

(** The costs that the loader assigns. *)
Lemma net_nonneg_costs (md : Metadata) (lines : list LinkData)
    (s0 s : Network.t) :
  Network.ReadNetworkFile md lines s0 = Ok tt s ->
  Network.heap s0 = [] ->
  (0 <= md_distanceFactor md)%Q -> (0 <= md_tollFactor md)%Q ->
  (forall d, In d lines -> 1 <= d_tail d /\ 1 <= d_head d) ->
  nonneg_costs s = true.
Proof.
  intros H Hh0 Hdf Htf Hpos.
  destruct (ReadNetworkFile_Ok_inv md lines s0 s H Hpos)
    as (_ & _ & Hheap & Hacc & _).
  unfold nonneg_costs. rewrite Hheap, Hh0. cbn [app].
  apply forallb_forall. intros l Hl.
  apply loaded_links_In in Hl as (k & data & Hd & ->).
  rewrite Forall_forall in Hacc.
  destruct (loaded_link_cost (md_distanceFactor md) (md_tollFactor md) k data
              (Hacc data Hd) Hdf Htf) as (c & Hc & Hc0).
  rewrite Hc. apply Qle_bool_iff, Hc0.
Qed.

(* ------------------------------------------------------------------ *)
(** ** ReadNetworkFile: the stars of the nodes                          *)
(* ------------------------------------------------------------------ *)

Lemma refs_from_snoc (f : Link.t -> bool) (heap : list Link.t) (l : Link.t) :
  forall base,
  refs_from f base (heap ++ [l])
  = (refs_from f base heap
     ++ (if f l then [(base + List.length heap)%nat] else []))%list.
Proof.
  induction heap as [|l0 heap IH]; intros base; cbn.
  - rewrite Nat.add_0_r. now rewrite !app_nil_r.
  - rewrite IH. rewrite <- app_assoc.
    now replace (S base + List.length heap)%nat
      with (base + S (List.length heap))%nat by lia.
Qed.

Lemma In_refs_from (f : Link.t -> bool) (heap : list Link.t) :
  forall base r,
  In r (refs_from f base heap)
  <-> exists l, (base <= r)%nat /\ nth_error heap (r - base) = Some l /\ f l = true.
Proof.
  induction heap as [|l0 heap IH]; intros base r; cbn.
  - split; [intros [] | intros (l & _ & H & _)].
    destruct (r - base)%nat; discriminate.
  - rewrite in_app_iff, IH. split.
    + intros [H | (l & Hle & Hl & Hf)].
      * destruct (f l0) eqn:E; [|contradiction].
        destruct H as [<- | []]. exists l0. rewrite Nat.sub_diag. auto.
      * exists l. split; [lia|]. split; [|exact Hf].
        replace (r - base)%nat with (S (r - S base)) by lia. exact Hl.
    + intros (l & Hle & Hl & Hf).
      destruct (Nat.eq_dec r base) as [-> | Hne].
      * rewrite Nat.sub_diag in Hl. inversion Hl; subst l0.
        left. rewrite Hf. now left.
      * right. exists l. split; [lia|]. split; [|exact Hf].
        replace (r - base)%nat with (S (r - S base)) in Hl by lia. exact Hl.
Qed.

(** One data line adds its link to the forward star of its tail and to
    the reverse star of its head, and creates these nodes if need be. *)
Lemma read_link_stars (nz linkID : Z) (data : LinkData) (s s' : Network.t) (k : Z) :
  Stars nz s -> Network.numZones s = Some nz ->
  1 <= d_tail data -> 1 <= d_head data ->
  Network.read_link linkID data s = Ok k s' ->
  Stars nz s' /\ Network.numZones s' = Some nz.
Proof.
  intros HS Hnz Ht Hh H.
  apply read_link_Ok_inv in H
    as (df & tf & kt & kh & nt & nh & s1 & s2 & -> & _ & _ & _ & _
        & Hs1 & Hkt & Hnt & Hs2 & Hkh & Hnh & Hs').
  apply py_norm_nonneg_inv in Hkt as [Hkt Htn]; [|lia].
  apply py_norm_nonneg_inv in Hkh as [Hkh Hhn]; [|lia].
  set (r := List.length (Network.heap s)) in *.
  set (lk := loaded_link df tf linkID data) in *.
  assert (Etail : Link.tail lk = Z.of_nat kt + 1) by (cbn; lia).
  assert (Ehead : Link.head lk = Z.of_nat kh + 1) by (cbn; lia).
  assert (Hout : forall j,
            refs_from (leaves (Z.of_nat j + 1)) 0 (Network.heap s ++ [lk])
            = (refs_from (leaves (Z.of_nat j + 1)) 0 (Network.heap s)
               ++ (if Nat.eqb j kt then [r] else []))%list).
  { intros j. rewrite refs_from_snoc. f_equal. unfold leaves. rewrite Etail.
    destruct (Nat.eqb_spec j kt) as [->|Hne].
    - now rewrite Z.eqb_refl.
    - destruct (Z.eqb_spec (Z.of_nat kt + 1) (Z.of_nat j + 1)); [lia | reflexivity]. }
  assert (Hin : forall j,
            refs_from (enters (Z.of_nat j + 1)) 0 (Network.heap s ++ [lk])
            = (refs_from (enters (Z.of_nat j + 1)) 0 (Network.heap s)
               ++ (if Nat.eqb j kh then [r] else []))%list).
  { intros j. rewrite refs_from_snoc. f_equal. unfold enters. rewrite Ehead.
    destruct (Nat.eqb_spec j kh) as [->|Hne].
    - now rewrite Z.eqb_refl.
    - destruct (Z.eqb_spec (Z.of_nat kh + 1) (Z.of_nat j + 1)); [lia | reflexivity]. }
  assert (Hnodes1 : Network.nodes s1 = Network.nodes s) by (subst s1; reflexivity).
  assert (Hnz1 : Network.numZones s1 = Some nz) by (subst s1; exact Hnz).
  assert (Hnz2 : Network.numZones s2 = Some nz) by (subst s2; exact Hnz1).
  (* the node of the tail, with respect to the links read before *)
  assert (HNt : star_node nz (Network.heap s) kt nt).
  { destruct Hnt as [Hnt | (nz' & Hnone & Hz & ->)].
    - rewrite Hnodes1 in Hnt. apply (HS kt _ Hnt).
    - rewrite Hnodes1 in Hnone. destruct (HS kt _ Hnone) as [Ho Hi].
      assert (nz' = nz) by congruence. subst nz'.
      unfold star_node. cbn. rewrite Ho, Hi.
      replace (d_tail data - 1 + 1) with (Z.of_nat kt + 1) by lia.
      repeat split. }
  set (nt' := Node.append_forwardStar r nt) in *.
  assert (Hnodes2 : Network.nodes s2 = list_set kt (Some nt') (Network.nodes s)).
  { subst s2. cbn. now rewrite Hnodes1. }
  (* the node of the head, with the forward star of this line if it is
     the tail as well *)
  assert (HNh : Node.ID nh = Z.of_nat kh + 1
                /\ Node.isZone nh = (Z.of_nat kh + 1 <=? nz)
                /\ Node.forwardStar nh
                   = refs_from (leaves (Z.of_nat kh + 1)) 0 (Network.heap s ++ [lk])
                /\ Node.reverseStar nh
                   = refs_from (enters (Z.of_nat kh + 1)) 0 (Network.heap s)
                /\ Node.potential nh = PInf /\ Node.pre nh = None).
  { destruct Hnh as [Hnh | (nz' & Hnone & Hz & ->)].
    - rewrite Hnodes2 in Hnh.
      destruct (Nat.eq_dec kh kt) as [E | E].
      + rewrite E in Hnh |- *.
        rewrite nth_error_list_set_eq in Hnh by lia.
        inversion Hnh; subst nh.
        destruct HNt as (H1 & H2 & H3 & H4 & H5 & H6).
        rewrite Hout, Nat.eqb_refl. unfold nt'. cbn. rewrite H3.
        repeat split; assumption.
      + rewrite nth_error_list_set_neq in Hnh by exact E.
        destruct (HS kh _ Hnh) as [(H1 & H2 & H3 & H4 & H5 & H6) _].
        rewrite Hout. destruct (Nat.eqb_spec kh kt); [contradiction|].
        rewrite app_nil_r. repeat split; assumption.
    - rewrite Hnodes2 in Hnone.
      assert (E : kh <> kt).
      { intros E. rewrite E in Hnone.
        rewrite nth_error_list_set_eq in Hnone by lia. discriminate. }
      rewrite nth_error_list_set_neq in Hnone by exact E.
      destruct (HS kh _ Hnone) as [Ho Hi].
      assert (nz' = nz) by congruence. subst nz'.
      rewrite Hout. destruct (Nat.eqb_spec kh kt); [contradiction|].
      cbn. rewrite Ho, Hi.
      replace (d_head data - 1 + 1) with (Z.of_nat kh + 1) by lia.
      repeat split. }
  split; [|subst s'; exact Hnz2].
  intros j e Hj. subst s'. cbn in Hj. rewrite Hnodes2 in Hj.
  assert (Hheap : Network.heap
                    (Network.set_nodes
                       (list_set kh (Some (Node.append_reverseStar r nh))) s2)
                  = (Network.heap s ++ [lk])%list).
  { subst s2 s1. reflexivity. }
  rewrite Hheap.
  destruct (Nat.eq_dec j kh) as [-> | E1].
  - rewrite nth_error_list_set_eq in Hj by (rewrite length_list_set; lia).
    inversion Hj; subst e.
    destruct HNh as (H1 & H2 & H3 & H4 & H5 & H6).
    unfold star_node. cbn. rewrite Hin, Nat.eqb_refl, H4.
    split; [repeat split; assumption|].
    intros Habs. apply app_eq_nil in Habs as [_ Habs].
    apply app_eq_nil in Habs as [_ Habs]. discriminate.
  - rewrite nth_error_list_set_neq in Hj by exact E1.
    destruct (Nat.eq_dec j kt) as [-> | E2].
    + rewrite nth_error_list_set_eq in Hj by lia.
      inversion Hj; subst e.
      destruct HNt as (H1 & H2 & H3 & H4 & H5 & H6).
      unfold star_node, nt'. cbn. rewrite Hout, Hin, Nat.eqb_refl, H3, H4.
      destruct (Nat.eqb_spec kt kh); [contradiction|]. rewrite app_nil_r.
      split; [repeat split; assumption|].
      intros Habs. apply app_eq_nil in Habs as [Habs _].
      apply app_eq_nil in Habs as [_ Habs]. discriminate.
    + rewrite nth_error_list_set_neq in Hj by exact E2.
      specialize (HS j e Hj). unfold star_node in *. rewrite !Hout, !Hin.
      destruct (Nat.eqb_spec j kt); [contradiction|].
      destruct (Nat.eqb_spec j kh); [contradiction|].
      rewrite !app_nil_r. exact HS.
Qed.

Lemma read_links_stars (nz : Z) (lines : list LinkData) :
  forall linkID s k s',
  Stars nz s -> Network.numZones s = Some nz ->
  (forall d, In d lines -> 1 <= d_tail d /\ 1 <= d_head d) ->
  for_fold lines Network.read_link linkID s = Ok k s' ->
  Stars nz s' /\ Network.numZones s' = Some nz.
Proof.
  induction lines as [|data lines IH]; intros linkID s k s' HS Hnz Hpos H.
  - cbn in H. inversion H; subst. auto.
  - cbn [for_fold] in H. apply bind_Ok_inv in H as (k1 & s1 & H1 & H).
    destruct (Hpos data (or_introl eq_refl)) as [Ht Hh].
    destruct (read_link_stars nz linkID data s s1 k1 HS Hnz Ht Hh H1) as [HS1 Hnz1].
    apply (IH _ s1 k s' HS1 Hnz1 (fun d Hd => Hpos d (or_intror Hd)) H).
Qed.

Lemma count_zones_value (ns : list (option Node.t)) (s s' : Network.t) (c : Z) :
  Network.count_zones ns s = Ok c s' -> c = zone_count ns.
Proof.
  unfold zone_count. revert c.
  induction ns as [|[nd|] ns IH]; intros c H; cbn in H.
  - inversion H. reflexivity.
  - apply bind_Ok_inv in H as (c' & s1 & H1 & H). inversion H; subst.
    rewrite (IH c' H1). cbn [filter].
    destruct (Node.isZone nd); cbn [List.length]; lia.
  - discriminate H.
Qed.

(** The loop of ReadNetworkFile, between the metadata and the
    verifications. *)
Lemma ReadNetworkFile_loop (md : Metadata) (lines : list LinkData)
    (s0 s : Network.t) :
  Network.ReadNetworkFile md lines s0 = Ok tt s ->
  exists s2 s4 linkID,
    Network.nodes s2 = repeat None (Z.to_nat (md_numNodes md))
    /\ Network.heap s2 = Network.heap s0
    /\ Network.numZones s2 = Some (md_numZones md)
    /\ for_fold lines Network.read_link 0 s2 = Ok linkID s4
    /\ Network.nodes s = Network.nodes s4
    /\ Network.heap s = Network.heap s4
    /\ (forall e, In e (Network.nodes s) -> e <> None)
    /\ Network.numZones s = Some (zone_count (Network.nodes s)).
Proof.
  intros H. unfold Network.ReadNetworkFile in H.
  apply bind_Ok_inv in H as ([] & s1 & H1 & H). inversion H1; subst s1; clear H1.
  apply bind_Ok_inv in H as (nz & s1 & H1 & H). inversion H1; subst nz s1; clear H1.
  apply bind_Ok_inv in H as ([] & s2 & H2 & H).
  assert (Hs2 : Network.nodes s2 = repeat None (Z.to_nat (md_numNodes md))
                /\ Network.heap s2 = Network.heap s0
                /\ Network.numZones s2 = Some (md_numZones md)).
  { cbn in H2. destruct (Network.numZones s0) as [z|] eqn:Ez.
    - destruct (Z.eqb_spec z (md_numZones md)); inversion H2. cbn.
      rewrite Ez. repeat split. congruence.
    - inversion H2. cbn. auto. }
  clear H2. destruct Hs2 as (Hn2 & Hh2 & Hz2).
  apply bind_Ok_inv in H as ([] & s3 & H3 & H). inversion H3; subst s3; clear H3.
  apply bind_Ok_inv in H as (linkID & s4 & Hloop & H).
  apply bind_Ok_inv in H as (nl & s5 & H5 & H). inversion H5; subst nl s5; clear H5.
  apply bind_Ok_inv in H as ([] & s5 & H5 & H).
  assert (Hs5 : Network.nodes s5 = Network.nodes s4
                /\ Network.heap s5 = Network.heap s4).
  { destruct (match Network.numLinks s4 with
              | Some v => v =? linkID
              | None => false
              end); inversion H5; subst; cbn; auto. }
  clear H5. destruct Hs5 as (Hn5 & Hh5).
  apply bind_Ok_inv in H as (ns & s6 & H6 & H). inversion H6; subst ns s6; clear H6.
  apply bind_Ok_inv in H as (nz' & s6 & H6 & H).
  pose proof (count_zones_value _ _ _ _ H6) as Hcount.
  apply count_zones_Ok in H6 as [-> Hall].
  apply bind_Ok_inv in H as (nz2 & s6 & H6 & H). inversion H6; subst nz2 s6; clear H6.
  assert (Hs : Network.nodes s = Network.nodes s5
               /\ Network.heap s = Network.heap s5
               /\ Network.numZones s = Some nz').
  { destruct (Network.numZones s5) as [v|] eqn:Ev.
    - destruct (Z.eqb_spec v nz') as [Evz | Evz]; inversion H; subst; cbn;
        try rewrite Ev; auto.
    - inversion H; subst; cbn; auto. }
  destruct Hs as (Hn & Hh & Hz).
  exists (Network.set_factors (md_tollFactor md) (md_distanceFactor md) s2), s4, linkID.
  cbn. repeat split; try congruence.
  rewrite Hn. exact Hall.
Qed.

(** X18: when ReadNetworkFile returns, for a file whose links have
    positive node IDs read into an empty store, every node of
    1..numNodes exists, sits at the position of its ID and is an end of
    at least one link; its zone flag says whether its ID is at most the
    number of zones of the metadata; its forward star lists, in the
    order of the file and each once, exactly the stored links whose tail
    it is, and its reverse star those whose head it is; its potential is
    +infinity and it has no predecessor. *)
Theorem ReadNetworkFile_stars (md : Metadata) (lines : list LinkData)
    (s0 s : Network.t) (k : nat) :
  Network.ReadNetworkFile md lines s0 = Ok tt s ->
  Network.heap s0 = [] ->
  (forall d, In d lines -> 1 <= d_tail d /\ 1 <= d_head d) ->
  (k < Z.to_nat (md_numNodes md))%nat ->
  exists nd,
    nth_error (Network.nodes s) k = Some (Some nd)
    /\ Node.ID nd = Z.of_nat k + 1
    /\ Node.isZone nd = (Z.of_nat k + 1 <=? md_numZones md)
    /\ Node.forwardStar nd = refs_from (leaves (Z.of_nat k + 1)) 0 (Network.heap s)
    /\ Node.reverseStar nd = refs_from (enters (Z.of_nat k + 1)) 0 (Network.heap s)
    /\ (forall r, In r (Node.forwardStar nd) <->
          exists l, nth_error (Network.heap s) r = Some l
                    /\ Link.tail l = Z.of_nat k + 1)
    /\ (forall r, In r (Node.reverseStar nd) <->
          exists l, nth_error (Network.heap s) r = Some l
                    /\ Link.head l = Z.of_nat k + 1)
    /\ (Node.forwardStar nd ++ Node.reverseStar nd)%list <> []
    /\ Node.potential nd = PInf /\ Node.pre nd = None.
Proof.
  intros H Hh0 Hpos Hk.
  destruct (ReadNetworkFile_loop md lines s0 s H)
    as (s2 & s4 & linkID & Hn2 & Hh2 & Hz2 & Hloop & Hn & Hh & Hall & _).
  assert (HS2 : Stars (md_numZones md) s2).
  { intros j e Hj. rewrite Hn2 in Hj.
    apply nth_error_In, repeat_spec in Hj. subst e.
    rewrite Hh2, Hh0. cbn. auto. }
  destruct (read_links_stars _ lines 0 s2 linkID s4 HS2 Hz2 Hpos Hloop) as [HS4 _].
  destruct (ReadNetworkFile_Ok_inv md lines s0 s H Hpos)
    as (_ & _ & _ & _ & Hlen & _).
  destruct (nth_error (Network.nodes s) k) as [e|] eqn:Ek;
    [|apply nth_error_None in Ek; lia].
  destruct e as [nd|];
    [|exfalso; apply (Hall None (nth_error_In _ _ Ek)); reflexivity].
  rewrite Hn in Ek.
  destruct (HS4 k _ Ek) as [(H1 & H2 & H3 & H4 & H5 & H6) Hne].
  exists nd. rewrite Hh.
  split; [reflexivity|]. split; [exact H1|]. split; [exact H2|].
  split; [exact H3|]. split; [exact H4|].
  split; [|split; [|auto]].
  - intros r. rewrite H3, In_refs_from. rewrite Nat.sub_0_r. unfold leaves.
    split; intros (l & Hl); exists l.
    + destruct Hl as (_ & Hl & Hf). split; [exact Hl | lia].
    + destruct Hl as (Hl & Hf). split; [lia|]. split; [exact Hl | lia].
  - intros r. rewrite H4, In_refs_from. rewrite Nat.sub_0_r. unfold enters.
    split; intros (l & Hl); exists l.
    + destruct Hl as (_ & Hl & Hf). split; [exact Hl | lia].
    + destruct Hl as (Hl & Hf). split; [lia|]. split; [exact Hl | lia].
Qed.

Lemma ReadNetworkFile_stars_witness :
  exists nd, nth_error (Network.nodes one_link) 0 = Some (Some nd)
             /\ Node.ID nd = Z.of_nat 0 + 1.
Proof.
  destruct (ReadNetworkFile_stars (mkMetadata 2 1 1 2 0 0) [line 1 2 100 4]
              Network.init one_link 0) as (nd & H1 & H2 & _).
  - vm_compute. reflexivity.
  - reflexivity.
  - intros d [<- | []]. cbn. lia.
  - cbn. lia.
  - exists nd. split; assumption.
Defined.

(** X26: when ReadNetworkFile returns, numZones is the number of nodes
    whose zone flag is set, whatever NUMBER OF ZONES said; for a file
    with positive node IDs read into an empty store this is the number of
    node IDs from 1 to numNodes that are at most NUMBER OF ZONES. *)
Theorem ReadNetworkFile_numZones (md : Metadata) (lines : list LinkData)
    (s0 s : Network.t) :
  Network.ReadNetworkFile md lines s0 = Ok tt s ->
  Network.numZones s = Some (zone_count (Network.nodes s))
  /\ (Network.heap s0 = [] ->
      (forall d, In d lines -> 1 <= d_tail d /\ 1 <= d_head d) ->
      Network.numZones s
      = Some (Z.max 0 (Z.min (md_numZones md)
                         (Z.of_nat (List.length (Network.nodes s)))))).
Proof.
  intros H.
  destruct (ReadNetworkFile_loop md lines s0 s H)
    as (s2 & s4 & linkID & Hn2 & Hh2 & Hz2 & Hloop & Hn & Hh & Hall & Hz).
  split; [exact Hz|].
  intros Hh0 Hpos. rewrite Hz. f_equal.
  assert (HS2 : Stars (md_numZones md) s2).
  { intros j e Hj. rewrite Hn2 in Hj.
    apply nth_error_In, repeat_spec in Hj. subst e.
    rewrite Hh2, Hh0. cbn. auto. }
  destruct (read_links_stars _ lines 0 s2 linkID s4 HS2 Hz2 Hpos Hloop) as [HS4 _].
  assert (Hflag : forall k e, nth_error (Network.nodes s) k = Some e ->
            exists nd, e = Some nd
                       /\ Node.isZone nd = (Z.of_nat k + 1 <=? md_numZones md)).
  { intros k e Hk. pose proof Hk as Hk4. rewrite Hn in Hk4.
    specialize (HS4 k e Hk4). destruct e as [nd|].
    - destruct HS4 as [(_ & Hzf & _) _]. eauto.
    - exfalso. apply (Hall None (nth_error_In _ _ Hk)). reflexivity. }
  clear - Hflag. unfold zone_count.
  assert (Hgen : forall ns base,
            (forall k e, nth_error ns k = Some e ->
               exists nd, e = Some nd
                 /\ Node.isZone nd = (Z.of_nat (base + k) + 1 <=? md_numZones md)) ->
            Z.of_nat (List.length
                        (filter (fun e => match e with
                                          | Some nd => Node.isZone nd
                                          | None => false
                                          end) ns))
            = Z.max 0 (Z.min (md_numZones md - Z.of_nat base)
                         (Z.of_nat (List.length ns)))).
  { induction ns as [|e ns IH]; intros base Hns.
    - cbn. lia.
    - destruct (Hns 0%nat e eq_refl) as (nd & -> & Hz0).
      assert (Hrest : forall k e', nth_error ns k = Some e' ->
                exists nd', e' = Some nd'
                  /\ Node.isZone nd'
                     = (Z.of_nat (S base + k) + 1 <=? md_numZones md)).
      { intros k e' Hk. destruct (Hns (S k) e' Hk) as (nd' & -> & Hz').
        exists nd'. split; [reflexivity|].
        rewrite Hz'. f_equal. lia. }
      specialize (IH (S base) Hrest). cbn [filter]. rewrite Hz0.
      rewrite Nat.add_0_r.
      destruct (Z.leb_spec (Z.of_nat base + 1) (md_numZones md));
        cbn [List.length]; lia. }
  rewrite (Hgen (Network.nodes s) 0%nat).
  - f_equal. f_equal. lia.
  - intros k e Hk. apply (Hflag k e Hk).
Qed.

Lemma ReadNetworkFile_numZones_witness :
  Network.numZones one_link = Some (zone_count (Network.nodes one_link)).
Proof.
  destruct (ReadNetworkFile_numZones (mkMetadata 2 1 1 2 0 0) [line 1 2 100 4]
              Network.init one_link) as [H _].
  - vm_compute. reflexivity.
  - exact H.
Defined.

(** *** The dictionary of the links *)

Lemma key_eqb_eq (a b : key) : key_eqb a b = true -> a = b.
Proof.
  destruct a, b. unfold key_eqb. cbn. intros H.
  apply andb_true_iff in H as [H1 H2].
  apply Z.eqb_eq in H1, H2. now subst.
Qed.

Lemma key_eqb_sym (a b : key) : key_eqb a b = key_eqb b a.
Proof. unfold key_eqb. now rewrite (Z.eqb_sym (fst a)), (Z.eqb_sym (snd a)). Qed.

Lemma dict_get_dict_set {V} (d : list (key * V)) (k k' : key) (v : V) :
  dict_get (dict_set d k v) k'
  = if key_eqb k' k then Some v else dict_get d k'.
Proof.
  induction d as [|[k0 v0] d IH]; cbn.
  - reflexivity.
  - destruct (key_eqb k k0) eqn:E; cbn.
    + apply key_eqb_eq in E. subst k0.
      now destruct (key_eqb k' k).
    + rewrite IH. destruct (key_eqb k' k0) eqn:E0; [|reflexivity].
      apply key_eqb_eq in E0. subst k0.
      rewrite key_eqb_sym in E. now rewrite E.
Qed.

Lemma last_ref_snoc (l : list nat) (r : nat) : last_ref (l ++ [r]) = Some r.
Proof. unfold last_ref. now rewrite rev_app_distr. Qed.

Lemma read_link_filed (linkID : Z) (data : LinkData) (s s' : Network.t) (k : Z) :
  (forall t h, dict_get (Network.links s) (t, h)
               = last_ref (refs_from (same_ends t h) 0 (Network.heap s))) ->
  Network.read_link linkID data s = Ok k s' ->
  forall t h, dict_get (Network.links s') (t, h)
              = last_ref (refs_from (same_ends t h) 0 (Network.heap s')).
Proof.
  intros HF H t h.
  apply read_link_Ok_inv in H
    as (df & tf & kt & kh & nt & nh & s1 & s2 & _ & _ & _ & _ & _
        & -> & _ & _ & -> & _ & _ & ->).
  cbn. rewrite dict_get_dict_set, refs_from_snoc. cbn.
  unfold key_eqb, same_ends. cbn.
  rewrite (Z.eqb_sym t), (Z.eqb_sym h).
  destruct ((d_tail data =? t) && (d_head data =? h)).
  - now rewrite last_ref_snoc.
  - rewrite app_nil_r. apply HF.
Qed.

Lemma read_links_filed (lines : list LinkData) :
  forall linkID s k s',
  (forall t h, dict_get (Network.links s) (t, h)
               = last_ref (refs_from (same_ends t h) 0 (Network.heap s))) ->
  for_fold lines Network.read_link linkID s = Ok k s' ->
  forall t h, dict_get (Network.links s') (t, h)
              = last_ref (refs_from (same_ends t h) 0 (Network.heap s')).
Proof.
  induction lines as [|data lines IH]; intros linkID s k s' HF H.
  - cbn in H. inversion H; subst. exact HF.
  - cbn [for_fold] in H. apply bind_Ok_inv in H as (k1 & s1 & H1 & H).
    apply (IH _ s1 k s' (read_link_filed linkID data s s1 k1 HF H1) H).
Qed.

Lemma last_ref_max (f : Link.t -> bool) (heap : list Link.t) (r : nat) :
  last_ref (refs_from f 0 heap) = Some r ->
  In r (refs_from f 0 heap)
  /\ forall r', In r' (refs_from f 0 heap) -> (r' <= r)%nat.
Proof.
  induction heap as [|l heap IH] using rev_ind; [discriminate|].
  rewrite refs_from_snoc. destruct (f l).
  - rewrite last_ref_snoc. intros E. inversion E; subst r. clear E.
    split; [apply in_or_app; right; now left|].
    intros r' Hr'. apply in_app_or in Hr' as [Hr' | [<- | []]]; [|lia].
    apply In_refs_from in Hr' as (l' & _ & Hl' & _).
    rewrite Nat.sub_0_r in Hl'.
    pose proof (proj1 (nth_error_Some heap r') ltac:(congruence)). lia.
  - rewrite app_nil_r. exact IH.
Qed.

(** X23: when ReadNetworkFile returns, having started with no link, the
    dictionary [links] files under the key (tail, head) the last stored
    link with this tail and head: of data lines that repeat a tail and
    head only the last one can be looked up (all of them are stored and
    are in the stars), and a key is present exactly when some data line
    has it. *)
Theorem ReadNetworkFile_filed (md : Metadata) (lines : list LinkData)
    (s0 s : Network.t) (t h : Z) :
  Network.ReadNetworkFile md lines s0 = Ok tt s ->
  Network.heap s0 = [] -> Network.links s0 = [] ->
  dict_get (Network.links s) (t, h)
  = last_ref (refs_from (same_ends t h) 0 (Network.heap s))
  /\ (forall r, dict_get (Network.links s) (t, h) = Some r ->
        (exists l, nth_error (Network.heap s) r = Some l
                   /\ Link.tail l = t /\ Link.head l = h)
        /\ forall r' l', nth_error (Network.heap s) r' = Some l' ->
             Link.tail l' = t -> Link.head l' = h -> (r' <= r)%nat)
  /\ (dict_get (Network.links s) (t, h) = None ->
      forall r l, nth_error (Network.heap s) r = Some l ->
        ~ (Link.tail l = t /\ Link.head l = h)).
Proof.
  intros H Hh0 Hl0.
  assert (HF : forall t h, dict_get (Network.links s) (t, h)
                 = last_ref (refs_from (same_ends t h) 0 (Network.heap s))).
  { clear t h. unfold Network.ReadNetworkFile in H.
    apply bind_Ok_inv in H as ([] & s1 & H1 & H). inversion H1; subst s1; clear H1.
    apply bind_Ok_inv in H as (nz & s1 & H1 & H). inversion H1; subst nz s1; clear H1.
    apply bind_Ok_inv in H as ([] & s2 & H2 & H).
    assert (Hs2 : Network.links s2 = [] /\ Network.heap s2 = []).
    { cbn in H2. destruct (Network.numZones s0) as [z|].
      - destruct (z =? md_numZones md); inversion H2. cbn. auto.
      - inversion H2. cbn. auto. }
    clear H2. destruct Hs2 as (Hl2 & Hh2).
    apply bind_Ok_inv in H as ([] & s3 & H3 & H). inversion H3; subst s3; clear H3.
    apply bind_Ok_inv in H as (linkID & s4 & Hloop & H).
    pose proof (read_links_filed lines 0
                  (Network.set_factors (md_tollFactor md) (md_distanceFactor md) s2)
                  linkID s4) as HF4.
    cbn in HF4. rewrite Hl2, Hh2 in HF4.
    specialize (HF4 (fun _ _ => eq_refl) Hloop).
    apply bind_Ok_inv in H as (nl & s5 & H5 & H). inversion H5; subst nl s5; clear H5.
    apply bind_Ok_inv in H as ([] & s5 & H5 & H).
    assert (Hs5 : Network.links s5 = Network.links s4
                  /\ Network.heap s5 = Network.heap s4).
    { destruct (match Network.numLinks s4 with
                | Some v => v =? linkID
                | None => false
                end); inversion H5; subst; cbn; auto. }
    clear H5. destruct Hs5 as (Hl5 & Hh5).
    apply bind_Ok_inv in H as (ns & s6 & H6 & H). inversion H6; subst ns s6; clear H6.
    apply bind_Ok_inv in H as (nz' & s6 & H6 & H).
    apply count_zones_Ok in H6 as [-> _].
    apply bind_Ok_inv in H as (nz2 & s6 & H6 & H). inversion H6; subst nz2 s6; clear H6.
    assert (Hs : Network.links s = Network.links s5
                 /\ Network.heap s = Network.heap s5).
    { destruct (match Network.numZones s5 with
                | Some v => v =? nz'
                | None => false
                end); inversion H; subst; cbn; auto. }
    destruct Hs as (Hl & Hh).
    intros t h. rewrite Hl, Hh, Hl5, Hh5. apply HF4. }
  split; [apply HF|]. split.
  - intros r Hr. rewrite HF in Hr.
    destruct (last_ref_max _ _ _ Hr) as [Hin Hmax]. split.
    + apply In_refs_from in Hin as (l & _ & Hl & Hf).
      rewrite Nat.sub_0_r in Hl. unfold same_ends in Hf.
      apply andb_true_iff in Hf as [Ht Hhd].
      exists l. split; [exact Hl|]. split; lia.
    + intros r' l' Hl' Ht Hhd. apply Hmax. apply In_refs_from.
      exists l'. split; [lia|]. rewrite Nat.sub_0_r. split; [exact Hl'|].
      unfold same_ends. apply andb_true_iff. split; lia.
  - intros Hnone r l Hl [Ht Hhd]. rewrite HF in Hnone.
    assert (Hin : In r (refs_from (same_ends t h) 0 (Network.heap s))).
    { apply In_refs_from. exists l. split; [lia|]. rewrite Nat.sub_0_r.
      split; [exact Hl|]. unfold same_ends. apply andb_true_iff. split; lia. }
    unfold last_ref in Hnone.
    destruct (rev (refs_from (same_ends t h) 0 (Network.heap s))) eqn:E;
      [|discriminate].
    apply (f_equal (@rev nat)) in E. rewrite rev_involutive in E. cbn in E.
    rewrite E in Hin. exact Hin.
Qed.

Lemma ReadNetworkFile_filed_witness :
  dict_get (Network.links one_link) (1, 2)
  = last_ref (refs_from (same_ends 1 2) 0 (Network.heap one_link)).
Proof.
  apply (ReadNetworkFile_filed (mkMetadata 2 1 1 2 0 0) [line 1 2 100 4]
           Network.init one_link 1 2).
  - vm_compute. reflexivity.
  - reflexivity.
  - reflexivity.
Defined.

(** *** The data lines that are accepted *)

Lemma py_norm_bounds (n : nat) (i : Z) (k : nat) :
  py_norm n i = Some k -> - Z.of_nat n <= i < Z.of_nat n.
Proof.
  unfold py_norm. destruct (Z.leb_spec 0 i).
  - destruct (Z.ltb_spec i (Z.of_nat n)); [lia | discriminate].
  - destruct (Z.leb_spec (- Z.of_nat n) i); [lia | discriminate].
Qed.

Lemma read_links_accepted (lines : list LinkData) :
  forall linkID s k s',
  for_fold lines Network.read_link linkID s = Ok k s' ->
  List.length (Network.nodes s') = List.length (Network.nodes s)
  /\ Forall (fun d =>
       accepted_line d
       /\ - Z.of_nat (List.length (Network.nodes s)) < d_tail d
          <= Z.of_nat (List.length (Network.nodes s))
       /\ - Z.of_nat (List.length (Network.nodes s)) < d_head d
          <= Z.of_nat (List.length (Network.nodes s))) lines.
Proof.
  induction lines as [|data lines IH]; intros linkID s k s' H.
  - cbn in H. inversion H; subst. split; [reflexivity | constructor].
  - cbn [for_fold] in H. apply bind_Ok_inv in H as (k1 & s1 & H1 & H).
    apply read_link_Ok_inv in H1
      as (df & tf & kt & kh & nt & nh & s2 & s3 & _ & Hneg & Hcap & _ & _
          & Hs2 & Hkt & _ & Hs3 & Hkh & _ & Hs1).
    assert (Hlen : List.length (Network.nodes s1) = List.length (Network.nodes s)).
    { subst s1 s3 s2. cbn. now rewrite !length_list_set. }
    destruct (IH _ _ _ _ H) as [Hlen' HF]. rewrite Hlen in *.
    split; [exact Hlen'|].
    apply py_norm_bounds in Hkt, Hkh.
    constructor; [|exact HF].
    split; [split; assumption | lia].
Qed.

(** X27: ReadNetworkFile returns only if every data line is acceptable:
    none of capacity, length, free-flow time, alpha, beta, speed limit
    and toll is negative, the capacity is not zero, and tail and head
    are list indices of the node list plus one, that is, they lie from
    1 - numNodes to numNodes.  (An ID above numNodes raises IndexError;
    an ID from 1 - numNodes to 0 is not rejected.) *)
Theorem ReadNetworkFile_accepts (md : Metadata) (lines : list LinkData)
    (s0 s : Network.t) :
  Network.ReadNetworkFile md lines s0 = Ok tt s ->
  List.length (Network.nodes s) = Z.to_nat (md_numNodes md)
  /\ Forall (fun d =>
       accepted_line d
       /\ - Z.of_nat (List.length (Network.nodes s)) < d_tail d
          <= Z.of_nat (List.length (Network.nodes s))
       /\ - Z.of_nat (List.length (Network.nodes s)) < d_head d
          <= Z.of_nat (List.length (Network.nodes s))) lines.
Proof.
  intros H.
  destruct (ReadNetworkFile_loop md lines s0 s H)
    as (s2 & s4 & linkID & Hn2 & _ & _ & Hloop & Hn & _).
  destruct (read_links_accepted lines 0 s2 linkID s4 Hloop) as [Hlen HF].
  rewrite Hn, Hlen. rewrite Hn2, repeat_length in *.
  split; [reflexivity | exact HF].
Qed.

Lemma ReadNetworkFile_accepts_witness :
  List.length (Network.nodes one_link) = Z.to_nat 2.
Proof.
  apply (ReadNetworkFile_accepts (mkMetadata 2 1 1 2 0 0) [line 1 2 100 4]
           Network.init one_link).
  vm_compute. reflexivity.
Defined.

(* ------------------------------------------------------------------ *)
(** ** The Link objects that ReadNetworkFile stores                     *)
(* ------------------------------------------------------------------ *)

(** The loop over the data lines appends one Link object per line, and
    leaves the factors alone. *)
Lemma read_links_heap (df tf : Q) (lines : list LinkData) :
  forall linkID s k s',
  for_fold lines Network.read_link linkID s = Ok k s' ->
  Network.distanceFactor s = Some df -> Network.tollFactor s = Some tf ->
  Network.heap s' = (Network.heap s ++ loaded_links df tf linkID lines)%list
  /\ k = linkID + Z.of_nat (List.length lines)
  /\ Network.numLinks s' = Network.numLinks s.
Proof.
  induction lines as [|data lines IH]; intros linkID s k s' H Hdf Htf.
  - cbn in H. inversion H; subst. cbn. rewrite app_nil_r. split; [|split]; auto.
    lia.
  - cbn [for_fold] in H. apply bind_Ok_inv in H as (k1 & s1 & H1 & H).
    apply read_link_Ok_inv in H1
      as (df' & tf' & kt & kh & nt & nh & s2 & s3 & Hk1 & _ & _ & Hdf' & Htf'
          & Hs2 & _ & _ & Hs3 & _ & _ & Hs1).
    assert (df' = df) by congruence. assert (tf' = tf) by congruence.
    subst df' tf'.
    assert (Hh1 : Network.heap s1
                  = (Network.heap s ++ [loaded_link df tf linkID data])%list).
    { subst s1 s3 s2. reflexivity. }
    assert (Hd1 : Network.distanceFactor s1 = Some df).
    { subst s1 s3 s2. exact Hdf. }
    assert (Ht1 : Network.tollFactor s1 = Some tf).
    { subst s1 s3 s2. exact Htf. }
    assert (Hn1 : Network.numLinks s1 = Network.numLinks s).
    { subst s1 s3 s2. reflexivity. }
    destruct (IH _ _ _ _ H Hd1 Ht1) as (Hh & Hk & Hn).
    split; [|split].
    + rewrite Hh, Hh1, <- app_assoc. subst k1. reflexivity.
    + subst k1. cbn [List.length]. lia.
    + congruence.
Qed.

(** The store and the link count that ReadNetworkFile leaves. *)
Lemma ReadNetworkFile_heap (md : Metadata) (lines : list LinkData)
    (s0 s : Network.t) :
  Network.ReadNetworkFile md lines s0 = Ok tt s ->
  Network.heap s
  = (Network.heap s0
     ++ loaded_links (md_distanceFactor md) (md_tollFactor md) 0 lines)%list
  /\ Network.numLinks s = Some (Z.of_nat (List.length lines))
  /\ Forall accepted_line lines.
Proof.
  intros H. pose proof H as H0. unfold Network.ReadNetworkFile in H.
  apply bind_Ok_inv in H as ([] & s1 & H1 & H). inversion H1; subst s1; clear H1.
  apply bind_Ok_inv in H as (nz & s1 & H1 & H). inversion H1; subst nz s1; clear H1.
  apply bind_Ok_inv in H as ([] & s2 & H2 & H).
  assert (Hh2 : Network.heap s2 = Network.heap s0).
  { cbn in H2. destruct (Network.numZones s0) as [z|].
    - destruct (z =? md_numZones md); inversion H2. reflexivity.
    - inversion H2. reflexivity. }
  clear H2.
  apply bind_Ok_inv in H as ([] & s3 & H3 & H). inversion H3; subst s3; clear H3.
  apply bind_Ok_inv in H as (linkID & s4 & Hloop & H).
  destruct (read_links_heap (md_distanceFactor md) (md_tollFactor md) lines
              _ _ _ _ Hloop eq_refl eq_refl) as (Hh4 & Hk & Hn4).
  destruct (read_links_accepted lines _ _ _ _ Hloop) as [_ HF].
  apply bind_Ok_inv in H as (nl & s5 & H5 & H). inversion H5; subst nl s5; clear H5.
  apply bind_Ok_inv in H as ([] & s5 & H5 & H).
  assert (Hs5 : Network.heap s5 = Network.heap s4
                /\ Network.numLinks s5 = Some linkID).
  { destruct (Network.numLinks s4) as [v|] eqn:Ev.
    - destruct (Z.eqb_spec v linkID) as [Evl | Evl]; inversion H5; subst; cbn;
        auto.
    - inversion H5; subst; cbn; auto. }
  clear H5. destruct Hs5 as (Hh5 & Hn5).
  apply bind_Ok_inv in H as (ns & s6 & H6 & H). inversion H6; subst ns s6; clear H6.
  apply bind_Ok_inv in H as (nz' & s6 & H6 & H).
  apply count_zones_Ok in H6 as [-> _].
  apply bind_Ok_inv in H as (nz2 & s6 & H6 & H). inversion H6; subst nz2 s6; clear H6.
  assert (Hs : Network.heap s = Network.heap s5
               /\ Network.numLinks s = Network.numLinks s5).
  { destruct (match Network.numZones s5 with
              | Some v => v =? nz'
              | None => false
              end); inversion H; subst; cbn; auto. }
  destruct Hs as (Hh & Hn).
  split; [|split].
  - rewrite Hh, Hh5, Hh4. cbn. now rewrite Hh2.
  - rewrite Hn, Hn5. f_equal. lia.
  - revert HF. apply Forall_impl. intros d Hd. apply Hd.
Qed.

Lemma nth_error_loaded_links (df tf : Q) (lines : list LinkData) :
  forall k j d,
    nth_error lines j = Some d ->
    nth_error (loaded_links df tf k lines) j
    = Some (loaded_link df tf (k + Z.of_nat j) d).
Proof.
  induction lines as [|d0 ls IH]; intros k [|j] d Hj; cbn in Hj; try discriminate.
  - inversion Hj; subst. cbn. now rewrite Z.add_0_r.
  - cbn [loaded_links nth_error]. rewrite (IH (k + 1) j d Hj).
    replace (k + 1 + Z.of_nat j) with (k + Z.of_nat (S j)) by lia.
    reflexivity.
Qed.

Lemma length_loaded_links (df tf : Q) (lines : list LinkData) :
  forall k, List.length (loaded_links df tf k lines) = List.length lines.
Proof.
  induction lines as [|d ls IH]; intros k; cbn; [reflexivity|].
  now rewrite IH.
Qed.



(** X3: a network read by ReadNetworkFile into an empty store, from a
    file whose toll and distance factors are not negative, has a cost on
    every link and none of them negative. *)
Theorem ReadNetworkFile_nonneg_costs (md : Metadata) (lines : list LinkData)
    (s0 s : Network.t) :
  Network.ReadNetworkFile md lines s0 = Ok tt s ->
  Network.heap s0 = [] ->
  (0 <= md_distanceFactor md)%Q -> (0 <= md_tollFactor md)%Q ->
  nonneg_costs s = true.
Proof.
  intros H Hh0 Hdf Htf.
  destruct (ReadNetworkFile_heap md lines s0 s H) as (Hheap & _ & Hacc).
  unfold nonneg_costs. rewrite Hheap, Hh0. cbn [app].
  apply forallb_forall. intros l Hl.
  apply loaded_links_In in Hl as (k & data & Hd & ->).
  rewrite Forall_forall in Hacc.
  destruct (loaded_link_cost (md_distanceFactor md) (md_tollFactor md) k data
              (Hacc data Hd) Hdf Htf) as (c & Hc & Hc0).
  rewrite Hc. apply Qle_bool_iff, Hc0.
Qed.

Lemma ReadNetworkFile_nonneg_costs_witness :
  nonneg_costs one_link = true
  /\ nonneg_costs (load (mkMetadata 2 1 1 2 0 0) [line 0 1 100 4]) = true.
Proof.
  split.
  - apply (ReadNetworkFile_nonneg_costs (mkMetadata 2 1 1 2 0 0)
             [line 1 2 100 4] Network.init one_link).
    + vm_compute. reflexivity.
    + reflexivity.
    + cbn. lra.
    + cbn. lra.
  - apply (ReadNetworkFile_nonneg_costs (mkMetadata 2 1 1 2 0 0)
             [line 0 1 100 4] Network.init).
    + vm_compute. reflexivity.
    + reflexivity.
    + cbn. lra.
    + cbn. lra.
Defined.

(* ------------------------------------------------------------------ *)
(** ** ReadDemandFile                                                   *)
(* ------------------------------------------------------------------ *)

Section PreservesAny.

Variable R : Network.t -> Network.t -> Prop.
Hypothesis R_refl : forall s, R s s.
Hypothesis R_trans : forall s1 s2 s3, R s1 s2 -> R s2 s3 -> R s1 s3.

Lemma pres_bind {A B} (m : M Network.t A) (k : A -> M Network.t B) :
  preserves R m -> (forall a, preserves R (k a)) -> preserves R (bind m k).
Proof.
  intros Hm Hk s. unfold bind. specialize (Hm s).
  destruct (m s) as [a s1|e s1|]; auto.
  specialize (Hk a s1). destruct (k a s1) as [b s2|e s2|]; auto;
    apply (R_trans _ s1); assumption.
Qed.

Lemma pres_ret {A} (a : A) : preserves R (ret a).
Proof. intros s. apply R_refl. Qed.

Lemma pres_raise {A} (e : exn) : preserves R (@raise _ A e).
Proof. intros s. apply R_refl. Qed.

Lemma pres_gets {A} (f : Network.t -> A) : preserves R (gets f).
Proof. intros s. apply R_refl. Qed.

Lemma pres_modify (f : Network.t -> Network.t) :
  (forall s, R s (f s)) -> preserves R (modify f).
Proof. intros H s. apply H. Qed.

Lemma pres_for_each {A} (l : list A) (body : A -> M Network.t unit) :
  (forall x, preserves R (body x)) -> preserves R (for_each l body).
Proof.
  intros Hb. induction l as [|x l IH]; cbn.
  - apply pres_ret.
  - apply pres_bind; auto.
Qed.

Lemma pres_for_fold {A B} (l : list A) (body : B -> A -> M Network.t B) :
  (forall b x, preserves R (body b x)) ->
  forall b, preserves R (for_fold l body b).
Proof.
  intros Hb. induction l as [|x l IH]; intros b; cbn.
  - apply pres_ret.
  - apply pres_bind; auto.
Qed.

Lemma pres_assigned {A} (f : Network.t -> option A) :
  preserves R (fun self => Network.assigned (f self) self).
Proof. intros s. destruct (f s); apply R_refl. Qed.

Lemma pres_node_pos (i : Z) : preserves R (Network.node_pos i).
Proof.
  intros s. unfold Network.node_pos. destruct (py_norm _ i); apply R_refl.
Qed.

Lemma pres_node_obj (k : nat) : preserves R (Network.node_obj k).
Proof.
  intros s. unfold Network.node_obj.
  destruct (nth_error _ k) as [[nd|]|]; apply R_refl.
Qed.

Lemma pres_link_obj (r : nat) : preserves R (Network.link_obj r).
Proof.
  intros s. unfold Network.link_obj. destruct (nth_error _ r); apply R_refl.
Qed.

Lemma pres_od_row (o : option Z) : preserves R (Network.od_row o).
Proof.
  intros s. unfold Network.od_row. destruct o as [o|]; [|apply R_refl].
  destruct (zdict_get _ o); apply R_refl.
Qed.

Lemma pres_check_zone (x : Z) : preserves R (Network.check_zone x).
Proof.
  unfold Network.check_zone.
  apply pres_bind; [apply pres_assigned | intros nn].
  destruct (nn <? x); [apply pres_raise|].
  apply pres_bind; [apply pres_node_pos | intros k].
  apply pres_bind; [apply pres_node_obj | intros nd].
  destruct (Node.isZone nd); [apply pres_ret | apply pres_raise].
Qed.

End PreservesAny.

Lemma keeps_topology_refl (s : Network.t) : keeps_topology s s.
Proof. unfold keeps_topology. repeat split. Qed.

Lemma keeps_topology_trans (s1 s2 s3 : Network.t) :
  keeps_topology s1 s2 -> keeps_topology s2 s3 -> keeps_topology s1 s3.
Proof.
  unfold keeps_topology. intros H1 H2.
  decompose [and] H1. decompose [and] H2. repeat split; congruence.
Qed.

Ltac pres_topology :=
  repeat first
    [ apply (pres_check_zone _ keeps_topology_refl keeps_topology_trans)
    | apply (pres_od_row _ keeps_topology_refl)
    | apply (pres_assigned _ keeps_topology_refl)
    | apply (pres_bind _ keeps_topology_trans); [|intro]
    | apply (pres_ret _ keeps_topology_refl)
    | apply (pres_raise _ keeps_topology_refl)
    | apply (pres_gets _ keeps_topology_refl)
    | apply (pres_for_fold _ keeps_topology_refl keeps_topology_trans); intros
    | apply pres_modify; intros ?; unfold keeps_topology; cbn; repeat split
    | match goal with
      | |- preserves _ (if ?b then _ else _) => destruct b
      | |- preserves _ (match ?o with Some _ => _ | None => _ end) => destruct o
      end ].

Lemma preserves_read_demand_line (L : Network.demand_locals) (line : DemandLine) :
  preserves keeps_topology (Network.read_demand_line L line).
Proof.
  destruct line as [o|entries|]; cbn [Network.read_demand_line].
  - unfold Network.read_origin. pres_topology.
  - apply (pres_for_fold _ keeps_topology_refl keeps_topology_trans).
    intros L' e. unfold Network.read_destination. pres_topology.
  - pres_topology.
Qed.

(** X4: ReadDemandFile never touches the topology: whether it returns or
    raises, the node list, the node count, the first through node, the
    links dictionary, the Link objects and the cost factors are what they
    were before the call. *)
Theorem ReadDemandFile_keeps_topology (md : DemandMetadata)
    (lines : list DemandLine) :
  preserves keeps_topology (Network.ReadDemandFile md lines).
Proof.
  unfold Network.ReadDemandFile.
  apply (pres_bind _ keeps_topology_trans); [pres_topology | intros nz].
  apply (pres_bind _ keeps_topology_trans); [pres_topology | intros _].
  apply (pres_bind _ keeps_topology_trans); [|intros _; pres_topology].
  apply (pres_for_fold _ keeps_topology_refl keeps_topology_trans).
  apply preserves_read_demand_line.
Qed.

(** *** Dictionaries keyed by node IDs *)

Lemma zdict_set_fresh {V} (d : list (Z * V)) (k : Z) (v : V) :
  zdict_get d k = None -> zdict_set d k v = d ++ [(k, v)].
Proof.
  induction d as [|[k' v'] d IH]; cbn; [reflexivity|].
  destruct (k =? k'); [discriminate|]. intros H. now rewrite IH.
Qed.

Lemma zdict_set_keys {V} (d : list (Z * V)) (k : Z) (v x : V) :
  zdict_get d k = Some x -> map fst (zdict_set d k v) = map fst d.
Proof.
  induction d as [|[k' v'] d IH]; cbn; [discriminate|].
  destruct (k =? k'); [reflexivity|]. intros H. cbn. now rewrite IH.
Qed.

Lemma zdict_get_None {V} (d : list (Z * V)) (k : Z) :
  zdict_get d k = None -> ~ In k (map fst d).
Proof.
  induction d as [|[k' v'] d IH]; cbn; [tauto|].
  destruct (Z.eqb_spec k k'); [discriminate|].
  intros H [Hk | Hk]; [congruence | exact (IH H Hk)].
Qed.

Lemma zdict_get_In {V} (d : list (Z * V)) (k : Z) (v : V) :
  zdict_get d k = Some v -> In (k, v) d.
Proof.
  induction d as [|[k' v'] d IH]; cbn; [discriminate|].
  destruct (Z.eqb_spec k k') as [->|].
  - intros H. inversion H. now left.
  - intros H. right. exact (IH H).
Qed.

Lemma In_zdict_set {V} (d : list (Z * V)) (k k' : Z) (v v' : V) :
  In (k', v') (zdict_set d k v) ->
  (k' = k /\ v' = v) \/ In (k', v') d.
Proof.
  induction d as [|[k0 v0] d IH]; cbn.
  - intros [H | []]. inversion H. now left.
  - destruct (Z.eqb_spec k k0) as [->|]; cbn.
    + intros [H | H]; [inversion H; now left | right; now right].
    + intros [H | H]; [right; now left|].
      destruct (IH H) as [? | ?]; [now left | right; now right].
Qed.

Lemma NoDup_zdict_set {V} (d : list (Z * V)) (k : Z) (v : V) :
  NoDup (map fst d) -> NoDup (map fst (zdict_set d k v)).
Proof.
  intros H. destruct (zdict_get d k) as [x|] eqn:E.
  - now rewrite (zdict_set_keys d k v x E).
  - rewrite (zdict_set_fresh d k v E), map_app. cbn.
    apply NoDup_app; [exact H | repeat constructor; intros [] |].
    intros a Ha [Hk | []]. subst a. exact (zdict_get_None d k E Ha).
Qed.

(** *** One line of the demand file *)

Lemma is_zone_topology (s s' : Network.t) (x : Z) :
  keeps_topology s s' -> is_zone s' x <-> is_zone s x.
Proof.
  unfold keeps_topology, is_zone. intros H. decompose [and] H.
  now replace (Network.numNodes s') with (Network.numNodes s);
    replace (Network.nodes s') with (Network.nodes s).
Qed.

Lemma check_zone_Ok_inv (x : Z) (s s' : Network.t) :
  Network.check_zone x s = Ok tt s' -> s' = s /\ is_zone s x.
Proof.
  unfold Network.check_zone, is_zone. intros H.
  apply bind_Ok_inv in H as (nn & s1 & H1 & H).
  destruct (Network.numNodes s) as [nn'|] eqn:En; [|discriminate].
  cbn in H1. inversion H1; subst nn' s1. clear H1.
  destruct (Z.ltb_spec nn x); [discriminate|].
  apply bind_Ok_inv in H as (k & s1 & H1 & H).
  unfold Network.node_pos in H1.
  destruct (py_norm _ (x - 1)) as [k'|] eqn:Ek; [|discriminate].
  inversion H1; subst k' s1. clear H1.
  apply bind_Ok_inv in H as (nd & s1 & H1 & H).
  unfold Network.node_obj in H1.
  destruct (nth_error (Network.nodes s) k) as [[nd'|]|] eqn:End; try discriminate.
  inversion H1; subst nd' s1. clear H1.
  destruct (Node.isZone nd) eqn:Ez; [|discriminate].
  inversion H. subst s'. split; [reflexivity|].
  exists nn, k, nd. repeat split; assumption.
Qed.

Lemma read_origin_Ok_inv (L L' : Network.demand_locals) (o : Z)
    (s s' : Network.t) :
  Network.read_origin L o s = Ok L' s' ->
  is_zone s o /\ zdict_get (Network.ODpairs s) o = None
  /\ s' = Network.set_ODpairs (fun d => zdict_set d o []) s
  /\ Network.origin L' = Some o.
Proof.
  unfold Network.read_origin. intros H.
  apply bind_Ok_inv in H as ([] & s1 & H1 & H).
  assert (s1 = s).
  { destruct (0 <? Network.numOrigins L); [|now inversion H1].
    apply bind_Ok_inv in H1 as (row & s2 & H2 & H1).
    unfold Network.od_row in H2.
    destruct (Network.origin L) as [o'|]; [|discriminate].
    destruct (zdict_get _ o'); [|discriminate]. inversion H2; subst.
    destruct (_ =? _); now inversion H1. }
  subst s1. clear H1.
  apply bind_Ok_inv in H as ([] & s1 & H1 & H).
  apply check_zone_Ok_inv in H1 as [-> Hz].
  apply bind_Ok_inv in H as (known & s1 & H1 & H).
  inversion H1; subst known s1. clear H1.
  destruct (zdict_get (Network.ODpairs s) o) eqn:E; [discriminate H|].
  cbn in H. inversion H. auto.
Qed.

Lemma read_destination_Ok_inv (L L' : Network.demand_locals) (e : DemandEntry)
    (s s' : Network.t) :
  Network.read_destination L e s = Ok L' s' ->
  entry_accepted s e /\
  (((e_demand e == 0)%Q /\ s' = s /\ L' = L)
   \/ ((0 < e_demand e)%Q /\ exists o row,
         Network.origin L = Some o /\ Network.origin L' = Some o
         /\ zdict_get (Network.ODpairs s) o = Some row
         /\ s' = Network.set_totalDemand (fun total => total + e_demand e)%Q
                   (Network.set_ODpairs (fun d =>
                      zdict_set d o (zdict_set row (e_destination e)
                        (OD.mk o (e_destination e) (e_demand e)))) s))).
Proof.
  unfold Network.read_destination, entry_accepted. intros H.
  apply bind_Ok_inv in H as ([] & s1 & H1 & H).
  apply check_zone_Ok_inv in H1 as [-> Hz].
  apply bind_Ok_inv in H as ([] & s1 & H1 & H).
  destruct (e_colon e); [|discriminate]. inversion H1; subst s1. clear H1.
  destruct (Qltb (e_demand e) 0) eqn:Eneg; [discriminate|].
  apply Qltb_false in Eneg.
  split; [auto|].
  destruct (Qltb 0 (e_demand e)) eqn:Epos.
  - apply Qltb_true in Epos. right. split; [exact Epos|].
    apply bind_Ok_inv in H as (row & s1 & H1 & H).
    unfold Network.od_row in H1.
    destruct (Network.origin L) as [o|]; [|discriminate].
    destruct (zdict_get (Network.ODpairs s) o) as [row'|] eqn:Er; [|discriminate].
    inversion H1; subst row' s1. clear H1.
    exists o, row. cbn in H. inversion H. auto.
  - apply Qltb_false in Epos. left. inversion H.
    split; [|auto]. apply Qle_antisym; assumption.
Qed.

(** What holds from state to state along a loop that returns. *)
Lemma for_fold_Ok_chain {S A B} (R : list A -> S -> S -> Prop)
    (body : B -> A -> M S B) :
  (forall s, R [] s s) ->
  (forall x l b s b1 s1 s2,
     body b x s = Ok b1 s1 -> R l s1 s2 -> R (x :: l) s s2) ->
  forall l b s b' s', for_fold l body b s = Ok b' s' -> R l s s'.
Proof.
  intros H0 HS. induction l as [|x l IH]; intros b s b' s' H; cbn in H.
  - inversion H. apply H0.
  - apply bind_Ok_inv in H as (b1 & s1 & H1 & H).
    apply (HS x l b s b1 s1 s' H1). apply (IH b1 s1 b' s' H).
Qed.

Lemma Ok_keeps_topology {A} (m : M Network.t A) (s s' : Network.t) (a : A) :
  preserves keeps_topology m -> m s = Ok a s' -> keeps_topology s s'.
Proof. intros Hp H. specialize (Hp s). now rewrite H in Hp. Qed.

Lemma preserves_read_destination (L : Network.demand_locals) (e : DemandEntry) :
  preserves keeps_topology (Network.read_destination L e).
Proof. unfold Network.read_destination. pres_topology. Qed.

Lemma entry_accepted_topology (s s' : Network.t) (e : DemandEntry) :
  keeps_topology s s' -> entry_accepted s' e -> entry_accepted s e.
Proof.
  unfold entry_accepted. intros Ht (Hz & H).
  split; [|exact H]. now apply (is_zone_topology s s').
Qed.

Lemma line_accepted_topology (s s' : Network.t) (l : DemandLine) :
  keeps_topology s s' -> line_accepted s' l -> line_accepted s l.
Proof.
  intros Ht. destruct l as [o|es|]; cbn; [|intros H|auto].
  - apply (is_zone_topology s s' o Ht).
  - eapply Forall_impl; [|exact H].
    intros e. apply (entry_accepted_topology s s' e Ht).
Qed.

(** *** The lines that are accepted *)

Lemma read_entries_accepted (es : list DemandEntry) :
  forall L s L' s',
  for_fold es Network.read_destination L s = Ok L' s' ->
  keeps_topology s s' /\ Forall (entry_accepted s) es.
Proof.
  apply (for_fold_Ok_chain
           (fun es s s' => keeps_topology s s' /\ Forall (entry_accepted s) es)).
  - intros s. split; [apply keeps_topology_refl | constructor].
  - intros e l L s L1 s1 s2 H1 [Ht HF].
    pose proof (Ok_keeps_topology _ _ _ _ (preserves_read_destination L e) H1) as Ht1.
    apply read_destination_Ok_inv in H1 as [Ha _].
    split; [exact (keeps_topology_trans _ _ _ Ht1 Ht)|].
    constructor; [exact Ha|].
    eapply Forall_impl; [|exact HF].
    intros e'. apply (entry_accepted_topology s s1 e' Ht1).
Qed.

Lemma read_lines_accepted (lines : list DemandLine) :
  forall L s L' s',
  for_fold lines Network.read_demand_line L s = Ok L' s' ->
  keeps_topology s s' /\ Forall (line_accepted s) lines.
Proof.
  apply (for_fold_Ok_chain
           (fun ls s s' => keeps_topology s s' /\ Forall (line_accepted s) ls)).
  - intros s. split; [apply keeps_topology_refl | constructor].
  - intros x l L s L1 s1 s2 H1 [Ht HF].
    pose proof (Ok_keeps_topology _ _ _ _ (preserves_read_demand_line L x) H1) as Ht1.
    split; [exact (keeps_topology_trans _ _ _ Ht1 Ht)|].
    constructor.
    + destruct x as [o|es|]; cbn in *.
      * now apply read_origin_Ok_inv in H1.
      * now apply read_entries_accepted in H1.
      * discriminate.
    + eapply Forall_impl; [|exact HF].
      intros l'. apply (line_accepted_topology s s1 l' Ht1).
Qed.

(** *** The origins of the table *)

Lemma read_entries_keys (es : list DemandEntry) :
  forall L s L' s',
  for_fold es Network.read_destination L s = Ok L' s' ->
  map fst (Network.ODpairs s') = map fst (Network.ODpairs s).
Proof.
  apply (for_fold_Ok_chain
           (fun (_ : list DemandEntry) s s' =>
              map fst (Network.ODpairs s') = map fst (Network.ODpairs s))).
  - reflexivity.
  - intros e l L s L1 s1 s2 H1 H2. rewrite H2.
    apply read_destination_Ok_inv in H1
      as [_ [(_ & -> & _) | (_ & o & row & _ & _ & Er & ->)]]; [reflexivity|].
    cbn. now apply zdict_set_keys with (x := row).
Qed.

Lemma read_lines_keys (lines : list DemandLine) :
  forall L s L' s',
  for_fold lines Network.read_demand_line L s = Ok L' s' ->
  map fst (Network.ODpairs s')
  = map fst (Network.ODpairs s) ++ file_origins lines.
Proof.
  apply (for_fold_Ok_chain
           (fun ls s s' => map fst (Network.ODpairs s')
                           = map fst (Network.ODpairs s) ++ file_origins ls)).
  - intros s. unfold file_origins. cbn. now rewrite app_nil_r.
  - intros x l L s L1 s1 s2 H1 H2. rewrite H2.
    unfold file_origins. cbn [map List.concat].
    fold (file_origins l). rewrite app_assoc. f_equal.
    destruct x as [o|es|]; cbn in *.
    + apply read_origin_Ok_inv in H1 as (_ & E & -> & _). cbn.
      now rewrite (zdict_set_fresh _ o [] E), map_app.
    + rewrite app_nil_r. now apply read_entries_keys in H1.
    + discriminate.
Qed.

(** *** The total demand *)

Lemma Qsum_app (a b : list Q) : (Qsum (a ++ b) == Qsum a + Qsum b)%Q.
Proof.
  induction a as [|x a IH]; cbn.
  - now rewrite Qplus_0_l.
  - rewrite IH. now rewrite Qplus_assoc.
Qed.

Lemma read_entries_total (es : list DemandEntry) :
  forall L s L' s',
  for_fold es Network.read_destination L s = Ok L' s' ->
  (Network.totalDemand s' == Network.totalDemand s + Qsum (map e_demand es))%Q.
Proof.
  apply (for_fold_Ok_chain
           (fun es s s' =>
              (Network.totalDemand s'
               == Network.totalDemand s + Qsum (map e_demand es))%Q)).
  - intros s. cbn. now rewrite Qplus_0_r.
  - intros e l L s L1 s1 s2 H1 H2. rewrite H2. cbn [map Qsum fold_right].
    apply read_destination_Ok_inv in H1
      as [_ [(E0 & -> & _) | (_ & o & row & _ & _ & _ & ->)]].
    + rewrite E0. now rewrite Qplus_0_l.
    + cbn. now rewrite Qplus_assoc.
Qed.

Lemma read_lines_total (lines : list DemandLine) :
  forall L s L' s',
  for_fold lines Network.read_demand_line L s = Ok L' s' ->
  (Network.totalDemand s'
   == Network.totalDemand s + Qsum (file_demands lines))%Q.
Proof.
  apply (for_fold_Ok_chain
           (fun ls s s' =>
              (Network.totalDemand s'
               == Network.totalDemand s + Qsum (file_demands ls))%Q)).
  - intros s. cbn. now rewrite Qplus_0_r.
  - intros x l L s L1 s1 s2 H1 H2. rewrite H2.
    unfold file_demands. cbn [map List.concat]. fold (file_demands l).
    rewrite Qsum_app, Qplus_assoc.
    apply Qplus_comp; [|reflexivity].
    destruct x as [o|es|]; cbn in *.
    + apply read_origin_Ok_inv in H1 as (_ & _ & -> & _). cbn.
      now rewrite Qplus_0_r.
    + now apply read_entries_total in H1.
    + discriminate.
Qed.

(** *** The invariant of the OD table *)

Lemma Demand_ok_origin (s : Network.t) (o : Z) :
  Demand_ok s -> zdict_get (Network.ODpairs s) o = None ->
  Demand_ok (Network.set_ODpairs (fun d => zdict_set d o []) s).
Proof.
  intros [Hk Hr] E. constructor; cbn.
  - apply NoDup_zdict_set, Hk.
  - intros o' row Hin. apply In_zdict_set in Hin as [[-> ->] | Hin].
    + split; [constructor | intros d od []].
    + apply Hr, Hin.
Qed.

Lemma Demand_ok_destination (s : Network.t) (o d : Z) (q : Q)
    (row : list (Z * OD.t)) (f : Q -> Q) :
  Demand_ok s -> zdict_get (Network.ODpairs s) o = Some row -> (0 < q)%Q ->
  Demand_ok (Network.set_totalDemand f
               (Network.set_ODpairs (fun dd =>
                  zdict_set dd o (zdict_set row d (OD.mk o d q))) s)).
Proof.
  intros [Hk Hr] E Hq. constructor; cbn.
  - apply NoDup_zdict_set, Hk.
  - intros o' row' Hin. apply In_zdict_set in Hin as [[-> ->] | Hin];
      [|apply Hr, Hin].
    destruct (Hr o row (zdict_get_In _ _ _ E)) as [Hnd Hods].
    split; [apply NoDup_zdict_set, Hnd|].
    intros d' od Hin. apply In_zdict_set in Hin as [[-> ->] | Hin].
    + cbn. auto.
    + apply Hods, Hin.
Qed.

Lemma Table_ids_origin (P : Z -> Prop) (s : Network.t) (o : Z) :
  Table_ids P s -> P o ->
  Table_ids P (Network.set_ODpairs (fun d => zdict_set d o []) s).
Proof.
  intros Ht Ho o' row Hin. cbn in Hin.
  apply In_zdict_set in Hin as [[-> ->] | Hin].
  - split; [exact Ho | intros d od []].
  - apply Ht, Hin.
Qed.

Lemma Table_ids_destination (P : Z -> Prop) (s : Network.t) (o d : Z)
    (od : OD.t) (row : list (Z * OD.t)) (f : Q -> Q) :
  Table_ids P s -> zdict_get (Network.ODpairs s) o = Some row -> P d ->
  Table_ids P (Network.set_totalDemand f
                 (Network.set_ODpairs (fun dd =>
                    zdict_set dd o (zdict_set row d od)) s)).
Proof.
  intros Ht E Hd o' row' Hin. cbn in Hin.
  apply In_zdict_set in Hin as [[-> ->] | Hin]; [|apply Ht, Hin].
  destruct (Ht o row (zdict_get_In _ _ _ E)) as [Ho Hrow].
  split; [exact Ho|].
  intros d' od' Hin. apply In_zdict_set in Hin as [[-> ->] | Hin].
  - exact Hd.
  - apply (Hrow d' od' Hin).
Qed.

Lemma read_entries_table (P : Z -> Prop) (es : list DemandEntry) :
  forall L s L' s',
  for_fold es Network.read_destination L s = Ok L' s' ->
  table_kept P (map e_destination es) s s'.
Proof.
  apply (for_fold_Ok_chain
           (fun es s s' => table_kept P (map e_destination es) s s')).
  - intros s. unfold table_kept. auto.
  - intros e l L s L1 s1 s2 H1 (Hz & Hok & Hids).
    apply read_destination_Ok_inv in H1
      as [_ [(_ & -> & _) | (Hq & o & row & _ & _ & Er & ->)]].
    + split; [exact Hz|]. split; [exact Hok|].
      intros HP. apply Hids. intros x Hx. apply HP. now right.
    + split; [exact Hz|]. split.
      * intros D. apply Hok. now apply Demand_ok_destination.
      * intros HP T. apply Hids; [intros x Hx; apply HP; now right|].
        apply Table_ids_destination; [exact T | exact Er |].
        apply HP. now left.
Qed.

Lemma read_lines_table (P : Z -> Prop) (lines : list DemandLine) :
  forall L s L' s',
  for_fold lines Network.read_demand_line L s = Ok L' s' ->
  table_kept P (file_ids lines) s s'.
Proof.
  apply (for_fold_Ok_chain (fun ls s s' => table_kept P (file_ids ls) s s')).
  - intros s. unfold table_kept. auto.
  - intros x l L s L1 s1 s2 H1 (Hz & Hok & Hids).
    unfold file_ids. cbn [map List.concat]. fold (file_ids l).
    destruct x as [o|es|]; cbn in H1; [| |discriminate].
    + apply read_origin_Ok_inv in H1 as (_ & E & -> & _).
      split; [exact Hz|]. split.
      * intros D. apply Hok. now apply Demand_ok_origin.
      * intros HP T. apply Hids.
        -- intros y Hy. apply HP. apply in_or_app. now right.
        -- apply Table_ids_origin; [exact T|]. apply HP. now left.
    + apply (read_entries_table P) in H1 as (Hz1 & Hok1 & Hids1).
      split; [congruence|]. split; [auto|].
      intros HP T. apply Hids.
      * intros y Hy. apply HP. apply in_or_app. now right.
      * apply Hids1; [|exact T].
        intros y Hy. apply HP. apply in_or_app. now left.
Qed.

(** *** ReadDemandFile as a whole *)

Lemma ReadDemandFile_Ok_inv (md : DemandMetadata) (lines : list DemandLine)
    (s s' : Network.t) :
  Network.ReadDemandFile md lines s = Ok tt s' ->
  exists s1 L',
    Network.numZones s1 = Some (dm_numZones md)
    /\ keeps_topology s s1
    /\ Network.ODpairs s1 = Network.ODpairs s
    /\ Network.totalDemand s1 = Network.totalDemand s
    /\ for_fold lines Network.read_demand_line
         (Network.mkDemandLocals 0 0 0 None) s1 = Ok L' s'.
Proof.
  unfold Network.ReadDemandFile. intros H.
  apply bind_Ok_inv in H as (nz & s0 & H0 & H). inversion H0; subst nz s0.
  apply bind_Ok_inv in H as ([] & s1 & H1 & H).
  apply bind_Ok_inv in H as (L' & s2 & H2 & H). inversion H; subst s2.
  exists s1, L'.
  destruct (Network.numZones s) as [z|] eqn:Ez.
  - destruct (Z.eqb_spec z (dm_numZones md)); [|discriminate].
    inversion H1; subst s1.
    split; [congruence|]. split; [apply keeps_topology_refl|]. auto.
  - inversion H1; subst s1. cbn.
    split; [reflexivity|]. split; [|auto].
    unfold keeps_topology. cbn. repeat split.
Qed.

Lemma Demand_ok_ODpairs (s s' : Network.t) :
  Network.ODpairs s' = Network.ODpairs s -> Demand_ok s -> Demand_ok s'.
Proof. intros E [Hk Hr]. constructor; rewrite E; assumption. Qed.

Lemma Table_ids_ODpairs (P : Z -> Prop) (s s' : Network.t) :
  Network.ODpairs s' = Network.ODpairs s -> Table_ids P s -> Table_ids P s'.
Proof. unfold Table_ids. intros E H. now rewrite E. Qed.

Lemma accepted_ids (s : Network.t) (lines : list DemandLine) :
  Forall (line_accepted s) lines ->
  forall x, In x (file_ids lines) -> is_zone s x.
Proof.
  intros HF x Hx. unfold file_ids in Hx. apply in_concat in Hx as (ids & Hids & Hx).
  apply in_map_iff in Hids as (l & <- & Hl).
  rewrite Forall_forall in HF. specialize (HF l Hl).
  destruct l as [o|es|]; cbn in *.
  - destruct Hx as [<- | []]. exact HF.
  - apply in_map_iff in Hx as (e & <- & He).
    rewrite Forall_forall in HF. now apply HF.
  - contradiction.
Qed.

(** The table that the loop leaves. *)
Lemma demand_table (md : DemandMetadata) (lines : list DemandLine)
    (s s' : Network.t) :
  Network.ReadDemandFile md lines s = Ok tt s' ->
  Demand_ok s -> Table_ids (is_zone s) s ->
  Demand_ok s' /\ Table_ids (is_zone s') s'.
Proof.
  intros H D T.
  apply ReadDemandFile_Ok_inv in H as (s1 & L' & _ & Ht1 & Eo & _ & H).
  destruct (read_lines_accepted _ _ _ _ _ H) as [Ht HF].
  destruct (read_lines_table (is_zone s1) _ _ _ _ _ H) as (_ & Hok & Hids).
  split.
  - apply Hok. apply (Demand_ok_ODpairs s s1 Eo D).
  - assert (T1 : Table_ids (is_zone s1) s1).
    { apply (Table_ids_ODpairs _ s s1 Eo).
      intros o row Hin. destruct (T o row Hin) as [Ho Hrow].
      split; [now apply (is_zone_topology s s1)|].
      intros d od Hd. apply (is_zone_topology s s1 d Ht1). eauto. }
    specialize (Hids (accepted_ids s1 lines HF) T1).
    intros o row Hin. destruct (Hids o row Hin) as [Ho Hrow].
    split; [now apply (is_zone_topology s1 s')|].
    intros d od Hd. apply (is_zone_topology s1 s' d Ht). eauto.
Qed.

(** X5: when ReadDemandFile returns, the OD table is well formed:
    origins appear once, the destinations of an origin appear once, every
    OD object is filed under its own origin and destination and has a
    positive demand, and every node ID of the table passed the zone test
    (it is at most the number of nodes and indexes a node that is a
    zone). *)
Theorem ReadDemandFile_table (md : DemandMetadata) (lines : list DemandLine)
    (s s' : Network.t) :
  Network.ReadDemandFile md lines s = Ok tt s' ->
  Demand_ok s -> Table_ids (is_zone s) s ->
  Demand_ok s' /\ Table_ids (is_zone s') s'.
Proof. exact (demand_table md lines s s'). Qed.

Lemma ReadDemandFile_table_witness :
  Demand_ok (state_of one_link
               (Network.ReadDemandFile (mkDemandMetadata 50 2) demand_50 one_link)).
Proof.
  apply (ReadDemandFile_table (mkDemandMetadata 50 2) demand_50 one_link).
  - vm_compute. reflexivity.
  - constructor; cbn; [constructor | intros o row []].
  - intros o row [].
Defined.

(** X6: ReadDemandFile returns only if every line is well formed: no line
    has a number of tokens that is not a multiple of three, every origin
    and destination passes the zone test, every entry has its colon and
    a demand that is not negative.  The origins of the table are then
    those it had, followed by the origins of the file in the order of the
    file, so that an origin of the file is neither an old one nor given
    twice; and the number of zones is the one of the metadata. *)
Theorem ReadDemandFile_accepts (md : DemandMetadata) (lines : list DemandLine)
    (s s' : Network.t) :
  Network.ReadDemandFile md lines s = Ok tt s' ->
  Forall (line_accepted s) lines
  /\ map fst (Network.ODpairs s')
     = map fst (Network.ODpairs s) ++ file_origins lines
  /\ (NoDup (map fst (Network.ODpairs s)) ->
      NoDup (map fst (Network.ODpairs s) ++ file_origins lines))
  /\ Network.numZones s' = Some (dm_numZones md).
Proof.
  intros H.
  apply ReadDemandFile_Ok_inv in H as (s1 & L' & Hz & Ht1 & Eo & _ & H).
  destruct (read_lines_accepted _ _ _ _ _ H) as [Ht HF].
  pose proof (read_lines_keys _ _ _ _ _ H) as Hk. rewrite Eo in Hk.
  destruct (read_lines_table (fun _ => True) _ _ _ _ _ H) as (Hz' & _ & _).
  split; [|split; [exact Hk | split; [|congruence]]].
  - eapply Forall_impl; [|exact HF].
    intros l. apply (line_accepted_topology s s1 l Ht1).
  - intros Hnd. rewrite <- Hk. clear Hk HF Ht Hz Hz'.
    rewrite <- Eo in Hnd. clear Eo Ht1. revert L' s1 s' H Hnd.
    generalize (Network.mkDemandLocals 0 0 0 None).
    intros L L' s1 s' H. revert L s1 L' s' H.
    apply (for_fold_Ok_chain
             (fun (_ : list DemandLine) s s' =>
                NoDup (map fst (Network.ODpairs s)) ->
                NoDup (map fst (Network.ODpairs s')))).
    + auto.
    + intros x l L s0 L1 s2 s3 H1 IH Hnd. apply IH.
      destruct x as [o|es|]; cbn in H1; [| |discriminate].
      * apply read_origin_Ok_inv in H1 as (_ & _ & -> & _). cbn.
        apply NoDup_zdict_set, Hnd.
      * apply read_entries_keys in H1. now rewrite H1.
Qed.

Lemma ReadDemandFile_accepts_witness :
  Forall (line_accepted one_link) demand_50.
Proof.
  eapply (ReadDemandFile_accepts (mkDemandMetadata 50 2) demand_50 one_link).
  vm_compute. reflexivity.
Defined.

Lemma Qsum_nonneg (l : list Q) :
  (forall d, In d l -> (0 <= d)%Q) -> (0 <= Qsum l)%Q.
Proof.
  induction l as [|x l IH]; intros H; cbn; [apply Qle_refl|].
  pose proof (H x (or_introl eq_refl)) as Hx.
  assert (Hl : (0 <= Qsum l)%Q) by (apply IH; intros d Hd; apply H; now right).
  unfold Qsum in Hl. lra.
Qed.

Lemma Qsum_zero (l : list Q) :
  (forall d, In d l -> (d == 0)%Q) -> (Qsum l == 0)%Q.
Proof.
  induction l as [|x l IH]; intros H; cbn; [reflexivity|].
  pose proof (H x (or_introl eq_refl)) as Hx.
  assert (Hl : (Qsum l == 0)%Q) by (apply IH; intros d Hd; apply H; now right).
  unfold Qsum in Hl. lra.
Qed.

Lemma accepted_demands (s : Network.t) (lines : list DemandLine) :
  Forall (line_accepted s) lines ->
  forall d, In d (file_demands lines) -> (0 <= d)%Q.
Proof.
  intros HF d Hd. unfold file_demands in Hd.
  apply in_concat in Hd as (ds & Hds & Hd).
  apply in_map_iff in Hds as (l & <- & Hl).
  rewrite Forall_forall in HF. specialize (HF l Hl).
  destruct l as [o|es|]; cbn in *; try contradiction.
  apply in_map_iff in Hd as (e & <- & He).
  rewrite Forall_forall in HF. apply (HF e He).
Qed.

(** X7: when ReadDemandFile returns, no demand of the file is negative
    and totalDemand has not decreased; it is what it was when no demand
    of the file is positive. *)
Theorem ReadDemandFile_totalDemand (md : DemandMetadata)
    (lines : list DemandLine) (s s' : Network.t) :
  Network.ReadDemandFile md lines s = Ok tt s' ->
  (forall d, In d (file_demands lines) -> (0 <= d)%Q)
  /\ (Network.totalDemand s <= Network.totalDemand s')%Q
  /\ ((forall d, In d (file_demands lines) -> ~ (0 < d)%Q) ->
      (Network.totalDemand s' == Network.totalDemand s)%Q).
Proof.
  intros H.
  apply ReadDemandFile_Ok_inv in H as (s1 & L' & _ & _ & _ & Et & H).
  pose proof (read_lines_total _ _ _ _ _ H) as Hsum. rewrite Et in Hsum.
  destruct (read_lines_accepted _ _ _ _ _ H) as [_ HF].
  pose proof (accepted_demands s1 lines HF) as Hnn.
  split; [exact Hnn|]. split.
  - pose proof (Qsum_nonneg _ Hnn). lra.
  - intros Hz. rewrite Hsum.
    assert (H0 : (Qsum (file_demands lines) == 0)%Q).
    { apply Qsum_zero. intros d Hd. specialize (Hnn d Hd).
      specialize (Hz d Hd). lra. }
    rewrite H0. ring.
Qed.

Lemma ReadDemandFile_totalDemand_witness :
  (Network.totalDemand one_link
   <= Network.totalDemand
        (state_of one_link
           (Network.ReadDemandFile (mkDemandMetadata 50 2) demand_50 one_link)))%Q.
Proof.
  apply (ReadDemandFile_totalDemand (mkDemandMetadata 50 2) demand_50 one_link).
  vm_compute. reflexivity.
Defined.

(** The OD pairs refer to nodes of the network. *)
Lemma demand_consistent (md : DemandMetadata)
    (lines : list DemandLine) (s s' : Network.t) :
  Network.ReadDemandFile md lines s = Ok tt s' ->
  consistent s = true ->
  (forall x, In x (file_ids lines) -> 1 <= x) ->
  consistent s' = true /\ nonneg_costs s' = nonneg_costs s.
Proof.
  intros H Hc Hpos. apply consistent_Wf in Hc.
  apply ReadDemandFile_Ok_inv in H as (s1 & L' & _ & Ht1 & Eo & _ & H).
  destruct (read_lines_accepted _ _ _ _ _ H) as [Ht HF].
  pose proof (keeps_topology_trans _ _ _ Ht1 Ht) as Htop.
  set (P := fun x => 1 <= x <= Z.of_nat (List.length (Network.nodes s))).
  destruct (read_lines_table P _ _ _ _ _ H) as (_ & _ & Hids).
  assert (T : Table_ids P s').
  { apply Hids.
    - intros x Hx. split; [apply Hpos, Hx|].
      pose proof (accepted_ids s1 lines HF x Hx) as Hz.
      apply (is_zone_topology s s1 x Ht1) in Hz.
      destruct Hz as (nn & k & nd & Hnn & Hle & _).
      rewrite (wf_numNodes s Hc) in Hnn. inversion Hnn. lia.
    - apply (Table_ids_ODpairs _ s s1 Eo).
      intros o row Hin. destruct (wf_od s Hc (o, row) Hin) as [Ho Hrow].
      split; [exact Ho|]. intros d od Hd. apply (Hrow (d, od) Hd). }
  unfold keeps_topology in Htop. destruct Htop as (E1 & E2 & E3 & E4 & E5 & E6 & E7 & E8).
  split.
  - apply Wf_consistent. destruct Hc as [W1 W2 W3 W4].
    constructor; rewrite ?E1, ?E2, ?E3, ?E5, ?E8; try assumption.
    intros [o row] Hin. destruct (T o row Hin) as [Ho Hrow].
    split; [exact Ho|]. intros [d od] Hd. apply (Hrow d od Hd).
  - unfold nonneg_costs. now rewrite E8.
Qed.

(** X8: ReadDemandFile keeps a network consistent when the node IDs of
    the file are positive: the OD pairs it adds refer to nodes of the
    network. *)
Theorem ReadDemandFile_consistent (md : DemandMetadata)
    (lines : list DemandLine) (s s' : Network.t) :
  Network.ReadDemandFile md lines s = Ok tt s' ->
  consistent s = true ->
  (forall x, In x (file_ids lines) -> 1 <= x) ->
  consistent s' = true /\ nonneg_costs s' = nonneg_costs s.
Proof. exact (demand_consistent md lines s s'). Qed.

Lemma ReadDemandFile_consistent_witness :
  consistent (state_of one_link
                (Network.ReadDemandFile (mkDemandMetadata 50 2) demand_50 one_link))
  = true.
Proof.
  apply (ReadDemandFile_consistent (mkDemandMetadata 50 2) demand_50 one_link).
  - vm_compute. reflexivity.
  - vm_compute. reflexivity.
  - intros x Hx. vm_compute in Hx. intuition lia.
Defined.

(* ------------------------------------------------------------------ *)
(** ** ReadDemandFile: the groups of destinations                       *)
(* ------------------------------------------------------------------ *)

Lemma zdict_get_set_same {V} (d : list (Z * V)) (k : Z) (v : V) :
  zdict_get (zdict_set d k v) k = Some v.
Proof.
  induction d as [|[k' v'] d IH]; cbn.
  - now rewrite Z.eqb_refl.
  - destruct (Z.eqb_spec k k') as [->|Hne]; cbn.
    + now rewrite Z.eqb_refl.
    + destruct (Z.eqb_spec k k'); [contradiction | exact IH].
Qed.

Lemma zdict_set_In_keys {V} (d : list (Z * V)) (k x : Z) (v : V) :
  In x (map fst (zdict_set d k v)) <-> x = k \/ In x (map fst d).
Proof.
  induction d as [|[k' v'] d IH]; cbn.
  - intuition.
  - destruct (Z.eqb_spec k k') as [->|Hne]; cbn.
    + intuition.
    + rewrite IH. intuition.
Qed.

Lemma read_origin_Ok_check (L L' : Network.demand_locals) (o : Z)
    (s s' : Network.t) :
  Network.read_origin L o s = Ok L' s' ->
  L' = Network.mkDemandLocals (Network.numOrigins L + 1) 0
         (Network.numODpairs L) (Some o)
  /\ (0 < Network.numOrigins L ->
      exists o0 row, Network.origin L = Some o0
        /\ zdict_get (Network.ODpairs s) o0 = Some row
        /\ Z.of_nat (List.length row) = Network.numDestinations L).
Proof.
  unfold Network.read_origin. intros H.
  apply bind_Ok_inv in H as ([] & s1 & H1 & H).
  assert (Hchk : s1 = s /\ (0 < Network.numOrigins L ->
            exists o0 row, Network.origin L = Some o0
              /\ zdict_get (Network.ODpairs s) o0 = Some row
              /\ Z.of_nat (List.length row) = Network.numDestinations L)).
  { destruct (Z.ltb_spec 0 (Network.numOrigins L)) as [Hpos | Hle].
    - apply bind_Ok_inv in H1 as (row & s2 & H2 & H1).
      unfold Network.od_row in H2.
      destruct (Network.origin L) as [o0|]; [|discriminate].
      destruct (zdict_get _ o0) as [row'|] eqn:Er; [|discriminate].
      inversion H2; subst row' s2.
      destruct (Z.eqb_spec (Z.of_nat (List.length row)) (Network.numDestinations L));
        [|discriminate].
      inversion H1. subst s1. split; [reflexivity|]. intros _.
      exists o0, row. auto.
    - inversion H1. split; [reflexivity | lia]. }
  destruct Hchk as [-> Hchk]. split; [|exact Hchk].
  apply bind_Ok_inv in H as ([] & s1 & _ & H).
  apply bind_Ok_inv in H as (known & s2 & _ & H).
  apply bind_Ok_inv in H as ([] & s3 & _ & H).
  apply bind_Ok_inv in H as ([] & s4 & _ & H).
  now inversion H.
Qed.

Lemma read_destination_Ok_locals (L L' : Network.demand_locals)
    (e : DemandEntry) (s s' : Network.t) :
  Network.read_destination L e s = Ok L' s' ->
  (Qltb 0 (e_demand e) = false /\ L' = L)
  \/ (Qltb 0 (e_demand e) = true
      /\ L' = Network.mkDemandLocals (Network.numOrigins L)
                (Network.numDestinations L + 1) (Network.numODpairs L + 1)
                (Network.origin L)).
Proof.
  unfold Network.read_destination. intros H.
  apply bind_Ok_inv in H as ([] & s1 & _ & H).
  apply bind_Ok_inv in H as ([] & s2 & _ & H).
  destruct (Qltb (e_demand e) 0); [discriminate|].
  destruct (Qltb 0 (e_demand e)).
  - right. split; [reflexivity|].
    apply bind_Ok_inv in H as (row & s3 & _ & H).
    destruct (Network.origin L) as [o|]; [|discriminate].
    apply bind_Ok_inv in H as ([] & s4 & _ & H).
    apply bind_Ok_inv in H as ([] & s5 & _ & H).
    now inversion H.
  - left. now inversion H.
Qed.

Lemma pos_dests_snoc (es : list DemandEntry) (e : DemandEntry) :
  pos_dests (es ++ [e])
  = (pos_dests es ++ (if Qltb 0 (e_demand e) then [e_destination e] else []))%list.
Proof.
  unfold pos_dests. rewrite filter_app, map_app. cbn.
  now destruct (Qltb 0 (e_demand e)).
Qed.

(** One entry of a line of destinations keeps the open group. *)
Lemma Group_entry (o : Z) (es : list DemandEntry) (e : DemandEntry)
    (L L' : Network.demand_locals) (s s' : Network.t) :
  Group (Some (o, es)) L s ->
  Network.read_destination L e s = Ok L' s' ->
  Group (Some (o, (es ++ [e])%list)) L' s'.
Proof.
  intros (Hn & Ho & Hpos & row & Hrow & Hnd & Hkeys & Hcount) H.
  pose proof (read_destination_Ok_locals _ _ _ _ _ H) as HL.
  apply read_destination_Ok_inv in H as [_ Hcase].
  unfold Group. rewrite !pos_dests_snoc.
  destruct HL as [[Hq ->] | [Hq ->]]; rewrite Hq.
  - destruct Hcase as [(_ & -> & _) | (Hlt & _)];
      [|apply Qltb_true in Hlt; congruence].
    rewrite app_nil_r. split; [exact Hn|]. split; [exact Ho|].
    split; [exact Hpos|]. exists row. auto.
  - destruct Hcase as [(H0 & _) | (_ & o' & row' & Ho' & _ & Hrow' & ->)].
    { apply Qltb_true in Hq. rewrite H0 in Hq. exfalso.
      revert Hq. apply Qlt_irrefl. }
    assert (o' = o) by congruence. subst o'.
    assert (row' = row) by congruence. subst row'.
    cbn. split; [exact Hn|]. split; [exact Ho|]. split; [exact Hpos|].
    eexists. split; [apply zdict_get_set_same|].
    split; [apply NoDup_zdict_set, Hnd|]. split.
    + intros x. rewrite zdict_set_In_keys, in_app_iff, Hkeys. cbn. intuition.
    + rewrite length_app. cbn. lia.
Qed.

Lemma Group_entries (o : Z) (es' : list DemandEntry) :
  forall es L s L' s',
  Group (Some (o, es)) L s ->
  for_fold es' Network.read_destination L s = Ok L' s' ->
  Group (Some (o, (es ++ es')%list)) L' s'.
Proof.
  induction es' as [|e es' IH]; intros es L s L' s' HG H; cbn in H.
  - inversion H; subst. now rewrite app_nil_r.
  - apply bind_Ok_inv in H as (L1 & s1 & H1 & H).
    pose proof (Group_entry o es e L L1 s s1 HG H1) as HG1.
    specialize (IH _ _ _ _ _ HG1 H). now rewrite <- app_assoc in IH.
Qed.

(** Before the first origin no entry can have a positive demand. *)
Lemma no_group_entries (es : list DemandEntry) :
  forall L s L' s',
  Network.origin L = None ->
  for_fold es Network.read_destination L s = Ok L' s' ->
  L' = L /\ s' = s /\ forall e, In e es -> (e_demand e == 0)%Q.
Proof.
  induction es as [|e es IH]; intros L s L' s' Ho H; cbn in H.
  - inversion H. split; [reflexivity|]. split; [reflexivity | intros e []].
  - apply bind_Ok_inv in H as (L1 & s1 & H1 & H).
    apply read_destination_Ok_inv in H1
      as [_ [(H0 & -> & ->) | (_ & o & _ & Ho' & _)]]; [|congruence].
    destruct (IH _ _ _ _ Ho H) as (-> & -> & Hall).
    split; [reflexivity|]. split; [reflexivity|].
    intros e' [<- | He']; [exact H0 | apply Hall, He'].
Qed.

Lemma Group_line (g : option (Z * list DemandEntry)) (l : DemandLine)
    (L L' : Network.demand_locals) (s s' : Network.t) :
  Group g L s ->
  Network.read_demand_line L l s = Ok L' s' ->
  Group (group_step g l) L' s'.
Proof.
  intros HG H. destruct l as [o'|es'|]; cbn in H; [| |discriminate].
  - pose proof (read_origin_Ok_check _ _ _ _ _ H) as [-> _].
    apply read_origin_Ok_inv in H as (_ & E & -> & _).
    destruct HG as [Hn _]. unfold Group, group_step.
    cbn [Network.numOrigins Network.origin Network.numDestinations
         Network.ODpairs Network.set_ODpairs].
    split; [lia|]. split; [reflexivity|].
    split; [lia|]. exists []. split; [apply zdict_get_set_same|].
    split; [constructor|]. split; [reflexivity|]. reflexivity.
  - destruct g as [[o es]|]; cbn.
    + apply (Group_entries o es' es L s L' s' HG H).
    + destruct HG as (Hn & Ho & H0).
      destruct (no_group_entries es' _ _ _ _ Ho H) as (-> & -> & _).
      split; [exact Hn|]. auto.
Qed.

Lemma Group_lines (lines : list DemandLine) :
  forall g L s L' s',
  Group g L s ->
  for_fold lines Network.read_demand_line L s = Ok L' s' ->
  Group (fold_left group_step lines g) L' s'.
Proof.
  induction lines as [|l lines IH]; intros g L s L' s' HG H; cbn in H.
  - inversion H; subst. exact HG.
  - apply bind_Ok_inv in H as (L1 & s1 & H1 & H).
    cbn. apply (IH _ _ _ _ _ (Group_line g l L L1 s s1 HG H1) H).
Qed.

(** X20: the checks of ReadDemandFile on the groups of destinations.
    When it returns, no entry with a positive demand comes before the
    first origin line (it would raise KeyError), and for every origin
    line but the first, the group that it closes has no destination
    twice among its entries with a positive demand (the count of the
    entries must equal the size of the row).  The group that the end of
    the file closes is not checked. *)
Theorem ReadDemandFile_groups (md : DemandMetadata) (lines : list DemandLine)
    (s s' : Network.t) :
  Network.ReadDemandFile md lines s = Ok tt s' ->
  (forall pre es post, lines = (pre ++ DestLine es :: post)%list ->
     last_group pre = None -> forall e, In e es -> (e_demand e == 0)%Q)
  /\ (forall pre o' post o es,
        lines = (pre ++ OriginLine o' :: post)%list ->
        last_group pre = Some (o, es) -> NoDup (pos_dests es)).
Proof.
  intros H.
  apply ReadDemandFile_Ok_inv in H as (s1 & L' & _ & _ & _ & _ & H).
  assert (HG0 : Group None (Network.mkDemandLocals 0 0 0 None) s1).
  { unfold Group. cbn [Network.numOrigins Network.origin].
    split; [lia | auto]. }
  split.
  - intros pre es post -> Hg e He.
    rewrite for_fold_app in H.
    apply bind_Ok_inv in H as (L1 & s2 & Hpre & H).
    pose proof (Group_lines pre _ _ _ _ _ HG0 Hpre) as HG.
    fold (last_group pre) in HG. rewrite Hg in HG.
    destruct HG as (_ & Ho & _).
    cbn [for_fold] in H. apply bind_Ok_inv in H as (L2 & s3 & H2 & _).
    cbn in H2.
    destruct (no_group_entries es _ _ _ _ Ho H2) as (_ & _ & Hall).
    apply Hall, He.
  - intros pre o' post o es -> Hg.
    rewrite for_fold_app in H.
    apply bind_Ok_inv in H as (L1 & s2 & Hpre & H).
    pose proof (Group_lines pre _ _ _ _ _ HG0 Hpre) as HG.
    fold (last_group pre) in HG. rewrite Hg in HG.
    destruct HG as (_ & Ho & Hpos & row & Hrow & Hnd & Hkeys & Hcount).
    cbn [for_fold] in H. apply bind_Ok_inv in H as (L2 & s3 & H2 & _).
    cbn in H2.
    apply read_origin_Ok_check in H2 as [_ Hchk].
    destruct (Hchk Hpos) as (o0 & row0 & Ho0 & Hrow0 & Hlen).
    assert (o0 = o) by congruence. subst o0.
    assert (row0 = row) by congruence. subst row0.
    apply (@NoDup_incl_NoDup _ (map fst row) (pos_dests es) Hnd).
    + rewrite length_map. lia.
    + intros x Hx. apply Hkeys, Hx.
Qed.

Lemma ReadDemandFile_groups_witness :
  NoDup (pos_dests [mkDemandEntry 1 true 0; mkDemandEntry 2 true 50]).
Proof.
  apply (ReadDemandFile_groups (mkDemandMetadata 50 2)
           (demand_50 ++ [OriginLine 2])%list one_link
           (state_of one_link
              (Network.ReadDemandFile (mkDemandMetadata 50 2)
                 (demand_50 ++ [OriginLine 2])%list one_link)))
    with (pre := demand_50) (o' := 2) (post := []) (o := 1).
  - vm_compute. reflexivity.
  - reflexivity.
  - reflexivity.
Defined.

(* ------------------------------------------------------------------ *)
(** ** The links behind the labels of ShortestPath                      *)
(* ------------------------------------------------------------------ *)

Section Relaxation.

Variable s0 : Network.t.
Hypothesis W0 : Wf s0.
Hypothesis N0 : nonneg_costs s0 = true.
Variable o : nat.

(** A relaxation that takes place changes the labels of a node that has
    not been popped. *)
Lemma relabel_fresh (L : list Z) (u : nat) (P : list nat)
    (lb : list (pot * option Z)) (c pu : Q) (v : nat) :
  Settled s0 o L (u :: P) lb -> (0 <= c)%Q ->
  fst (lab lb u) = PFin pu ->
  pot_gt (fst (lab lb v)) (PFin (pu + c)) = true ->
  ~ In v (u :: P).
Proof.
  intros St Hc0 Hpu Hgt Hin.
  pose proof (st_last _ _ _ _ _ St u P eq_refl v Hin) as Hle.
  pose proof (st_nonneg _ _ _ _ _ St u pu Hpu) as Hpu0.
  rewrite Hpu in Hle. apply pot_gt_fin in Hgt as [Hv' | (pv & Hv' & Hlt)];
    rewrite Hv' in Hle.
  - discriminate Hle.
  - apply pot_le_fin in Hle. lra.
Qed.

Lemma Optimal_select (L : list Z) (P : list nat) (lb : list (pot * option Z))
    (u : nat) :
  Optimal s0 L P P lb ->
  (chosen lb L < List.length L)%nat ->
  py_norm (List.length lb) (nth (chosen lb L) L 0) = Some u ->
  Optimal s0 (pop (chosen lb L) L) (u :: P) P lb.
Proof.
  intros [Hscan Hrel Htight] Hpos Hu. constructor.
  - intros u' Hthru Hlt.
    destruct (Hscan u' Hthru Hlt) as [Hin | (i & Hi & Hn)];
      [left; now right|].
    destruct (Z.eq_dec i (nth (chosen lb L) L 0)) as [-> | Hne].
    + left. left. congruence.
    + right. exists i. split; [|exact Hn].
      apply (In_pop_other _ _ 0); assumption.
  - exact Hrel.
  - intros k w Hk.
    destruct (Htight k w Hk) as (u' & r & l & c & Hw & Hin & H).
    exists u', r, l, c. split; [exact Hw|]. split; [now right | exact H].
Qed.

Lemma relaxed_link (lb : list (pot * option Z)) (u r v : nat) (l : Link.t)
    (c : Q) :
  nth_error (Network.heap s0) r = Some l ->
  Link.cost l = Some c ->
  Link.head l = Z.of_nat v + 1 ->
  pot_le (fst (lab lb v)) (pot_add (fst (lab lb u)) c) ->
  relaxed s0 lb u r.
Proof.
  intros Hl Hc Hh Hle l' c' v' Hl' Hc' Hh'.
  assert (l' = l) by congruence. subst l'.
  assert (c' = c) by congruence. subst c'.
  assert (v' = v) by lia. subst v'. exact Hle.
Qed.

Lemma SearchedAt_step (r : nat) (rs : list nat) (L : list Z) (u : nat)
    (P : list nat) (lb : list (pot * option Z)) (l : Link.t) (c : Q) (v : nat) :
  SearchedAt s0 o (r :: rs) L u P lb ->
  In r (fstar s0 u) ->
  nth_error (Network.heap s0) r = Some l ->
  Link.cost l = Some c ->
  Link.tail l = Z.of_nat u + 1 ->
  Link.head l = Z.of_nat v + 1 ->
  (v < List.length lb)%nat ->
  SearchedAt s0 o rs L u P (relabel lb u v c).
Proof.
  intros (St & Bd & Op & done & Hdone & Hrel_u) Hr Hl Hc Ht Hh Hv.
  split; [apply (Settled_step s0 W0 N0 o r L u P lb l c v); assumption|].
  split; [apply (Bounded_step s0 o r L u P lb l c v); assumption|].
  pose proof (nonneg_costs_link s0 r l c N0 Hl Hc) as Hc0.
  unfold relabel.
  destruct (pot_gt (fst (lab lb v)) (pot_add (fst (lab lb u)) c)) eqn:Egt.
  - destruct (fst (lab lb u)) as [|pu] eqn:Hpu;
      [cbn in Egt; rewrite pot_gt_inf in Egt; discriminate|].
    cbn [pot_add] in *.
    pose proof (relabel_fresh L u P lb c pu v St Hc0 Hpu Egt) as HvP.
    assert (Hsame : forall p, In p (u :: P) ->
              lab (list_set v (PFin (pu + c), Some (Z.of_nat u + 1)) lb) p
              = lab lb p).
    { intros p Hp. rewrite (lab_list_set lb v p _ Hv).
      destruct (Nat.eqb_spec p v) as [->|]; [contradiction | reflexivity]. }
    assert (Hdown : forall k,
              pot_le (fst (lab (list_set v (PFin (pu + c), Some (Z.of_nat u + 1)) lb) k))
                     (fst (lab lb k))).
    { intros k. rewrite (lab_list_set lb v k _ Hv).
      destruct (Nat.eqb_spec k v) as [->|]; [|apply pot_le_refl].
      cbn. apply pot_gt_le, Egt. }
    assert (Hkeep : forall p r', In p (u :: P) -> relaxed s0 lb p r' ->
              relaxed s0 (list_set v (PFin (pu + c), Some (Z.of_nat u + 1)) lb) p r').
    { intros p r' Hp Hrel l' c' v' Hl' Hc' Hh'.
      rewrite (Hsame p Hp).
      apply (pot_le_trans _ (fst (lab lb v'))); [apply Hdown|].
      apply (Hrel l' c' v'); assumption. }
    destruct Op as [Hscan Hrel Htight].
    split; [constructor|].
    + intros u'. rewrite length_list_set. apply Hscan.
    + intros p r' Hp Hr'. apply Hkeep; [now right|]. apply Hrel; assumption.
    + intros k w. rewrite (lab_list_set lb v k _ Hv).
      destruct (Nat.eqb_spec k v) as [->|Hne]; cbn [fst snd].
      * intros H. inversion H; subst w. exists u, r, l, c.
        rewrite (Hsame u (or_introl eq_refl)), Hpu. cbn.
        repeat split; auto; now left.
      * intros H.
        destruct (Htight k w H) as (u' & r' & l' & c' & Hw & Hin & H').
        exists u', r', l', c'. rewrite (Hsame u' Hin).
        split; [exact Hw|]. split; [exact Hin | exact H'].
    + exists (done ++ [r])%list. split; [now rewrite <- app_assoc|].
      intros r' Hr'. apply in_app_or in Hr' as [Hr' | [<- | []]].
      * apply Hkeep; [now left|]. apply Hrel_u, Hr'.
      * apply (relaxed_link _ u r v l c Hl Hc Hh).
        rewrite (Hsame u (or_introl eq_refl)), Hpu.
        rewrite (lab_list_set lb v v _ Hv), Nat.eqb_refl. cbn.
        apply pot_le_refl.
  - split; [exact Op|].
    exists (done ++ [r])%list. split; [now rewrite <- app_assoc|].
    intros r' Hr'. apply in_app_or in Hr' as [Hr' | [<- | []]].
    + apply Hrel_u, Hr'.
    + apply (relaxed_link _ u r v l c Hl Hc Hh). exact Egt.
Qed.

Lemma Optimal_start (origin : Z) :
  o = Z.to_nat (origin - 1) ->
  1 <= origin <= Z.of_nat (List.length (Network.nodes s0)) ->
  Optimal s0
    (py_range (Network.firstThroughNode s0 - 1)
       (Z.of_nat (List.length (Network.nodes s0)))) [] []
    (list_set o (PFin 0, None)
       (repeat (PInf, None) (List.length (Network.nodes s0)))).
Proof.
  intros Ho Hrange.
  assert (Hlt : (o < List.length
                    (repeat (PInf, @None Z) (List.length (Network.nodes s0))))%nat).
  { rewrite repeat_length. lia. }
  constructor.
  - intros u Hthru. rewrite length_list_set, repeat_length. intros Hu.
    right. exists (Z.of_nat u). split.
    + apply In_py_range. lia.
    + rewrite py_norm_nonneg by lia. f_equal. lia.
  - intros p r [].
  - intros k w. rewrite (lab_list_set _ o k _ Hlt), lab_repeat.
    destruct (Nat.eqb k o); cbn; discriminate.
Qed.

(** Under non-negative costs ShortestPath returns with labels that carry
    the three invariants at the empty scan list. *)
Lemma ShortestPath_Searched (origin : Z) :
  o = Z.to_nat (origin - 1) ->
  1 <= origin <= Z.of_nat (List.length (Network.nodes s0)) ->
  exists s' P', Network.ShortestPath origin s0 = Ok (labels s') s'
                /\ same_frame s0 s' /\ Searched s0 o [] P' (labels s').
Proof.
  intros Ho Hrange.
  apply (ShortestPath_invariant s0 W0 (Searched s0 o) (SearchedAt s0 o)).
  - intros L P lb u Hlen (St & Bd & Op) Hpos Hu.
    split; [now apply Settled_select|].
    split; [now apply Bounded_select|].
    split; [now apply Optimal_select|].
    exists []. split; [reflexivity | intros r []].
  - intros r rs L u P lb l c v _ H Hr Hl Hc Ht Hh Hv.
    apply (SearchedAt_step r rs L u P lb l c v); assumption.
  - intros L u P lb _ (St & Bd & [Hscan Hrel Htight] & done & Hdone & Hrel_u).
    rewrite app_nil_r in Hdone.
    split; [exact St|]. split; [exact Bd|]. constructor; auto.
    intros p r [<- | Hp] Hr; [|now apply Hrel].
    apply Hrel_u. now rewrite <- Hdone.
  - exact Hrange.
  - rewrite <- Ho. split; [now apply (Settled_start s0 W0 o origin)|].
    split; [now apply (Bounded_start s0 o origin)|].
    now apply (Optimal_start origin).
Qed.

End Relaxation.

Lemma fstar_lt (s : Network.t) (u r : nat) :
  In r (fstar s u) -> (u < List.length (Network.nodes s))%nat.
Proof.
  unfold fstar. intros H. apply nth_error_Some.
  destruct (nth_error (Network.nodes s) u); [discriminate | contradiction].
Qed.

(** What the labels at the end of the search say about a recorded
    predecessor: it is the tail of a link of a forward star, a through
    node that was popped with a finite potential. *)
Lemma Searched_pre_link (s : Network.t) (o : nat) (P : list nat)
    (lb : list (pot * option Z)) (k : nat) (w : Z) :
  Wf s -> Searched s o [] P lb -> snd (lab lb k) = Some w ->
  exists u r l c,
    w = Z.of_nat u + 1
    /\ Network.firstThroughNode s <= w
    /\ In r (fstar s u)
    /\ nth_error (Network.heap s) r = Some l
    /\ Link.tail l = w /\ Link.head l = Z.of_nat k + 1
    /\ Link.cost l = Some c
    /\ fst (lab lb u) <> PInf
    /\ fst (lab lb k) = pot_add (fst (lab lb u)) c.
Proof.
  intros W (St & Bd & Op) Hk.
  destruct (op_tight _ _ _ _ _ Op k w Hk)
    as (u & r & l & c & Hw & Hin & Hr & Hl & Hcost & Hh & Heq).
  exists u, r, l, c.
  pose proof (bd_popped _ _ _ _ _ Bd u Hin) as Hthru.
  assert (Htail : Link.tail l = w).
  { unfold fstar in Hr.
    destruct (nth_error (Network.nodes s) u) as [[nu|]|] eqn:Eu;
      try contradiction.
    destruct (wf_node s W u _ Eu) as (nd & Hnd & Hid & Hfs).
    inversion Hnd; subst nd.
    destruct (Hfs r Hr) as (l' & c' & Hl' & Ht' & _).
    assert (l' = l) by congruence. subst l'. lia. }
  assert (Hfin : fst (lab lb u) <> PInf).
  { destruct (st_link _ _ _ _ _ St k w Hk) as (u' & Hw' & _ & Hfin & _).
    assert (u' = u) by lia. now subst u'. }
  repeat split; auto. lia.
Qed.

(** The heads of the links that leave an origin that is a through node
    are labelled. *)
Lemma Searched_star_reached (s : Network.t) (o : nat) (P : list nat)
    (lb : list (pot * option Z)) (r : nat) (l : Link.t) (k : nat) :
  Wf s -> List.length lb = List.length (Network.nodes s) ->
  Searched s o [] P lb ->
  Network.firstThroughNode s <= Z.of_nat o + 1 ->
  In r (fstar s o) ->
  nth_error (Network.heap s) r = Some l ->
  Link.head l = Z.of_nat k + 1 ->
  fst (lab lb k) <> PInf.
Proof.
  intros W Hlen (St & Bd & Op) Hthru Hr Hl Hh.
  assert (Ho : In o P).
  { destruct (op_scan _ _ _ _ _ Op o Hthru) as [H | (i & [] & _)]; [|exact H].
    rewrite Hlen. apply (fstar_lt s o r Hr). }
  assert (Hc : exists c, Link.cost l = Some c).
  { unfold fstar in Hr.
    destruct (nth_error (Network.nodes s) o) as [[nu|]|] eqn:Eu;
      try contradiction.
    destruct (wf_node s W o _ Eu) as (nd & Hnd & Hid & Hfs).
    inversion Hnd; subst nd.
    destruct (Hfs r Hr) as (l' & c' & Hl' & _ & _ & Hc' & _).
    assert (l' = l) by congruence. subst l'. eauto. }
  destruct Hc as (c & Hc).
  pose proof (op_relaxed _ _ _ _ _ Op o r Ho Hr l c k Hl Hc Hh) as Hle.
  rewrite (st_origin _ _ _ _ _ St) in Hle. cbn in Hle.
  intros E. rewrite E in Hle. discriminate Hle.
Qed.

(** X10: on a consistent network with non-negative link costs and for an
    origin among its nodes, the predecessors that ShortestPath records
    follow the forward stars: a node with predecessor [w] is the head of
    a link of the forward star of node [w], a through node; both have a
    finite potential, and the potential of [w] does not exceed that of
    the node.  No potential is negative, and the origin has potential 0
    and no predecessor. *)
Theorem ShortestPath_predecessors (s : Network.t) (origin : Z) :
  consistent s = true ->
  nonneg_costs s = true ->
  1 <= origin <= Z.of_nat (List.length (Network.nodes s)) ->
  exists tbl s',
    Network.ShortestPath origin s = Ok tbl s'
    /\ lab tbl (Z.to_nat (origin - 1)) = (PFin 0, None)
    /\ (forall k q, fst (lab tbl k) = PFin q -> (0 <= q)%Q)
    /\ (forall k w, snd (lab tbl k) = Some w ->
          exists u r l pu pk,
            w = Z.of_nat u + 1
            /\ Network.firstThroughNode s <= w
            /\ In r (fstar s u)
            /\ nth_error (Network.heap s) r = Some l
            /\ Link.tail l = w /\ Link.head l = Z.of_nat k + 1
            /\ fst (lab tbl u) = PFin pu
            /\ fst (lab tbl k) = PFin pk
            /\ (pu <= pk)%Q).
Proof.
  intros Hc N Ho. apply consistent_Wf in Hc.
  destruct (ShortestPath_Searched s Hc N _ origin eq_refl Ho)
    as (s' & P' & Hrun & Hf & HS).
  exists (labels s'), s'. split; [exact Hrun|].
  split; [apply (st_origin _ _ _ _ _ (proj1 HS))|]. split.
  - intros k q. apply (st_nonneg _ _ _ _ _ (proj1 HS)).
  - intros k w Hk.
    destruct (Searched_pre_link s _ P' (labels s') k w Hc HS Hk)
      as (u & r & l & c & Hw & Hthru & Hr & Hl & Ht & Hh & Hcost & Hfin & Heq).
    destruct (fst (lab (labels s') u)) as [|pu] eqn:Eu; [now contradiction Hfin|].
    exists u, r, l, pu, (pu + c)%Q.
    repeat split; auto.
    pose proof (nonneg_costs_link s r l c N Hl Hcost). lra.
Qed.

Lemma ShortestPath_predecessors_witness :
  exists tbl s',
    Network.ShortestPath 1 one_link = Ok tbl s'
    /\ lab tbl (Z.to_nat (1 - 1)) = (PFin 0, None).
Proof.
  destruct (ShortestPath_predecessors one_link 1)
    as (tbl & s' & Hrun & Ho & _).
  - vm_compute. reflexivity.
  - vm_compute. reflexivity.
  - vm_compute. split; discriminate.
  - exists tbl, s'. split; assumption.
Defined.

(* ------------------------------------------------------------------ *)
(** ** The table that ShortestPath returns                              *)
(* ------------------------------------------------------------------ *)



(* ------------------------------------------------------------------ *)
(** ** What ShortestPath, AON and UE leave alone, whatever the outcome  *)
(* ------------------------------------------------------------------ *)

Ltac pres_frame :=
  repeat first
    [ apply (pres_node_pos _ same_frame_refl)
    | apply (pres_node_obj _ same_frame_refl)
    | apply (pres_link_obj _ same_frame_refl)
    | apply (pres_assigned _ same_frame_refl)
    | apply (pres_bind _ same_frame_trans); [|intro]
    | apply (pres_ret _ same_frame_refl)
    | apply (pres_raise _ same_frame_refl)
    | apply (pres_gets _ same_frame_refl) ].

Lemma frame_node_update (k : nat) (f : Node.t -> Node.t) :
  (forall nd, static (f nd) = static nd) ->
  preserves same_frame (Network.node_update k f).
Proof.
  intros Hf s. unfold Network.node_update, bind, Network.node_obj.
  destruct (nth_error (Network.nodes s) k) as [[nd|]|] eqn:E;
    try apply same_frame_refl.
  cbn. apply (node_update_frame s k nd (f nd) E (Hf nd)).
Qed.

Lemma frame_relax (ci r : nat) : preserves same_frame (Network.relax ci r).
Proof.
  unfold Network.relax. pres_frame.
  destruct (Link.cost _) as [c|]; [|pres_frame].
  destruct (pot_gt _ _); [|pres_frame].
  apply frame_node_update. reflexivity.
Qed.

Lemma frame_read_potentials (L : list Z) :
  preserves same_frame (Network.read_potentials L).
Proof.
  induction L as [|i L IH]; cbn; [pres_frame|].
  apply (pres_bind _ same_frame_trans); [pres_frame | intros k].
  apply (pres_bind _ same_frame_trans); [pres_frame | intros nd].
  apply (pres_bind _ same_frame_trans); [exact IH | intros ps]. pres_frame.
Qed.

Lemma frame_scan (fuel : nat) (L : list Z) :
  preserves same_frame (Network.scan fuel L).
Proof.
  revert L. induction fuel as [|fuel IH]; intros [|i0 L]; cbn [Network.scan];
    try (apply (pres_ret _ same_frame_refl)).
  - intros s. exact Logic.I.
  - apply (pres_bind _ same_frame_trans); [apply frame_read_potentials | intros ps].
    apply (pres_bind _ same_frame_trans); [pres_frame | intros ci].
    apply (pres_bind _ same_frame_trans); [pres_frame | intros nd].
    apply (pres_bind _ same_frame_trans); [|intros _; apply IH].
    apply (pres_for_each _ same_frame_refl same_frame_trans).
    intros r. apply frame_relax.
Qed.

Lemma frame_table (ns : list (option Node.t)) :
  preserves same_frame (Network.table ns).
Proof.
  induction ns as [|[nd|] ns IH]; cbn; [pres_frame | | pres_frame].
  apply (pres_bind _ same_frame_trans); [exact IH | intros tb]. pres_frame.
Qed.

Lemma frame_ShortestPath (origin : Z) :
  preserves same_frame (Network.ShortestPath origin).
Proof.
  unfold Network.ShortestPath.
  apply (pres_bind _ same_frame_trans); [pres_frame | intros n].
  apply (pres_bind _ same_frame_trans).
  { apply (pres_for_each _ same_frame_refl same_frame_trans).
    intros k. apply frame_node_update. reflexivity. }
  intros _.
  apply (pres_bind _ same_frame_trans); [pres_frame | intros oi].
  apply (pres_bind _ same_frame_trans);
    [apply frame_node_update; reflexivity | intros _].
  apply (pres_bind _ same_frame_trans); [pres_frame | intros first].
  apply (pres_bind _ same_frame_trans).
  { intros s. destruct (Network.numNodes s); apply same_frame_refl. }
  intros nn.
  apply (pres_bind _ same_frame_trans); [apply frame_scan | intros _].
  apply (pres_bind _ same_frame_trans); [pres_frame | intros ns].
  apply frame_table.
Qed.

Lemma frame_trace (fuel : nat) (SPath : list (pot * option Z)) (demands : Q) :
  forall x fl, preserves same_frame (Network.trace fuel SPath demands x fl).
Proof.
  induction fuel as [|fuel IH]; intros x fl; cbn.
  - intros s. exact Logic.I.
  - apply (pres_bind _ same_frame_trans).
    { unfold py_getitem. destruct (py_norm _ _) as [k|]; [|pres_frame].
      destruct (nth_error SPath k); pres_frame. }
    intros e. destruct (snd e) as [p|]; [|pres_frame].
    apply (pres_bind _ same_frame_trans); [|intros fl'; apply IH].
    unfold Network.flow_add. destruct (dict_get fl (p, x)); pres_frame.
Qed.

Lemma frame_AON (fuel : nat) : preserves same_frame (Network.AON fuel).
Proof.
  unfold Network.AON.
  apply (pres_bind _ same_frame_trans); [pres_frame | intros ij].
  apply (pres_bind _ same_frame_trans); [pres_frame | intros ods].
  apply (pres_for_fold _ same_frame_refl same_frame_trans). intros fl row.
  apply (pres_bind _ same_frame_trans); [apply frame_ShortestPath | intros SPath].
  apply (pres_for_fold _ same_frame_refl same_frame_trans). intros fl' entry.
  apply (pres_bind _ same_frame_trans); [apply frame_trace | intros r].
  pres_frame.
Qed.

(** *** The main loop of ShortestPath comes to an end *)

Lemma halts_bind {S A B} (m : M S A) (k : A -> M S B) :
  halts m -> (forall a, halts (k a)) -> halts (bind m k).
Proof.
  intros Hm Hk s. unfold bind. specialize (Hm s).
  destruct (m s) as [a s1|e s1|]; [apply Hk | discriminate | congruence].
Qed.

Lemma halts_bind_post {S A B} (Q : A -> Prop) (m : M S A) (k : A -> M S B) :
  halts m -> (forall s a s', m s = Ok a s' -> Q a) ->
  (forall a, Q a -> halts (k a)) -> halts (bind m k).
Proof.
  intros Hm HQ Hk s. unfold bind. specialize (Hm s). specialize (HQ s).
  destruct (m s) as [a s1|e s1|];
    [apply (Hk a (HQ a s1 eq_refl)) | discriminate | congruence].
Qed.

Lemma halts_ret {S A} (a : A) : halts (@ret S A a).
Proof. intros s. discriminate. Qed.

Lemma halts_raise {S A} (e : exn) : halts (@raise S A e).
Proof. intros s. discriminate. Qed.

Lemma halts_gets {S A} (f : S -> A) : halts (gets f).
Proof. intros s. discriminate. Qed.

Lemma halts_modify {S} (f : S -> S) : halts (modify f).
Proof. intros s. discriminate. Qed.

Lemma halts_for_each {S A} (l : list A) (body : A -> M S unit) :
  (forall x, halts (body x)) -> halts (for_each l body).
Proof.
  intros Hb. induction l as [|x l IH]; cbn; [apply halts_ret|].
  apply halts_bind; auto.
Qed.

Lemma halts_node_pos (i : Z) : halts (Network.node_pos i).
Proof. intros s. unfold Network.node_pos. destruct (py_norm _ i); discriminate. Qed.

Lemma halts_node_obj (k : nat) : halts (Network.node_obj k).
Proof.
  intros s. unfold Network.node_obj.
  destruct (nth_error _ k) as [[nd|]|]; discriminate.
Qed.

Lemma halts_link_obj (r : nat) : halts (Network.link_obj r).
Proof. intros s. unfold Network.link_obj. destruct (nth_error _ r); discriminate. Qed.

Lemma halts_node_update (k : nat) (f : Node.t -> Node.t) :
  halts (Network.node_update k f).
Proof.
  unfold Network.node_update.
  apply halts_bind; [apply halts_node_obj | intros n; apply halts_modify].
Qed.

Lemma halts_relax (ci r : nat) : halts (Network.relax ci r).
Proof.
  unfold Network.relax.
  apply halts_bind; [apply halts_link_obj | intros l].
  apply halts_bind; [apply halts_node_pos | intros hi].
  apply halts_bind; [apply halts_node_obj | intros node].
  apply halts_bind; [apply halts_node_obj | intros currentNode].
  destruct (Link.cost l) as [c|]; [|apply halts_raise].
  destruct (pot_gt _ _); [apply halts_node_update | apply halts_ret].
Qed.

Lemma halts_read_potentials (L : list Z) : halts (Network.read_potentials L).
Proof.
  induction L as [|i L IH]; cbn; [apply halts_ret|].
  apply halts_bind; [apply halts_node_pos | intros k].
  apply halts_bind; [apply halts_node_obj | intros nd].
  apply halts_bind; [exact IH | intros ps; apply halts_ret].
Qed.

Lemma read_potentials_length (L : list Z) :
  forall s ps s', Network.read_potentials L s = Ok ps s' ->
  List.length ps = List.length L.
Proof.
  induction L as [|i L IH]; intros s ps s' H; cbn in H.
  - inversion H. reflexivity.
  - apply bind_Ok_inv in H as (k & s1 & _ & H).
    apply bind_Ok_inv in H as (nd & s2 & _ & H).
    apply bind_Ok_inv in H as (ps' & s3 & H3 & H).
    inversion H. cbn. f_equal. apply (IH _ _ _ H3).
Qed.

(** Every pass pops one entry of the scan list. *)
Lemma halts_scan (fuel : nat) :
  forall L, (List.length L <= fuel)%nat -> halts (Network.scan fuel L).
Proof.
  induction fuel as [|fuel IH]; intros [|i0 L] Hlen; cbn [Network.scan];
    try apply halts_ret; [cbn in Hlen; lia|].
  apply (halts_bind_post (fun ps => List.length ps = List.length (i0 :: L)));
    [apply halts_read_potentials | apply read_potentials_length | intros ps Hps].
  apply halts_bind; [apply halts_node_pos | intros ci].
  apply halts_bind; [apply halts_node_obj | intros nd].
  apply halts_bind;
    [apply halts_for_each; intros r; apply halts_relax | intros _].
  apply IH.
  destruct ps as [|p0 ps]; [discriminate|].
  destruct (selected_minimal (p0 :: ps) PInf p0) as [_ Hpos];
    [discriminate | now left |].
  rewrite Hps in Hpos.
  pose proof (length_pop _ (i0 :: L) Hpos) as Hpop. cbn in *. lia.
Qed.

Lemma halts_table (ns : list (option Node.t)) : halts (Network.table ns).
Proof.
  induction ns as [|[nd|] ns IH]; cbn;
    [apply halts_ret | | apply halts_raise].
  apply halts_bind; [exact IH | intros tb; apply halts_ret].
Qed.

Lemma halts_ShortestPath (origin : Z) : halts (Network.ShortestPath origin).
Proof.
  unfold Network.ShortestPath.
  apply halts_bind; [apply halts_gets | intros n].
  apply halts_bind;
    [apply halts_for_each; intros k; apply halts_node_update | intros _].
  apply halts_bind; [apply halts_node_pos | intros oi].
  apply halts_bind; [apply halts_node_update | intros _].
  apply halts_bind; [apply halts_gets | intros first].
  apply halts_bind.
  { intros s. destruct (Network.numNodes s); discriminate. }
  intros nn.
  apply halts_bind; [apply halts_scan, Nat.le_refl | intros _].
  apply halts_bind; [apply halts_gets | intros ns].
  apply halts_table.
Qed.

(** X11: whatever the network and the origin, ShortestPath comes to an
    end (its main loop pops one entry of the scan list per pass), and
    whether it returns or raises it has changed nothing but the
    potentials and the predecessors of the nodes: the IDs, zone flags and
    stars of the nodes, the links and their objects, the counts, the
    factors and the OD table are as before the call. *)
Theorem ShortestPath_frame (origin : Z) (s : Network.t) :
  match Network.ShortestPath origin s with
  | Ok _ s' => same_frame s s'
  | Raise _ s' => same_frame s s'
  | Diverge => False
  end.
Proof.
  pose proof (frame_ShortestPath origin s) as H.
  pose proof (halts_ShortestPath origin s) as Hh.
  destruct (Network.ShortestPath origin s) as [tbl s'|e s'|];
    [exact H | exact H | congruence].
Qed.

(** X12: whatever its outcome, AON changes nothing but the potentials
    and the predecessors of the nodes; in particular it leaves the OD
    table, the total demand and the stars of the nodes as they were. *)
Theorem AON_frame (fuel : nat) : preserves same_frame (Network.AON fuel).
Proof. exact (frame_AON fuel). Qed.

Lemma frame_UE_while (fuel aon_fuel : nat) (tolerance converge : Q)
    (IteCou : Z) (L : Network.UE_locals) (s : Network.t) :
  Network.links s = [] ->
  match Network.UE_while fuel aon_fuel tolerance converge IteCou L s with
  | Ok _ s' => same_frame s s'
  | Raise _ s' => same_frame s s'
  | Diverge => True
  end.
Proof.
  intros Hl. destruct (Qltb tolerance converge) eqn:E.
  - apply Qltb_true in E. now rewrite (UE_while_no_links _ _ _ _ _ _ _ E Hl).
  - apply Qltb_false in E. rewrite (UE_while_exit _ _ _ _ _ _ _ E).
    apply same_frame_refl.
Qed.

(** X13: UE never assigns a flow or a cost to a link, and never changes
    the OD table: whatever its outcome, the network differs from the one
    before the call at most in the potentials and predecessors that the
    search of AON left in the nodes.  (With links the first pass of the
    initial loop raises before its assignment; without links no loop has
    a pass that assigns.) *)
Theorem UE_frame (fuel : nat) (tolerance : Q) :
  preserves same_frame (Network.UE fuel tolerance).
Proof.
  unfold Network.UE.
  apply (pres_bind _ same_frame_trans); [apply frame_AON | intros flow_AON].
  intros s. unfold bind at 1. unfold gets.
  destruct (Network.links s) as [|[k r] ls] eqn:El.
  - cbn. apply frame_UE_while, El.
  - cbn. apply same_frame_refl.
Qed.

(* ------------------------------------------------------------------ *)
(** ** ShortestPath starts afresh                                       *)
(* ------------------------------------------------------------------ *)

Lemma node_eq (nd nd' : Node.t) :
  static nd = static nd' -> label_of (Some nd) = label_of (Some nd') -> nd = nd'.
Proof.
  destruct nd, nd'. unfold static. cbn. intros H1 H2.
  inversion H1. inversion H2. reflexivity.
Qed.

Lemma nodes_eq (ns ns' : list (option Node.t)) :
  shape ns = shape ns' -> map label_of ns = map label_of ns' -> ns = ns'.
Proof.
  revert ns'. induction ns as [|e ns IH]; intros [|e' ns'] Hs Hl;
    try discriminate; [reflexivity|].
  cbn in Hs, Hl. inversion Hs. inversion Hl. f_equal; [|now apply IH].
  destruct e as [nd|], e' as [nd'|]; try discriminate; [|reflexivity].
  f_equal. apply node_eq; [|assumption]. cbn in *. congruence.
Qed.

(** A state is its frame together with its labels. *)
Lemma frame_labels_eq (s s' : Network.t) :
  same_frame s s' -> labels s = labels s' -> s = s'.
Proof.
  unfold same_frame, labels. intros Hf Hl. decompose [and] Hf.
  assert (Hn : Network.nodes s = Network.nodes s')
    by (apply nodes_eq; [symmetry|]; assumption).
  destruct s, s'. cbn in *. subst. reflexivity.
Qed.

Lemma same_frame_sym (s s' : Network.t) : same_frame s s' -> same_frame s' s.
Proof.
  unfold same_frame. intros H. decompose [and] H. repeat split; congruence.
Qed.

Lemma ShortestPath_same (s s' : Network.t) (origin : Z) :
  Wf s -> 1 <= origin <= Z.of_nat (List.length (Network.nodes s)) ->
  same_frame s s' ->
  Network.ShortestPath origin s' = Network.ShortestPath origin s.
Proof.
  intros W Ho Hf.
  pose proof (Wf_frame _ _ Hf W) as W'.
  assert (Hlen : List.length (Network.nodes s') = List.length (Network.nodes s)).
  { apply shape_length. unfold same_frame in Hf. tauto. }
  assert (Hfirst : Network.firstThroughNode s' = Network.firstThroughNode s).
  { unfold same_frame in Hf. tauto. }
  destruct (ShortestPath_start s origin W Ho) as (s1 & Hf1 & Hl1 & ->).
  destruct (ShortestPath_start s' origin W') as (s1' & Hf1' & Hl1' & ->);
    [lia|].
  rewrite Hlen, Hfirst in *.
  assert (s1' = s1); [|now subst].
  apply frame_labels_eq; [|congruence].
  apply (same_frame_trans _ s' _ (same_frame_sym _ _ Hf1')).
  apply (same_frame_trans _ s _ (same_frame_sym _ _ Hf) Hf1).
Qed.

(** X19: on a consistent network the outcome of ShortestPath does not
    depend on the potentials and predecessors that the nodes hold when it
    is called (it resets them first): from two states that differ only
    in these it returns the same table and leaves the same state.  In
    particular a second call for the same origin returns the same table
    and changes nothing. *)
Theorem ShortestPath_fresh (s : Network.t) (origin : Z) :
  consistent s = true ->
  1 <= origin <= Z.of_nat (List.length (Network.nodes s)) ->
  (forall s', same_frame s s' ->
     Network.ShortestPath origin s' = Network.ShortestPath origin s)
  /\ (forall tbl s1, Network.ShortestPath origin s = Ok tbl s1 ->
        Network.ShortestPath origin s1 = Ok tbl s1).
Proof.
  intros Hc Ho. apply consistent_Wf in Hc. split.
  - intros s' Hf. apply (ShortestPath_same s s' origin Hc Ho Hf).
  - intros tbl s1 Hrun.
    pose proof (frame_ShortestPath origin s) as Hf. rewrite Hrun in Hf.
    rewrite (ShortestPath_same s s1 origin Hc Ho Hf). exact Hrun.
Qed.

Lemma ShortestPath_fresh_witness :
  exists tbl s1, Network.ShortestPath 1 one_link = Ok tbl s1
                 /\ Network.ShortestPath 1 s1 = Ok tbl s1.
Proof.
  destruct (Network.ShortestPath 1 one_link) as [tbl s1| |] eqn:E;
    try (vm_compute in E; discriminate E).
  exists tbl, s1. split; [reflexivity|].
  apply (ShortestPath_fresh one_link 1); [| |exact E].
  - vm_compute. reflexivity.
  - vm_compute. split; discriminate.
Defined.

(* ------------------------------------------------------------------ *)
(** ** ShortestPath: the origin as an index                             *)
(* ------------------------------------------------------------------ *)

Lemma reset_keeps_length (s s1 : Network.t) (l : list nat) :
  for_each l (fun k => Network.node_update k Node.ResetPotential) s = Ok tt s1 ->
  List.length (Network.nodes s1) = List.length (Network.nodes s).
Proof.
  intros H.
  assert (Hp : preserves same_frame
                 (for_each l (fun k => Network.node_update k Node.ResetPotential))).
  { apply (pres_for_each _ same_frame_refl same_frame_trans).
    intros k. apply frame_node_update. reflexivity. }
  specialize (Hp s). rewrite H in Hp.
  apply shape_length. unfold same_frame in Hp. tauto.
Qed.

Lemma bind_ext_Ok {S A B} (m : M S A) (k k' : A -> M S B) (s : S) :
  (forall a s1, m s = Ok a s1 -> k a s1 = k' a s1) ->
  bind m k s = bind m k' s.
Proof.
  intros H. unfold bind. destruct (m s) as [a s1|e s1|]; auto.
Qed.

(** X24: ShortestPath uses its origin as a list index.  An origin from
    1 - numNodes to 0 is not rejected: it denotes a node counted from the
    end of the node list, and the search runs as for the ID of that node
    (origin 0 stands for the last node).  On a consistent network an
    origin above numNodes or at most - numNodes raises IndexError, after
    every node has been reset. *)
Theorem ShortestPath_origin_index (s : Network.t) (origin : Z) :
  (- Z.of_nat (List.length (Network.nodes s)) < origin <= 0 ->
   Network.ShortestPath origin s
   = Network.ShortestPath (origin + Z.of_nat (List.length (Network.nodes s))) s)
  /\ (consistent s = true ->
      Z.of_nat (List.length (Network.nodes s)) < origin
      \/ origin <= - Z.of_nat (List.length (Network.nodes s)) ->
      exists s1, Network.ShortestPath origin s = Raise IndexError s1
                 /\ same_frame s s1
                 /\ labels s1 = repeat (PInf, None) (List.length (Network.nodes s))).
Proof.
  split.
  - intros Ho. unfold Network.ShortestPath.
    apply bind_ext_Ok. intros n s0 H0. inversion H0; subst n s0. clear H0.
    apply bind_ext_Ok. intros [] s1 E.
    pose proof (reset_keeps_length _ _ _ E) as Hlen.
    assert (Hpos : Network.node_pos (origin - 1) s1
                   = Network.node_pos
                       (origin + Z.of_nat (List.length (Network.nodes s)) - 1) s1).
    { unfold Network.node_pos, py_norm. rewrite Hlen.
      destruct (Z.leb_spec 0 (origin - 1)); [lia|].
      destruct (Z.leb_spec (- Z.of_nat (List.length (Network.nodes s))) (origin - 1));
        [|lia].
      destruct (Z.leb_spec 0 (origin + Z.of_nat (List.length (Network.nodes s)) - 1));
        [|lia].
      destruct (Z.ltb_spec (origin + Z.of_nat (List.length (Network.nodes s)) - 1)
                  (Z.of_nat (List.length (Network.nodes s)))); [|lia].
      do 2 f_equal. lia. }
    unfold bind at 1 8. now rewrite Hpos.
  - intros Hc Ho. apply consistent_Wf in Hc.
    pose proof (Wf_all_nodes s Hc) as Hall.
    set (s' := Network.set_nodes
                 (fun _ => map (option_map Node.ResetPotential) (Network.nodes s)) s).
    assert (Hreset :
      for_each (seq 0 (List.length (Network.nodes s)))
        (fun k => Network.node_update k Node.ResetPotential) s = Ok tt s').
    { apply (reset_loop (Network.nodes s) [] s); [reflexivity | exact Hall]. }
    exists s'. split; [|split].
    + unfold Network.ShortestPath. unfold bind at 1. unfold gets at 1.
      rewrite (bind_Ok _ _ _ _ _ Hreset).
      apply bind_Raise. unfold Network.node_pos, py_norm.
      unfold s'. cbn [Network.nodes Network.set_nodes]. rewrite length_map.
      destruct (Z.leb_spec 0 (origin - 1)).
      * destruct (Z.ltb_spec (origin - 1) (Z.of_nat (List.length (Network.nodes s))));
          [lia | reflexivity].
      * destruct (Z.leb_spec (- Z.of_nat (List.length (Network.nodes s))) (origin - 1));
          [lia | reflexivity].
    + unfold same_frame, s'. cbn. repeat split. apply shape_reset.
    + unfold labels, s'. cbn. apply labels_reset, Hall.
Qed.

Lemma ShortestPath_origin_index_witness :
  Network.ShortestPath 0 one_link
  = Network.ShortestPath (0 + Z.of_nat (List.length (Network.nodes one_link)))
      one_link.
Proof.
  apply (ShortestPath_origin_index one_link 0). vm_compute.
  split; [reflexivity | discriminate].
Defined.

(* ------------------------------------------------------------------ *)
(** ** CalcCost: errors and frame                                       *)
(* ------------------------------------------------------------------ *)

Lemma Qdiv_zero (a b : Q) : (a == 0)%Q -> (a / b == 0)%Q.
Proof. intros H. unfold Qdiv. rewrite H. ring. Qed.



(* ------------------------------------------------------------------ *)
(** ** AON: the flows, and the network built from its files             *)
(* ------------------------------------------------------------------ *)

Lemma dict_get_In {V} (d : list (key * V)) (k : key) (v : V) :
  dict_get d k = Some v -> exists k', In (k', v) d.
Proof.
  induction d as [|[k0 v0] d IH]; cbn; [discriminate|].
  destruct (key_eqb k k0).
  - intros H. inversion H. exists k0. now left.
  - intros H. destruct (IH H) as (k' & Hk). exists k'. now right.
Qed.

Lemma In_dict_set {V} (d : list (key * V)) (k k' : key) (v v' : V) :
  In (k', v') (dict_set d k v) -> v' = v \/ In (k', v') d.
Proof.
  induction d as [|[k0 v0] d IH]; cbn.
  - intros [H | []]. inversion H. now left.
  - destruct (key_eqb k k0); cbn.
    + intros [H | H]; [inversion H; now left | right; now right].
    + intros [H | H]; [right; now left|].
      destruct (IH H) as [? | ?]; [now left | right; now right].
Qed.

Lemma flow_add_nonneg (fl fl' : flows) (k : key) (demands : Q)
    (s s' : Network.t) :
  (0 <= demands)%Q -> flows_nonneg fl ->
  Network.flow_add fl k demands s = Ok fl' s' -> flows_nonneg fl'.
Proof.
  unfold Network.flow_add. intros Hd Hfl.
  destruct (dict_get fl k) as [v|] eqn:E; [|discriminate].
  intros H. inversion H; subst fl' s'. intros k' v' Hin.
  apply In_dict_set in Hin as [-> | Hin]; [|apply (Hfl k' v' Hin)].
  destruct (dict_get_In _ _ _ E) as (k0 & Hk0).
  pose proof (Hfl k0 v Hk0). lra.
Qed.

Lemma trace_nonneg (fuel : nat) (SPath : list (pot * option Z)) (demands : Q) :
  (0 <= demands)%Q ->
  forall x fl r s s',
  flows_nonneg fl ->
  Network.trace fuel SPath demands x fl s = Ok r s' ->
  flows_nonneg (fst r).
Proof.
  intros Hd. induction fuel as [|fuel IH]; intros x fl r s s' Hfl H; cbn in H;
    [discriminate|].
  apply bind_Ok_inv in H as (e & s1 & _ & H).
  destruct (snd e) as [p|].
  - apply bind_Ok_inv in H as (fl1 & s2 & H1 & H).
    apply (IH _ _ _ _ _ (flow_add_nonneg _ _ _ _ _ _ Hd Hfl H1) H).
  - inversion H. exact Hfl.
Qed.

Lemma for_fold_Ok_In {S A B} (Inv : B -> Prop) (l : list A)
    (body : B -> A -> M S B) :
  (forall b x s b' s', In x l -> Inv b -> body b x s = Ok b' s' -> Inv b') ->
  forall b s b' s', Inv b -> for_fold l body b s = Ok b' s' -> Inv b'.
Proof.
  induction l as [|x l IH]; intros Hb b s b' s' HI H; cbn in H.
  - inversion H. now subst.
  - apply bind_Ok_inv in H as (b1 & s1 & H1 & H).
    apply (IH (fun b x s b' s' Hx => Hb b x s b' s' (or_intror Hx)) b1 s1 b' s');
      [|exact H].
    apply (Hb b x s b1 s1 (or_introl eq_refl) HI H1).
Qed.

(** Demands that are not negative add up to flows that are not negative. *)
Lemma AON_nonneg (fuel : nat) (s s' : Network.t) (fl : flows) :
  demands_nonneg s ->
  Network.AON fuel s = Ok fl s' ->
  flows_nonneg fl.
Proof.
  unfold Network.AON. intros Hd H.
  apply bind_Ok_inv in H as (ij & s1 & H1 & H). inversion H1; subst ij s1.
  apply bind_Ok_inv in H as (ods & s1 & H2 & H). inversion H2; subst ods s1.
  revert H. apply (for_fold_Ok_In flows_nonneg).
  - intros b [o row] s1 b' s1' Hrow Hb Hrun.
    apply bind_Ok_inv in Hrun as (SPath & s2 & _ & Hrun). revert Hrun.
    apply (for_fold_Ok_In flows_nonneg); [|exact Hb].
    intros b0 [d od] s3 b0' s3' Hin Hb0 He.
    apply bind_Ok_inv in He as (r & s4 & Hr & He). inversion He; subst.
    apply (trace_nonneg _ _ _ (Hd o row d od Hrow Hin) _ _ _ _ _ Hb0 Hr).
  - intros k v Hin. apply in_map_iff in Hin as (k' & Hk & _).
    inversion Hk. apply Qle_refl.
Qed.

(** X16: when no demand of the OD table is negative, no flow of the
    mapping that AON returns is negative. *)
Theorem AON_flows_nonneg (fuel : nat) (s s' : Network.t) (fl : flows) :
  demands_nonneg s ->
  Network.AON fuel s = Ok fl s' ->
  flows_nonneg fl.
Proof. exact (AON_nonneg fuel s s' fl). Qed.

Lemma AON_flows_nonneg_witness :
  exists fl s', Network.AON 6 one_link_50 = Ok fl s' /\ flows_nonneg fl.
Proof.
  destruct (Network.AON 6 one_link_50) as [fl s'| |] eqn:E;
    try (vm_compute in E; discriminate E).
  exists fl, s'. split; [reflexivity|].
  apply (AON_flows_nonneg 6 one_link_50 s' fl); [|exact E].
  intros o row d od Ho Hd. vm_compute in Ho.
  destruct Ho as [Ho | []]. inversion Ho; subst o row.
  destruct Hd as [Hd | []]. inversion Hd; subst d od.
  vm_compute. discriminate.
Defined.

Lemma Demand_ok_nonneg (s : Network.t) : Demand_ok s -> demands_nonneg s.
Proof.
  intros [_ Hr] o row d od Ho Hd.
  destruct (Hr o row Ho) as [_ H]. destruct (H d od Hd) as (_ & _ & Hq).
  apply Qlt_le_weak, Hq.
Qed.

Lemma new_Ok_inv (md : Metadata) (lines : list LinkData) (dmd : DemandMetadata)
    (dlines : list DemandLine) (s : Network.t) :
  Network.new (Some (md, lines)) (Some (dmd, dlines)) = Ok tt s ->
  exists s1, Network.ReadNetworkFile md lines Network.init = Ok tt s1
             /\ Network.ReadDemandFile dmd dlines s1 = Ok tt s.
Proof.
  unfold Network.new. intros H.
  apply bind_Ok_inv in H as ([] & s1 & H1 & H). eauto.
Qed.

(** X17: a network built by [Network(networkFileName, demandFileName)]
    from files whose node IDs are positive and whose cost factors are
    not negative is ready for use: it is consistent, its link costs are
    assigned and not negative, its OD table is well formed, and AON
    returns on it (with enough fuel for the walks) a mapping with no
    negative flow. *)
Theorem new_ready (md : Metadata) (lines : list LinkData)
    (dmd : DemandMetadata) (dlines : list DemandLine) (s : Network.t) :
  Network.new (Some (md, lines)) (Some (dmd, dlines)) = Ok tt s ->
  0 <= md_numNodes md ->
  1 - md_numNodes md <= md_firstThruNode md ->
  (0 <= md_distanceFactor md)%Q -> (0 <= md_tollFactor md)%Q ->
  (forall d, In d lines -> 1 <= d_tail d /\ 1 <= d_head d) ->
  (forall x, In x (file_ids dlines) -> 1 <= x) ->
  consistent s = true /\ nonneg_costs s = true /\ Demand_ok s
  /\ forall fuel, (2 * List.length (Network.nodes s) + 2 <= fuel)%nat ->
       exists fl s', Network.AON fuel s = Ok fl s' /\ flows_nonneg fl.
Proof.
  intros H Hn Hfirst Hdf Htf Hlines Hids.
  apply new_Ok_inv in H as (s1 & Hnet & Hdem).
  assert (Hc1 : consistent s1 = true).
  { apply (net_consistent md lines Network.init s1); auto. }
  assert (Hn1 : nonneg_costs s1 = true).
  { apply (net_nonneg_costs md lines Network.init s1); auto. }
  assert (Ho1 : Network.ODpairs s1 = []).
  { destruct (ReadNetworkFile_Ok_inv md lines Network.init s1 Hnet Hlines)
      as (_ & _ & _ & _ & _ & _ & _ & Hod & _).
    exact Hod. }
  assert (Hc : consistent s = true /\ nonneg_costs s = nonneg_costs s1).
  { apply (demand_consistent dmd dlines s1 s); auto. }
  destruct Hc as [Hc Hnn].
  assert (Hok : Demand_ok s).
  { apply (demand_table dmd dlines s1 s Hdem).
    - constructor; rewrite Ho1; [constructor | intros o row []].
    - intros o row Hin. rewrite Ho1 in Hin. destruct Hin. }
  split; [exact Hc|]. split; [congruence|]. split; [exact Hok|].
  intros fuel Hfuel.
  destruct (AON_total s fuel (consistent_Wf s Hc)) as (fl & s' & Hrun);
    [congruence | exact Hfuel |].
  exists fl, s'. split; [exact Hrun|].
  apply (AON_nonneg fuel s s' fl (Demand_ok_nonneg s Hok) Hrun).
Qed.

Lemma new_ready_witness :
  consistent (state_of Network.init (Network.new one_link_files demand_50_files))
  = true.
Proof.
  apply (new_ready (mkMetadata 2 1 1 2 0 0) [line 1 2 100 4]
           (mkDemandMetadata 50 2) demand_50).
  - vm_compute. reflexivity.
  - cbn. lia.
  - cbn. lia.
  - cbn. lra.
  - cbn. lra.
  - intros d [<- | []]. cbn. lia.
  - intros x Hx. vm_compute in Hx. intuition lia.
Defined.

(* ------------------------------------------------------------------ *)
(** ** AON on a cycle of negative cost                                  *)
(* ------------------------------------------------------------------ *)

(** With the predecessors of nodes 2 and 3 pointing at each other the
    walk back never reaches a node without predecessor. *)
Lemma trace_cycle (SPath : list (pot * option Z)) (demands : Q)
    (s : Network.t) :
  map snd SPath = [None; Some 3; Some 2] ->
  forall (fuel : nat) (x : Z) (fl : flows),
    x = 2 \/ x = 3 ->
    is_some (dict_get fl (2, 3)) = true ->
    is_some (dict_get fl (3, 2)) = true ->
    Network.trace fuel SPath demands x fl s = Diverge.
Proof.
  intros HS.
  destruct SPath as [|[p1 w1] [|[p2 w2] [|[p3 w3] [|e4 rest]]]];
    try discriminate HS.
  cbn in HS. injection HS as -> -> ->.
  induction fuel as [|fuel IH]; intros x fl Hx H23 H32; [reflexivity|].
  destruct Hx as [-> | ->]; cbn [Network.trace].
  - assert (G : @py_getitem Network.t _ [(p1, None); (p2, Some 3); (p3, Some 2)]
                  (2 - 1) s = Ok (p2, Some 3) s) by reflexivity.
    rewrite (bind_Ok _ _ _ _ _ G). cbn [snd].
    unfold bind at 1, Network.flow_add.
    destruct (dict_get fl (3, 2)) as [v|] eqn:E; [|discriminate H32].
    unfold ret at 1.
    apply IH; [now right| |]; rewrite is_some_dict_set.
    + now rewrite H23, orb_true_r.
    + reflexivity.
  - assert (G : @py_getitem Network.t _ [(p1, None); (p2, Some 3); (p3, Some 2)]
                  (3 - 1) s = Ok (p3, Some 2) s) by reflexivity.
    rewrite (bind_Ok _ _ _ _ _ G). cbn [snd].
    unfold bind at 1, Network.flow_add.
    destruct (dict_get fl (2, 3)) as [v|] eqn:E; [|discriminate H23].
    unfold ret at 1.
    apply IH; [now left| |]; rewrite is_some_dict_set.
    + reflexivity.
    + now rewrite H32, orb_true_r.
Qed.

(** C4, as stated, fails: the network that the loader builds from a file
    with TOLL FACTOR -100 and the links (1,2), (2,3) and (3,2, toll 1) is
    consistent, and AON does not return on it, however many steps its
    walk is given: ShortestPath makes nodes 2 and 3 the predecessor of
    each other, and the walk back from the destination 3 goes round. *)
Lemma AON_toll_cycle_never_returns :
  Network.new toll_cycle_files toll_cycle_demand = Ok tt toll_cycle
  /\ consistent toll_cycle = true
  /\ ~ (exists fuel, Network.AON fuel toll_cycle <> Diverge).
Proof.
  split; [vm_compute; reflexivity|]. split; [vm_compute; reflexivity|].
  intros (fuel & H). apply H. clear H.
  assert (HS : match Network.ShortestPath 1 toll_cycle with
               | Ok t _ => map snd t
               | _ => []
               end = [None; Some 3; Some 2]) by (vm_compute; reflexivity).
  destruct (Network.ShortestPath 1 toll_cycle) as [tbl s1| |] eqn:E;
    try discriminate HS.
  unfold Network.AON.
  unfold bind at 1, gets at 1. unfold bind at 1, gets at 1.
  change (Network.ODpairs toll_cycle) with [(1, [(3, OD.mk 1 3 50)])].
  cbn [for_fold fst snd]. unfold bind at 1. unfold bind at 1.
  rewrite E. cbn [for_fold fst snd]. unfold bind at 1. unfold bind at 1.
  rewrite (trace_cycle tbl _ s1 HS fuel 3); auto.
Qed.
